(** * Facial symmetry analyzer: the scoring pipeline of src/main.py

    A shallow embedding of [calculate_distance], [get_symmetry_level],
    [compute_symmetry_score] and [analyze_image], and the properties of
    the scoring pipeline stated in the specification.

    Numbers are modelled as the program has them: Python floats are IEEE
    754 binary64 numbers, here Rocq's primitive floats, whose operations
    round to nearest, ties to even, exactly as CPython's [+], [-], [*],
    [/], [abs] and [math.sqrt] do. The places where Python adds behaviour
    on top of the IEEE operation are written out in module [Py]: true
    division raises on a zero divisor, [**] answers the special bases
    itself and raises on overflow,
    [math.sqrt] raises on a negative argument, [min] and [max] keep
    their first argument unless the second compares strictly better,
    [round(x, 2)] rounds the exact value to two decimals (ties to even)
    and converts back.

    [x ** 2] ends in the C library's [pow], whose rounding the language
    does not fix: [pow] is a parameter, and a statement that needs
    something of it says so in a hypothesis ([square_not_negative],
    [square_not_above]).

    Two library behaviours are fixed by assumption and named here:
    [sum] is the left-to-right addition of the language definition
    (CPython 3.12 and later add the floats with a compensated loop,
    which can differ in the last bit); [float(n)] is used only for the
    small non-negative ints of the program.

    Exceptions are values of [exn]; the log written through [logger.info]
    is threaded explicitly. The C library's [pow], the face-mesh model,
    the image decoder, float formatting and [str] of an exception are
    parameters. *)

From Stdlib Require Import ZArith Floats String Ascii List Lia Bool.
Import ListNotations.
Set Warnings "-inexact-float".
Local Open Scope Z_scope.

(** * Exceptions and the logging monad *)

Inductive exn : Type :=
| HTTPException (status_code : Z) (detail : string)
| ZeroDivisionError (msg : string)
| OverflowError (msg : string)
| ValueError (msg : string)
| IndexError (msg : string)
| AttributeError (msg : string)
| OtherException (msg : string).

Inductive result (A : Type) : Type :=
| Ok (a : A)
| Raise (e : exn).
Arguments Ok {A} a.
Arguments Raise {A} e.

Definition result_bind {A B : Type} (r : result A) (k : A -> result B) : result B :=
  match r with
  | Ok a => k a
  | Raise e => Raise e
  end.

Declare Scope result_scope.
Delimit Scope result_scope with result.
Notation "x <- c1 ;; c2" := (result_bind c1 (fun x => c2))
  (at level 61, c1 at next level, right associativity) : result_scope.

(** The [logging] module's handler is the only state the scoring code
    touches: a computation takes the records logged so far and returns
    its outcome with the records after it. *)
Definition Log := list string.
Definition M (A : Type) : Type := Log -> result A * Log.

Definition ret {A : Type} (a : A) : M A := fun log => (Ok a, log).
Definition raise {A : Type} (e : exn) : M A := fun log => (Raise e, log).
Definition bind {A B : Type} (c : M A) (k : A -> M B) : M B :=
  fun log =>
    match c log with
    | (Ok a, log') => k a log'
    | (Raise e, log') => (Raise e, log')
    end.
Definition lift {A : Type} (r : result A) : M A := fun log => (r, log).
Definition logger_info (msg : string) : M unit := fun log => (Ok tt, log ++ [msg]).

Declare Scope monad_scope.
Delimit Scope monad_scope with monad.
Notation "x <- c1 ;; c2" := (bind c1 (fun x => c2))
  (at level 61, c1 at next level, right associativity) : monad_scope.
Notation "c1 ;;; c2" := (bind c1 (fun _ => c2))
  (at level 61, right associativity) : monad_scope.

(** * Python's float operations on binary64 *)

Module Py.
Local Open Scope float_scope.

(** [float(n)] for the small non-negative ints of this program (image
    sizes, [len], literals): exact below [2^53]. *)
Definition float_of_int (n : Z) : float := of_uint63 (Uint63.of_Z n).

(** [a / b]: float true division. *)
Definition truediv (a b : float) : result float :=
  if b =? 0 then Raise (ZeroDivisionError "float division by zero")
  else Ok (a / b).

(** [x ** 2], that is float_pow with the exponent 2.0. NaN, the
    infinities, the zeros and a base of absolute value 1.0 are answered
    before the C library is called; for any other base float_pow drops
    the sign and returns what the library's [pow] gives at
    [(|x|, 2.0)], however the library rounds it. [pow] is that library
    function. A result of HUGE_VAL is the range error that raises
    OverflowError; an underflow to zero is no error. (A library that
    reports a range error with a result that is neither is not
    modelled.) *)
Definition pow2 (pow : float -> float -> float) (x : float) : result float :=
  if is_nan x then Ok x
  else if is_infinity x then Ok infinity
  else if x =? 0 then Ok 0
  else
    let iv := if x <? 0 then - x else x in
    if iv =? 1 then Ok 1
    else
      let ix := pow iv 2 in
      if is_infinity ix then Raise (OverflowError "(34, 'Numerical result out of range')")
      else Ok ix.

(** [math.sqrt]. *)
Definition sqrt (x : float) : result float :=
  let r := PrimFloat.sqrt x in
  if is_nan r && negb (is_nan x) then Raise (ValueError "math domain error")
  else Ok r.

(** [min(a, b)] and [max(a, b)]: the first argument is kept unless the
    second compares strictly below (above) it. *)
Definition min (a b : float) : float := if b <? a then b else a.
Definition max (a b : float) : float := if a <? b then b else a.

(** [sum(l)]: left-to-right addition from the int 0. *)
Definition sum (l : list float) : float := fold_left PrimFloat.add l (float_of_int 0).

(** Nearest integer to [a / b] for [b > 0], ties to even. *)
Definition round_half_even_div (a b : Z) : Z :=
  let q := (a / b)%Z in
  let r := (a mod b)%Z in
  match (2 * r ?= b)%Z with
  | Lt => q
  | Gt => (q + 1)%Z
  | Eq => if Z.even q then q else (q + 1)%Z
  end.

(** [round(x, 2)]: the decimal with two fractional digits nearest to the
    exact value of [x] (ties to even), converted back to the nearest
    binary64 number. *)
Definition round2 (x : float) : float :=
  match Prim2SF x with
  | S754_finite s m e =>
      let n := if (0 <=? e)%Z then (Zpos m * 2 ^ e * 100)%Z
               else round_half_even_div (Zpos m * 100) (2 ^ (- e)) in
      if (n <? 2 ^ 53)%Z then
        let r := float_of_int n / 100 in
        if s then - r else r
      else x
  | _ => x
  end.
End Py.

(** * src/main.py *)

Local Open Scope float_scope.

Definition GOLDEN_RATIO : float := 1.618.

Definition Point : Type := (float * float)%type.

Definition calculate_distance (pow : float -> float -> float) (point1 point2 : Point) :
  result float :=
  (dx2 <- Py.pow2 pow (fst point2 - fst point1) ;;
   dy2 <- Py.pow2 pow (snd point2 - snd point1) ;;
   Py.sqrt (dx2 + dy2))%result.

Definition get_symmetry_level (score : float) : string :=
  let score_percent := score * 100 in
  if (90 <=? score_percent) && (score_percent <=? 100) then
    "Divine Symmetry âœ¨"
  else if (75 <=? score_percent) && (score_percent <? 90) then
    "Elegant Harmony ðŸ’«"
  else if (60 <=? score_percent) && (score_percent <? 75) then
    "Refined Balance ðŸŒ¿"
  else if (40 <=? score_percent) && (score_percent <? 60) then
    "Natural Allure ðŸŒ¸"
  else
    "Authentic Beauty ðŸŒ™".

Local Open Scope float_scope.

Record NormalizedLandmark : Type := { lm_x : float; lm_y : float; lm_z : float }.

Record Image : Type := { width : Z; height : Z; pixels : list Z }.

Record FaceMeshResults : Type :=
  { multi_face_landmarks : option (list (list NormalizedLandmark)) }.

Record KeyPoints : Type :=
  { left_eye : Point; right_eye : Point; nose_tip : Point;
    nose_left : Point; nose_right : Point;
    mouth_left : Point; mouth_right : Point;
    chin : Point; forehead : Point;
    left_face_edge : Point; right_face_edge : Point }.

Record Distances : Type :=
  { eye_distance : float; nose_width : float; mouth_width : float;
    face_width : float; forehead_to_eyes : float; eyes_to_chin : float;
    eye_to_nose : float; nose_to_chin : float }.

(** [landmarks[i]] *)
Definition getitem (landmarks : list NormalizedLandmark) (i : nat) : result NormalizedLandmark :=
  match nth_error landmarks i with
  | Some l => Ok l
  | None => Raise (IndexError "list index out of range")
  end.

(** [(landmarks[i].x * image.width, landmarks[i].y * image.height)] *)
Definition pixel (image : Image) (landmarks : list NormalizedLandmark) (i : nat) : result Point :=
  (l <- getitem landmarks i ;;
   Ok (lm_x l * Py.float_of_int (width image), lm_y l * Py.float_of_int (height image)))%result.

(** Lines 64-74: the key facial landmarks in pixel coordinates. *)
Definition key_points (image : Image) (landmarks : list NormalizedLandmark) : result KeyPoints :=
  (left_eye <- pixel image landmarks 33 ;;
   right_eye <- pixel image landmarks 263 ;;
   nose_tip <- pixel image landmarks 1 ;;
   nose_left <- pixel image landmarks 234 ;;
   nose_right <- pixel image landmarks 454 ;;
   mouth_left <- pixel image landmarks 61 ;;
   mouth_right <- pixel image landmarks 291 ;;
   chin <- pixel image landmarks 152 ;;
   forehead <- pixel image landmarks 10 ;;
   left_face_edge <- pixel image landmarks 234 ;;
   right_face_edge <- pixel image landmarks 454 ;;
   Ok {| left_eye := left_eye; right_eye := right_eye; nose_tip := nose_tip;
         nose_left := nose_left; nose_right := nose_right;
         mouth_left := mouth_left; mouth_right := mouth_right;
         chin := chin; forehead := forehead;
         left_face_edge := left_face_edge; right_face_edge := right_face_edge |})%result.

(** Lines 77-84: the key distances. *)
Definition key_distances (pow : float -> float -> float) (p : KeyPoints) : result Distances :=
  (eye_distance <- calculate_distance pow (left_eye p) (right_eye p) ;;
   nose_width <- calculate_distance pow (nose_left p) (nose_right p) ;;
   mouth_width <- calculate_distance pow (mouth_left p) (mouth_right p) ;;
   face_width <- calculate_distance pow (left_face_edge p) (right_face_edge p) ;;
   forehead_to_eyes <- calculate_distance pow (forehead p) (left_eye p) ;;
   eyes_to_chin <- calculate_distance pow (left_eye p) (chin p) ;;
   eye_to_nose <- calculate_distance pow (left_eye p) (nose_tip p) ;;
   nose_to_chin <- calculate_distance pow (nose_tip p) (chin p) ;;
   Ok {| eye_distance := eye_distance; nose_width := nose_width;
         mouth_width := mouth_width; face_width := face_width;
         forehead_to_eyes := forehead_to_eyes; eyes_to_chin := eyes_to_chin;
         eye_to_nose := eye_to_nose; nose_to_chin := nose_to_chin |})%result.

(** [num / den if den != 0 else 1.0] *)
Definition ratio (num den : float) : result float :=
  if negb (den =? 0) then Py.truediv num den else Ok 1.0.

(** Lines 92-97: the four ratios. *)
Definition ratios_of (d : Distances) : result (list float) :=
  (r0 <- ratio (face_width d) (eye_distance d) ;;
   r1 <- ratio (forehead_to_eyes d) (eyes_to_chin d) ;;
   r2 <- ratio (nose_width d) (mouth_width d) ;;
   r3 <- ratio (eye_to_nose d) (nose_to_chin d) ;;
   Ok [r0; r1; r2; r3])%result.

(** [min(abs(ratio - GOLDEN_RATIO) / GOLDEN_RATIO, 1.0)] *)
Definition deviation (ratio : float) : result float :=
  (q <- Py.truediv (abs (ratio - GOLDEN_RATIO)) GOLDEN_RATIO ;;
   Ok (Py.min q 1.0))%result.

(** Line 105: the list comprehension over [ratios]. *)
Fixpoint ratio_deviations (ratios : list float) : result (list float) :=
  match ratios with
  | [] => Ok []
  | ratio :: rest =>
      (d <- deviation ratio ;;
       ds <- ratio_deviations rest ;;
       Ok (d :: ds))%result
  end.

(** Lines 105-109: the symmetry score before rounding. *)
Definition symmetry_score (ratios : list float) : result float :=
  (ratio_deviations <- ratio_deviations ratios ;;
   avg_deviation <- Py.truediv (Py.sum ratio_deviations)
                      (Py.float_of_int (Z.of_nat (length ratio_deviations))) ;;
   Ok (Py.max 0.0 (1.0 - avg_deviation * 0.3)))%result.

Section Service.
(** The collaborators outside this file: the C library's [pow], the
    face-mesh model, the image decoder, the formatting of a float with
    two decimals in an f-string, and [str] of an exception. *)
Variable pow : float -> float -> float.
Variable face_mesh_process : Image -> result FaceMeshResults.
Variable image_open : string -> result Image.
Variable format_2f : float -> string.
Variable str : exn -> string.

Definition distances_message (d : Distances) : string :=
  ("Distances: eye_distance=" ++ format_2f (eye_distance d)
   ++ ", nose_width=" ++ format_2f (nose_width d)
   ++ ", mouth_width=" ++ format_2f (mouth_width d)
   ++ ", face_width=" ++ format_2f (face_width d)
   ++ ", forehead_to_eyes=" ++ format_2f (forehead_to_eyes d)
   ++ ", eyes_to_chin=" ++ format_2f (eyes_to_chin d))%string.

Definition ratios_message (ratios : list float) : string :=
  ("Ratios: face_width/eye_distance=" ++ format_2f (nth 0 ratios 0)
   ++ ", forehead_to_eyes/eyes_to_chin=" ++ format_2f (nth 1 ratios 0)
   ++ ", nose_width/mouth_width=" ++ format_2f (nth 2 ratios 0)
   ++ ", eye_to_nose/nose_to_chin=" ++ format_2f (nth 3 ratios 0))%string.

Definition compute_symmetry_score (image : Image) : M float :=
  (results <- lift (face_mesh_process image) ;;
   match multi_face_landmarks results with
   | None | Some [] =>
       raise (HTTPException 400 "No face detected in the image")
   | Some (face :: _) =>
       let landmarks := face in
       points <- lift (key_points image landmarks) ;;
       d <- lift (key_distances pow points) ;;
       logger_info (distances_message d) ;;;
       ratios <- lift (ratios_of d) ;;
       logger_info (ratios_message ratios) ;;;
       symmetry_score <- lift (symmetry_score ratios) ;;
       logger_info ("Symmetry Score: " ++ format_2f symmetry_score) ;;;
       ret (Py.round2 symmetry_score)
   end)%monad.

Record UploadFile : Type := { content_type : option string; contents : string }.

Record Analysis : Type :=
  { symmetry_score_field : float; symmetry_level : string; message : string }.

Definition try_except_Exception {A : Type} (body : M A) (handler : exn -> M A) : M A :=
  fun log =>
    match body log with
    | (Ok a, log') => (Ok a, log')
    | (Raise e, log') => handler e log'
    end.

Definition analyze_image (file : UploadFile) : M Analysis :=
  match content_type file with
  | None => raise (AttributeError "'NoneType' object has no attribute 'startswith'")
  | Some ct =>
      if negb (String.prefix "image/" ct) then
        raise (HTTPException 400 "File must be an image")
      else
        try_except_Exception
          (image <- lift (image_open (contents file)) ;;
           score <- compute_symmetry_score image ;;
           let level := get_symmetry_level score in
           ret {| symmetry_score_field := score;
                  symmetry_level := level;
                  message :=
                    "Your face has a symmetry score of " ++ format_2f score
                    ++ " (closer to 1 is more symmetrical), earning the '" ++ level
                    ++ "' level! This is for fun and does not reflect beauty or worth!" |})%monad
          (fun e => raise (HTTPException 500 ("Error processing image: " ++ str e)))
  end.
End Service.

Local Close Scope float_scope.

(** * Vocabulary of the statements

    [Prim2SF] maps a float to its sign, mantissa and exponent. A finite
    binary64 number [m * 2^e] has [e >= -1074], so [ival], its value
    scaled by [2^1074], is an integer; comparisons and bounds on floats
    are stated on these integers. *)

Definition exact_rec (mrs : shr_record) : Prop := shr_r mrs = false /\ shr_s mrs = false.

Definition vle (m1 e1 m2 e2 : Z) : Prop :=
  m1 * 2 ^ (e1 - Z.min e1 e2) <= m2 * 2 ^ (e2 - Z.min e1 e2).

Definition canon (m : positive) (e : Z) : Prop :=
  canonical_mantissa prec emax m e = true.

Definition round_result (s : bool) (m3 e2 : Z) : spec_float :=
  match m3 with
  | Z0 => S754_zero s
  | Zpos p => if e2 <=? 971 then S754_finite s p e2 else S754_infinity s
  | Zneg _ => S754_nan
  end.

Definition vlt (m1 e1 m2 e2 : Z) : Prop :=
  m1 * 2 ^ (e1 - Z.min e1 e2) < m2 * 2 ^ (e2 - Z.min e1 e2).

Definition repr (z : Z) : Prop :=
  z = 0 \/ exists mb eb, canon mb eb /\ eb <= 971 /\ z = Zpos mb * 2 ^ (eb + 1074).

Definition ival (x : spec_float) : Z :=
  match x with
  | S754_finite s m e => cond_Zopp s (Zpos m * 2 ^ (e + 1074))
  | _ => 0
  end.

Definition sfin (x : spec_float) : bool :=
  match x with
  | S754_zero _ | S754_finite _ _ _ => true
  | _ => false
  end.

Definition snotnan (x : spec_float) : bool :=
  match x with S754_nan => false | _ => true end.

Definition snonneg (x : spec_float) : bool :=
  match x with
  | S754_zero _ | S754_infinity false | S754_finite false _ _ => true
  | _ => false
  end.

Definition fin (x : float) : bool := sfin (Prim2SF x).
Definition fval (x : float) : Z := ival (Prim2SF x).
Definition notnan (x : float) : bool := snotnan (Prim2SF x).
Definition nonneg (x : float) : bool := snonneg (Prim2SF x).


(** What some statements assume of the C library's [pow] at the exponent
    2.0, on the finite positive bases float_pow passes to it. A [pow]
    whose error is below one unit in the last place, the accuracy C
    libraries document, has both properties; no statement assumes that
    [pow] rounds correctly. *)

(** The square is a number and it is not negative. *)
Definition square_not_negative (pow : float -> float -> float) : Prop :=
  forall x, fin x = true -> 0 < fval x -> nonneg (pow x 2%float) = true.

(** The square does not exceed a binary64 number that the exact square
    does not exceed. *)
Definition square_not_above (pow : float -> float -> float) : Prop :=
  forall x hi, fin x = true -> 0 < fval x -> fin hi = true ->
    fval x * fval x <= fval hi * 2 ^ 1074 -> (pow x 2 <=? hi)%float = true.

Definition unit_dev (d : float) : Prop := fin d = true /\ 0 <= fval d <= fval 1.

(** The value line 109 computes from four deviations. *)
Definition score_of_deviations (d0 d1 d2 d3 : float) : float :=
  Py.max 0 (1 - (Py.sum [d0; d1; d2; d3] / 4) * 0.3)%float.

Definition zrange (lo : Z) (len : nat) : list Z :=
  map (fun i => lo + Z.of_nat i) (seq 0 len).

(** Every two-decimal value [n/100] with [0 <= n <= 100] is a number in [0,1]. *)
Definition in_unit_interval (x : float) : bool := ((0 <=? x) && (x <=? 1))%float.

Definition coord_ok (c : float) : bool := (abs c <=? 0x1p500)%float.
Definition point_ok (p : Point) : bool := coord_ok (fst p) && coord_ok (snd p).


Definition key_indices : list nat := [33; 263; 1; 234; 454; 61; 291; 152; 10]%nat.

Definition valid_landmarks (image : Image) (landmarks : list NormalizedLandmark) : bool :=
  forallb (fun i => match pixel image landmarks i with
                    | Ok p => point_ok p
                    | Raise _ => false
                    end) key_indices.

Definition points_ok (p : KeyPoints) : Prop :=
  point_ok (left_eye p) = true /\ point_ok (right_eye p) = true /\
  point_ok (nose_tip p) = true /\ point_ok (nose_left p) = true /\
  point_ok (nose_right p) = true /\ point_ok (mouth_left p) = true /\
  point_ok (mouth_right p) = true /\ point_ok (chin p) = true /\
  point_ok (forehead p) = true /\ point_ok (left_face_edge p) = true /\
  point_ok (right_face_edge p) = true.

Definition distances_ok (d : Distances) : Prop :=
  (fin (eye_distance d) = true /\ 0 <= fval (eye_distance d)) /\
  (fin (nose_width d) = true /\ 0 <= fval (nose_width d)) /\
  (fin (mouth_width d) = true /\ 0 <= fval (mouth_width d)) /\
  (fin (face_width d) = true /\ 0 <= fval (face_width d)) /\
  (fin (forehead_to_eyes d) = true /\ 0 <= fval (forehead_to_eyes d)) /\
  (fin (eyes_to_chin d) = true /\ 0 <= fval (eyes_to_chin d)) /\
  (fin (eye_to_nose d) = true /\ 0 <= fval (eye_to_nose d)) /\
  (fin (nose_to_chin d) = true /\ 0 <= fval (nose_to_chin d)).

Definition has_label (name level : string) : bool := String.prefix name level.

Definition top_three (level : string) : bool :=
  (has_label "Divine Symmetry" level || has_label "Elegant Harmony" level
   || has_label "Refined Balance" level)
  && negb (has_label "Natural Allure" level)
  && negb (has_label "Authentic Beauty" level).

Module Spec.
Local Open Scope float_scope.
End Spec.

(** ** Concrete inputs on which the statements below are evaluated *)

(** A [pow] that rounds the square correctly: one of the functions the
    two assumptions admit, at the one exponent the program uses. *)
Definition sample_pow (x y : float) : float := (x * x)%float.

(** A synthetic 478-point face mesh and a 640x480 image. *)
Definition sample_landmarks : list NormalizedLandmark :=
  map (fun i => {| lm_x := (Py.float_of_int (Z.of_nat ((i * 37) mod 101)) / 101)%float;
                   lm_y := (Py.float_of_int (Z.of_nat ((i * 53) mod 103)) / 103)%float;
                   lm_z := 0%float |}) (seq 0 478).

Definition sample_image : Image := {| width := 640; height := 480; pixels := [] |}.

Definition other_image : Image := {| width := 640; height := 480; pixels := [1; 2; 3] |}.

Definition sample_process (_ : Image) : result FaceMeshResults :=
  Ok {| multi_face_landmarks := Some [sample_landmarks] |}.

Definition other_process (_ : Image) : result FaceMeshResults :=
  Ok {| multi_face_landmarks := Some [sample_landmarks; []] |}.

Definition no_face_process (_ : Image) : result FaceMeshResults :=
  Ok {| multi_face_landmarks := None |}.

Definition sample_open (_ : string) : result Image := Ok sample_image.

Definition sample_format_2f (_ : float) : string := "?"%string.

Definition sample_str (e : exn) : string :=
  match e with
  | HTTPException 400 detail => ("400: " ++ detail)%string
  | HTTPException _ detail => detail
  | ZeroDivisionError msg | OverflowError msg | ValueError msg
  | IndexError msg | AttributeError msg | OtherException msg => msg
  end.

Definition png_upload : UploadFile :=
  {| content_type := Some "image/png"%string; contents := ""%string |}.

Definition text_upload : UploadFile :=
  {| content_type := Some "text/plain"%string; contents := "hello"%string |}.

Definition untyped_upload : UploadFile :=
  {| content_type := None; contents := ""%string |}.

Definition zero_point : Point := (0%float, 0%float).

Definition sample_points : KeyPoints :=
  Eval vm_compute in
    match key_points sample_image sample_landmarks with
    | Ok p => p
    | Raise _ =>
        {| left_eye := zero_point; right_eye := zero_point; nose_tip := zero_point;
           nose_left := zero_point; nose_right := zero_point;
           mouth_left := zero_point; mouth_right := zero_point;
           chin := zero_point; forehead := zero_point;
           left_face_edge := zero_point; right_face_edge := zero_point |}
    end.

Definition sample_distances : Distances :=
  Eval vm_compute in
    match key_distances sample_pow sample_points with
    | Ok d => d
    | Raise _ =>
        {| eye_distance := 0%float; nose_width := 0%float; mouth_width := 0%float;
           face_width := 0%float; forehead_to_eyes := 0%float; eyes_to_chin := 0%float;
           eye_to_nose := 0%float; nose_to_chin := 0%float |}
    end.

(** ** Vocabulary and inputs of the further properties *)

(** Zeros of either sign. *)
Definition szero (x : spec_float) : bool :=
  match x with S754_zero _ => true | _ => false end.

(** The band of a score of [n] hundredths, by integer comparison. *)
Definition level_of_hundredths (n : Z) : string :=
  if 90 <=? n then "Divine Symmetry"
  else if 75 <=? n then "Elegant Harmony"
  else if 60 <=? n then "Refined Balance"
  else if 40 <=? n then "Natural Allure"
  else "Authentic Beauty".

(** What the scoring code reads of a landmark. *)
Definition xy (l : NormalizedLandmark) : float * float := (lm_x l, lm_y l).

Definition same_key_landmarks (l1 l2 : list NormalizedLandmark) : Prop :=
  forall i, In i key_indices ->
    option_map xy (nth_error l1 i) = option_map xy (nth_error l2 i).

(** The levels in ascending order. *)
Definition level_rank (level : string) : Z :=
  if has_label "Divine Symmetry" level then 4
  else if has_label "Elegant Harmony" level then 3
  else if has_label "Refined Balance" level then 2
  else if has_label "Natural Allure" level then 1
  else 0.

(** The rank of the band of [n] hundredths. *)
Definition band_rank (n : Z) : Z :=
  if 90 <=? n then 4 else if 75 <=? n then 3 else if 60 <=? n then 2
  else if 40 <=? n then 1 else 0.

(** The key points of a face whose nine landmarks fall on one pixel. *)
Definition collapsed (q : Point) : KeyPoints :=
  {| left_eye := q; right_eye := q; nose_tip := q; nose_left := q; nose_right := q;
     mouth_left := q; mouth_right := q; chin := q; forehead := q;
     left_face_edge := q; right_face_edge := q |}.

Definition zero_distances : Distances :=
  {| eye_distance := 0%float; nose_width := 0%float; mouth_width := 0%float;
     face_width := 0%float; forehead_to_eyes := 0%float; eyes_to_chin := 0%float;
     eye_to_nose := 0%float; nose_to_chin := 0%float |}.

(** The unrounded score of four ratios that all took the fallback 1.0. *)
Definition fallback_score : float :=
  Eval vm_compute in
    match symmetry_score [1; 1; 1; 1]%float with Ok s => s | Raise _ => 0%float end.

(** A face whose landmarks all fall on the centre of the image. *)
Definition collapsed_landmarks : list NormalizedLandmark :=
  map (fun _ => {| lm_x := 0.5%float; lm_y := 0.5%float; lm_z := 0%float |}) (seq 0 478).

Definition collapsed_process (_ : Image) : result FaceMeshResults :=
  Ok {| multi_face_landmarks := Some [collapsed_landmarks] |}.

(** A mesh that stops before index 454. *)
Definition short_landmarks : list NormalizedLandmark := firstn 454 sample_landmarks.

Definition short_process (_ : Image) : result FaceMeshResults :=
  Ok {| multi_face_landmarks := Some [short_landmarks] |}.

(** The sample mesh without the iris points, with another depth and
    with every landmark the code does not read moved to the origin. *)
Definition padded_landmarks : list NormalizedLandmark :=
  map (fun i =>
         if existsb (Nat.eqb i) key_indices then
           {| lm_x := (Py.float_of_int (Z.of_nat ((i * 37) mod 101)) / 101)%float;
              lm_y := (Py.float_of_int (Z.of_nat ((i * 53) mod 103)) / 103)%float;
              lm_z := 1%float |}
         else {| lm_x := 0%float; lm_y := 0%float; lm_z := 0%float |}) (seq 0 468).

Definition padded_process (_ : Image) : result FaceMeshResults :=
  Ok {| multi_face_landmarks := Some [padded_landmarks] |}.

Definition raising_open (_ : string) : result Image :=
  Raise (OtherException "cannot identify image file").

(** * Rounding to binary64

    The library specifies each operation by an algorithm on mantissas
    ([binary_round_aux]). The lemmas below establish the one property
    all bounds rest on: rounding never crosses a representable number.
    If the exact result of an operation lies between two binary64
    numbers, so does the rounded result. *)

Lemma fexp_unfold e : fexp prec emax e = Z.max (e - 53) (-1074).
Proof. reflexivity. Qed.

Lemma digits2_pos_bounds p :
  2 ^ (Zpos (digits2_pos p) - 1) <= Zpos p < 2 ^ Zpos (digits2_pos p).
Proof.
  induction p as [p IH|p IH|]; cbn [digits2_pos].
  - rewrite Pos2Z.inj_succ, Pos2Z.inj_xI.
    replace (Z.succ (Zpos (digits2_pos p)) - 1) with (Z.succ (Zpos (digits2_pos p) - 1)) by lia.
    rewrite !Z.pow_succ_r by lia.
    revert IH. generalize (2 ^ (Zpos (digits2_pos p) - 1)), (2 ^ Zpos (digits2_pos p)). intros; lia.
  - rewrite Pos2Z.inj_succ, (Pos2Z.inj_xO p).
    replace (Z.succ (Zpos (digits2_pos p)) - 1) with (Z.succ (Zpos (digits2_pos p) - 1)) by lia.
    rewrite !Z.pow_succ_r by lia.
    revert IH. generalize (2 ^ (Zpos (digits2_pos p) - 1)), (2 ^ Zpos (digits2_pos p)). intros; lia.
  - cbn. lia.
Qed.

Lemma Zdigits2_bounds m :
  0 < m -> 1 <= Zdigits2 m /\ 2 ^ (Zdigits2 m - 1) <= m < 2 ^ Zdigits2 m.
Proof.
  destruct m as [|p|p]; try lia. intros _. cbn [Zdigits2].
  split; [lia | apply digits2_pos_bounds].
Qed.

Lemma Zdigits2_nonneg m : 0 <= Zdigits2 m.
Proof. destruct m; cbn; lia. Qed.

Lemma pow2_xO n : 2 ^ Zpos n~0 = 2 ^ Zpos n * 2 ^ Zpos n.
Proof.
  rewrite (Pos2Z.inj_xO n). replace (2 * Zpos n) with (Zpos n + Zpos n) by lia.
  apply Z.pow_add_r; lia.
Qed.

Lemma pow2_xI n : 2 ^ Zpos n~1 = 2 * (2 ^ Zpos n * 2 ^ Zpos n).
Proof.
  rewrite (Pos2Z.inj_xI n). replace (2 * Zpos n + 1) with (Z.succ (Zpos n + Zpos n)) by lia.
  rewrite Z.pow_succ_r, Z.pow_add_r by lia. reflexivity.
Qed.

Lemma pow2_pos e : 0 <= e -> 0 < 2 ^ e.
Proof. intros; apply Z.pow_pos_nonneg; lia. Qed.

Lemma shr_1_m mrs : 0 <= shr_m mrs -> shr_m (shr_1 mrs) = shr_m mrs / 2.
Proof.
  destruct mrs as [m r s]; cbn [shr_m]. intros Hm.
  rewrite <- Z.div2_div.
  destruct m as [|[p|p|]|p]; try reflexivity; lia.
Qed.

Lemma iter_shr_m n : forall mrs, 0 <= shr_m mrs ->
  shr_m (iter_pos shr_1 n mrs) = shr_m mrs / 2 ^ Zpos n.
Proof.
  induction n as [n IH|n IH|]; intros mrs Hm; cbn [iter_pos].
  - assert (H1 : 0 <= shr_m (shr_1 mrs)) by (rewrite shr_1_m by lia; apply Z.div_pos; lia).
    assert (Hp : 0 < 2 ^ Zpos n) by (apply Z.pow_pos_nonneg; lia).
    assert (H2 : 0 <= shr_m (iter_pos shr_1 n (shr_1 mrs))) by (rewrite IH by lia; apply Z.div_pos; lia).
    rewrite IH, IH, shr_1_m by lia.
    rewrite !Z.div_div by lia. f_equal. rewrite pow2_xI. lia.
  - assert (Hp : 0 < 2 ^ Zpos n) by (apply Z.pow_pos_nonneg; lia).
    assert (H2 : 0 <= shr_m (iter_pos shr_1 n mrs)) by (rewrite IH by lia; apply Z.div_pos; lia).
    rewrite IH, IH by lia.
    rewrite !Z.div_div by lia. f_equal. rewrite pow2_xO. lia.
  - rewrite shr_1_m by lia. reflexivity.
Qed.

Lemma shr_1_exact mrs :
  0 <= shr_m mrs -> exact_rec mrs -> (2 | shr_m mrs) -> exact_rec (shr_1 mrs).
Proof.
  destruct mrs as [m r s]; unfold exact_rec; cbn [shr_m shr_r shr_s].
  intros Hm [-> ->] [k Hk].
  destruct m as [|[p|p|]|p]; cbn; try (split; reflexivity); lia.
Qed.

Lemma iter_shr_exact n : forall mrs, 0 <= shr_m mrs -> exact_rec mrs ->
  (2 ^ Zpos n | shr_m mrs) -> exact_rec (iter_pos shr_1 n mrs).
Proof.
  induction n as [n IH|n IH|]; intros mrs Hm Hx [k Hk]; cbn [iter_pos].
  - assert (Hp : 0 < 2 ^ Zpos n) by (apply Z.pow_pos_nonneg; lia).
    rewrite pow2_xI in Hk.
    assert (H1 : shr_m (shr_1 mrs) = k * 2 ^ Zpos n * 2 ^ Zpos n).
    { rewrite shr_1_m by lia. rewrite Hk.
      replace (k * (2 * (2 ^ Zpos n * 2 ^ Zpos n))) with ((k * 2 ^ Zpos n * 2 ^ Zpos n) * 2) by lia.
      apply Z.div_mul. lia. }
    assert (H0 : 0 <= shr_m (shr_1 mrs)) by (rewrite shr_1_m by lia; apply Z.div_pos; lia).
    assert (Hx1 : exact_rec (shr_1 mrs)).
    { apply shr_1_exact; auto. exists (k * (2 ^ Zpos n * 2 ^ Zpos n)). lia. }
    apply IH.
    + rewrite iter_shr_m by lia. apply Z.div_pos; lia.
    + apply IH; auto. rewrite H1. exists (k * 2 ^ Zpos n). lia.
    + rewrite iter_shr_m by lia. rewrite H1, Z.div_mul by lia. exists k. lia.
  - assert (Hp : 0 < 2 ^ Zpos n) by (apply Z.pow_pos_nonneg; lia).
    rewrite pow2_xO in Hk.
    apply IH.
    + rewrite iter_shr_m by lia. apply Z.div_pos; lia.
    + apply IH; auto. exists (k * 2 ^ Zpos n). lia.
    + rewrite iter_shr_m by lia. rewrite Hk.
      replace (k * (2 ^ Zpos n * 2 ^ Zpos n)) with (k * 2 ^ Zpos n * 2 ^ Zpos n) by lia.
      rewrite Z.div_mul by lia. exists k. lia.
  - apply shr_1_exact; auto. exists k. exact Hk.
Qed.

Lemma pow2_split a b : 0 <= a -> 0 <= b -> 2 ^ (a + b) = 2 ^ a * 2 ^ b.
Proof. intros; apply Z.pow_add_r; lia. Qed.

Lemma pow2_le a b : 0 <= a <= b -> 2 ^ a <= 2 ^ b.
Proof. intros; apply Z.pow_le_mono_r; lia. Qed.

Lemma pow2_lt a b : 0 <= a < b -> 2 ^ a < 2 ^ b.
Proof. intros; apply Z.pow_lt_mono_r; lia. Qed.

Lemma vle_scale k m1 e1 m2 e2 : k <= e1 -> k <= e2 ->
  (vle m1 e1 m2 e2 <-> m1 * 2 ^ (e1 - k) <= m2 * 2 ^ (e2 - k)).
Proof.
  intros H1 H2. unfold vle.
  set (mn := Z.min e1 e2).
  assert (Hk : k <= mn) by (unfold mn; lia).
  replace (e1 - k) with ((e1 - mn) + (mn - k)) by lia.
  replace (e2 - k) with ((e2 - mn) + (mn - k)) by lia.
  rewrite !pow2_split by (unfold mn; lia).
  pose proof (pow2_pos (mn - k) ltac:(lia)) as Hp.
  generalize dependent (2 ^ (mn - k)). intros q Hq.
  generalize (2 ^ (e1 - mn)), (2 ^ (e2 - mn)). intros a b.
  rewrite !Z.mul_assoc. split; intros H.
  - apply Z.mul_le_mono_nonneg_r; lia.
  - apply Z.mul_le_mono_pos_r in H; lia.
Qed.

Lemma canon_iff m e :
  canon m e <-> Z.max (Zpos (digits2_pos m) + e - 53) (-1074) = e.
Proof.
  unfold canon, canonical_mantissa. rewrite fexp_unfold. apply Z.eqb_eq.
Qed.

Lemma canon_facts m e : canon m e ->
  -1074 <= e /\ Zpos m < 2 ^ 53 /\ (-1074 < e -> 2 ^ 52 <= Zpos m).
Proof.
  rewrite canon_iff. intros H.
  pose proof (digits2_pos_bounds m) as [Hlo Hhi].
  set (d := Zpos (digits2_pos m)) in *.
  assert (Hd : 1 <= d) by (unfold d; lia).
  split; [lia|]. split.
  - assert (d <= 53) by lia.
    pose proof (pow2_le d 53 ltac:(lia)). lia.
  - intros He. assert (d = 53) by lia.
    replace (d - 1) with 52 in Hlo by lia. exact Hlo.
Qed.

Lemma shr_m_of_loc m l : shr_m (shr_record_of_loc m l) = m.
Proof. destruct l as [|[]]; reflexivity. Qed.

Lemma loc_of_loc m l : loc_of_shr_record (shr_record_of_loc m l) = l.
Proof. destruct l as [|[]]; reflexivity. Qed.

Lemma exact_rec_loc mrs : exact_rec mrs -> loc_of_shr_record mrs = loc_Exact.
Proof. destruct mrs as [m r s]. intros [H1 H2]. cbn in *. subst. reflexivity. Qed.

Lemma shr_fexp_spec m e l : 0 <= m ->
  let r := shr_fexp prec emax m e l in
  let e' := Z.max e (fexp prec emax (Zdigits2 m + e)) in
  snd r = e' /\
  shr_m (fst r) = m / 2 ^ (e' - e) /\
  (l = loc_Exact -> (2 ^ (e' - e) | m) -> loc_of_shr_record (fst r) = loc_Exact).
Proof.
  intros Hm r e'. subst r e'. unfold shr_fexp, shr.
  set (fe := fexp prec emax (Zdigits2 m + e)).
  destruct (fe - e) as [|p|p] eqn:E; cbn [fst snd].
  - replace (Z.max e fe) with e by lia. rewrite Z.sub_diag, Z.div_1_r.
    split; [reflexivity|]. split; [apply shr_m_of_loc|].
    intros -> _. reflexivity.
  - replace (Z.max e fe) with fe by lia. rewrite E.
    split; [lia|]. split.
    + rewrite iter_shr_m; rewrite shr_m_of_loc; [reflexivity|lia].
    + intros -> Hd. apply exact_rec_loc. apply iter_shr_exact.
      * cbn. lia.
      * split; reflexivity.
      * exact Hd.
  - replace (Z.max e fe) with e by lia. rewrite Z.sub_diag, Z.div_1_r.
    split; [reflexivity|]. split; [apply shr_m_of_loc|].
    intros -> _. reflexivity.
Qed.

Lemma round_nearest_even_bounds m l :
  m <= round_nearest_even m l <= m + 1 /\ (l = loc_Exact -> round_nearest_even m l = m).
Proof.
  destruct l as [|[]]; cbn; try destruct (Z.even m); split; try lia; try reflexivity; discriminate.
Qed.

Lemma round_spec s m e l : 0 <= m ->
  exists e1 m1 m2 e2 m3,
    e1 = Z.max e (fexp prec emax (Zdigits2 m + e)) /\
    m1 = m / 2 ^ (e1 - e) /\
    m1 <= m2 <= m1 + 1 /\
    (l = loc_Exact -> (2 ^ (e1 - e) | m) -> m2 = m1) /\
    e2 = Z.max e1 (fexp prec emax (Zdigits2 m2 + e1)) /\
    m3 = m2 / 2 ^ (e2 - e1) /\
    binary_round_aux prec emax s m e l = round_result s m3 e2.
Proof.
  intros Hm.
  pose proof (shr_fexp_spec m e l Hm) as H1. cbv zeta in H1.
  destruct H1 as (He1 & Hm1 & Hx1).
  unfold binary_round_aux.
  destruct (shr_fexp prec emax m e l) as [mrs1 e1]. cbn [fst snd] in *.
  pose proof (round_nearest_even_bounds (shr_m mrs1) (loc_of_shr_record mrs1)) as [Hb Hex].
  set (m2 := round_nearest_even (shr_m mrs1) (loc_of_shr_record mrs1)) in *.
  assert (Hm1' : 0 <= shr_m mrs1).
  { rewrite Hm1. apply Z.div_pos; [lia|]. apply pow2_pos. lia. }
  assert (Hm2 : 0 <= m2) by lia.
  pose proof (shr_fexp_spec m2 e1 loc_Exact Hm2) as H2. cbv zeta in H2.
  destruct H2 as (He2 & Hm3 & _).
  destruct (shr_fexp prec emax m2 e1 loc_Exact) as [mrs2 e2]. cbn [fst snd] in *.
  exists e1, (shr_m mrs1), m2, e2, (shr_m mrs2).
  repeat split; try assumption; try lia.
  - subst e1. exact Hm1.
  - intros Hl Hd. apply Hex. apply Hx1; [assumption|]. subst e1. exact Hd.
  - subst e2. exact Hm3.
Qed.

Lemma vle_mono_r a ea m m' e : vle a ea m e -> m <= m' -> vle a ea m' e.
Proof.
  unfold vle. intros H Hm.
  pose proof (pow2_pos (e - Z.min ea e) ltac:(lia)).
  nia.
Qed.

Lemma vle_mono_l a a' ea m e : vle a ea m e -> a' <= a -> vle a' ea m e.
Proof.
  unfold vle. intros H Hm.
  pose proof (pow2_pos (ea - Z.min ea e) ltac:(lia)).
  nia.
Qed.

Lemma canon_leb m1 e1 m2 e2 : canon m1 e1 -> canon m2 e2 ->
  (SFleb (S754_finite false m1 e1) (S754_finite false m2 e2) = true
   <-> vle (Zpos m1) e1 (Zpos m2) e2).
Proof.
  intros C1 C2.
  destruct (canon_facts _ _ C1) as (L1 & U1 & N1).
  destruct (canon_facts _ _ C2) as (L2 & U2 & N2).
  unfold SFleb, SFcompare. rewrite Pos.compare_cont_spec. cbn [Pos.switch_Eq].
  destruct (Z.compare_spec e1 e2) as [E|E|E].
  - subst e2. rewrite (vle_scale e1) by lia. rewrite Z.sub_diag. cbn [Z.pow].
    rewrite !Z.mul_1_r.
    destruct (Pos.compare_spec m1 m2) as [F|F|F]; split; intros H; try reflexivity; try discriminate; try lia.
  - split; [intros _|reflexivity].
    rewrite (vle_scale e1) by lia. rewrite Z.sub_diag. cbn [Z.pow]. rewrite Z.mul_1_r.
    pose proof (pow2_le 1 (e2 - e1) ltac:(lia)) as Hp. change (2 ^ 1) with 2 in Hp.
    specialize (N2 ltac:(lia)). change (2 ^ 52) with 4503599627370496 in *.
    change (2 ^ 53) with 9007199254740992 in *. nia.
  - split; [discriminate|intros H; exfalso].
    rewrite (vle_scale e2) in H by lia. rewrite Z.sub_diag in H. cbn [Z.pow] in H.
    rewrite Z.mul_1_r in H.
    pose proof (pow2_le 1 (e1 - e2) ltac:(lia)) as Hp. change (2 ^ 1) with 2 in Hp.
    specialize (N1 ltac:(lia)). change (2 ^ 52) with 4503599627370496 in *.
    change (2 ^ 53) with 9007199254740992 in *. nia.
Qed.

Lemma trunc_lower mb eb m e : canon mb eb -> 0 <= m -> vle (Zpos mb) eb m e ->
  let e' := Z.max e (fexp prec emax (Zdigits2 m + e)) in
  vle (Zpos mb) eb (m / 2 ^ (e' - e)) e'.
Proof.
  intros C Hm H e'. subst e'. rewrite fexp_unfold.
  destruct (canon_facts _ _ C) as (L & U & N).
  set (d := Zdigits2 m).
  set (fe := Z.max (d + e - 53) (-1074)).
  destruct (Z.le_gt_cases fe e) as [Hfe|Hfe].
  - replace (Z.max e fe) with e by lia. rewrite Z.sub_diag, Z.div_1_r. exact H.
  - replace (Z.max e fe) with fe by lia.
    pose proof (pow2_pos (fe - e) ltac:(lia)) as HP.
    destruct (Z.le_gt_cases fe eb) as [Hb|Hb].
    + rewrite (vle_scale e) in H by lia. rewrite Z.sub_diag in H. cbn [Z.pow] in H.
      rewrite Z.mul_1_r in H.
      rewrite (vle_scale fe) by lia. rewrite Z.sub_diag. cbn [Z.pow]. rewrite Z.mul_1_r.
      replace (eb - e) with ((eb - fe) + (fe - e)) in H by lia.
      rewrite pow2_split in H by lia.
      apply Z.div_le_lower_bound; [lia|]. lia.
    + assert (Hd : fe = d + e - 53) by lia.
      assert (Hm0 : 0 < m).
      { destruct (Z.eq_dec m 0) as [->|]; [|lia]. unfold d in Hd. cbn in Hd. lia. }
      destruct (Zdigits2_bounds m Hm0) as (D1 & D2 & D3). fold d in D1, D2, D3.
      assert (Hq : 2 ^ 52 <= m / 2 ^ (fe - e)).
      { apply Z.div_le_lower_bound; [lia|].
        rewrite <- pow2_split by lia. replace (fe - e + 52) with (d - 1) by lia. exact D2. }
      rewrite (vle_scale eb) by lia. rewrite Z.sub_diag. cbn [Z.pow]. rewrite Z.mul_1_r.
      pose proof (pow2_le 1 (fe - eb) ltac:(lia)) as Hp. change (2 ^ 1) with 2 in Hp.
      change (2 ^ 52) with 4503599627370496 in *.
      change (2 ^ 53) with 9007199254740992 in *. nia.
Qed.

Lemma trunc_upper mb eb m e e' : 0 <= m -> e <= e' -> vle m e (Zpos mb) eb ->
  vle (m / 2 ^ (e' - e)) e' (Zpos mb) eb.
Proof.
  intros Hm He H.
  set (k := Z.min e eb).
  rewrite (vle_scale k) in H |- * by (unfold k; lia).
  replace (e' - k) with ((e' - e) + (e - k)) by lia.
  rewrite pow2_split by (unfold k; lia).
  pose proof (pow2_pos (e' - e) ltac:(lia)) as HP.
  pose proof (pow2_pos (e - k) ltac:(unfold k; lia)) as HQ.
  pose proof (Z.mul_div_le m (2 ^ (e' - e)) HP).
  nia.
Qed.

Lemma round_lower s m e l mb eb :
  0 <= m -> canon mb eb -> vle (Zpos mb) eb m e ->
  valid_binary (binary_round_aux prec emax s m e l) = true ->
  binary_round_aux prec emax s m e l = S754_infinity s \/
  exists mr er, binary_round_aux prec emax s m e l = S754_finite s mr er /\
                canon mr er /\ er <= 971 /\ vle (Zpos mb) eb (Zpos mr) er.
Proof.
  intros Hm C H.
  destruct (round_spec s m e l Hm) as (e1 & m1 & m2 & e2 & m3 & He1 & Hm1 & Hm2 & Hex & He2 & Hm3 & HR).
  rewrite HR. clear HR.
  assert (H1 : vle (Zpos mb) eb m1 e1).
  { subst m1 e1. apply trunc_lower; assumption. }
  assert (Hm1' : 0 <= m1).
  { subst m1. apply Z.div_pos; [lia|]. apply pow2_pos. lia. }
  assert (H2 : vle (Zpos mb) eb m2 e1) by (eapply vle_mono_r; [exact H1|lia]).
  assert (H3 : vle (Zpos mb) eb m3 e2).
  { subst m3 e2. apply trunc_lower; [assumption|lia|assumption]. }
  assert (Hm3' : 0 < m3).
  { unfold vle in H3.
    pose proof (pow2_pos (eb - Z.min eb e2) ltac:(lia)).
    pose proof (pow2_pos (e2 - Z.min eb e2) ltac:(lia)). nia. }
  destruct m3 as [|p|p]; try lia. cbn [round_result].
  destruct (e2 <=? 971) eqn:E; [|left; reflexivity].
  intros V. right. exists p, e2. cbn in V. unfold bounded in V.
  apply andb_prop in V. destruct V as [V1 V2].
  split; [reflexivity|]. split; [exact V1|]. split; [lia|exact H3].
Qed.

Lemma vlt_scale k m1 e1 m2 e2 : k <= e1 -> k <= e2 ->
  (vlt m1 e1 m2 e2 <-> m1 * 2 ^ (e1 - k) < m2 * 2 ^ (e2 - k)).
Proof.
  intros H1 H2. unfold vlt.
  set (mn := Z.min e1 e2).
  assert (Hk : k <= mn) by (unfold mn; lia).
  replace (e1 - k) with ((e1 - mn) + (mn - k)) by lia.
  replace (e2 - k) with ((e2 - mn) + (mn - k)) by lia.
  rewrite !pow2_split by (unfold mn; lia).
  pose proof (pow2_pos (mn - k) ltac:(lia)) as Hp.
  generalize dependent (2 ^ (mn - k)). intros q Hq.
  generalize (2 ^ (e1 - mn)), (2 ^ (e2 - mn)). intros a b.
  rewrite !Z.mul_assoc. split; intros H.
  - apply Z.mul_lt_mono_pos_r; lia.
  - apply Z.mul_lt_mono_pos_r in H; lia.
Qed.

Lemma round_step_upper m e l m1 m2 mb eb :
  0 <= m -> canon mb eb ->
  let e1 := fexp prec emax (Zdigits2 m + e) in
  e <= e1 ->
  m1 = m / 2 ^ (e1 - e) ->
  m1 <= m2 <= m1 + 1 ->
  (l = loc_Exact -> (2 ^ (e1 - e) | m) -> m2 = m1) ->
  (l = loc_Exact /\ vle m e (Zpos mb) eb) \/ vlt m e (Zpos mb) eb ->
  vle m2 e1 (Zpos mb) eb.
Proof.
  intros Hm C e1 He Hm1 Hm2 Hex H.
  destruct (canon_facts _ _ C) as (L & U & N).
  pose proof (pow2_pos (e1 - e) ltac:(lia)) as HP.
  pose proof (Z.div_mod m (2 ^ (e1 - e)) ltac:(lia)) as Hdm.
  pose proof (Z.mod_pos_bound m (2 ^ (e1 - e)) HP) as Hmod.
  rewrite <- Hm1 in Hdm.
  destruct (Z.le_gt_cases e1 eb) as [Hb|Hb].
  - rewrite (vle_scale e1) by lia. rewrite Z.sub_diag. cbn [Z.pow]. rewrite Z.mul_1_r.
    rewrite (vle_scale e), (vlt_scale e) in H by lia. rewrite Z.sub_diag in H. cbn [Z.pow] in H.
    rewrite !Z.mul_1_r in H.
    replace (eb - e) with ((eb - e1) + (e1 - e)) in H by lia.
    rewrite pow2_split in H by lia.
    pose proof (pow2_pos (eb - e1) ltac:(lia)) as HK.
    set (K := Zpos mb * 2 ^ (eb - e1)) in *.
    rewrite Z.mul_assoc in H. fold K in H.
    remember (2 ^ (e1 - e)) as P eqn:EP. clear EP.
    destruct H as [[Hl H]|H].
    + destruct (Z.eq_dec (m mod P) 0) as [Hz|Hz].
      * assert (m2 = m1).
        { apply Hex; [assumption|]. exists m1. lia. }
        nia.
      * nia.
    + nia.
  - exfalso.
    assert (Hd : e1 = Zdigits2 m + e - 53) by (unfold e1 in *; rewrite fexp_unfold in *; lia).
    assert (Hm0 : 0 < m).
    { destruct (Z.eq_dec m 0) as [->|]; [|lia]. cbn in Hd. lia. }
    destruct (Zdigits2_bounds m Hm0) as (D1 & D2 & D3).
    set (k := Z.min e eb).
    assert (H' : m * 2 ^ (e - k) <= Zpos mb * 2 ^ (eb - k)).
    { destruct H as [[_ H]|H].
      - rewrite (vle_scale k) in H by (unfold k; lia). exact H.
      - rewrite (vlt_scale k) in H by (unfold k; lia). lia. }
    assert (E1 : 2 ^ (Zdigits2 m - 1) * 2 ^ (e - k) = 2 ^ 53 * 2 ^ (e1 - eb - 1) * 2 ^ (eb - k)).
    { rewrite <- !pow2_split by (unfold k; lia). f_equal. lia. }
    pose proof (pow2_pos (e - k) ltac:(unfold k; lia)) as HQ.
    pose proof (pow2_pos (eb - k) ltac:(unfold k; lia)) as HR.
    pose proof (pow2_pos (e1 - eb - 1) ltac:(lia)) as HS.
    assert (2 ^ (Zdigits2 m - 1) * 2 ^ (e - k) <= m * 2 ^ (e - k)) by nia.
    assert (Zpos mb * 2 ^ (eb - k) < 2 ^ 53 * 2 ^ (e1 - eb - 1) * 2 ^ (eb - k)) by nia.
    lia.
Qed.

Lemma round_upper s m e l mb eb :
  0 <= m -> canon mb eb -> eb <= 971 ->
  e <= fexp prec emax (Zdigits2 m + e) ->
  (l = loc_Exact /\ vle m e (Zpos mb) eb) \/ vlt m e (Zpos mb) eb ->
  valid_binary (binary_round_aux prec emax s m e l) = true ->
  binary_round_aux prec emax s m e l = S754_zero s \/
  exists mr er, binary_round_aux prec emax s m e l = S754_finite s mr er /\
                canon mr er /\ er <= 971 /\ vle (Zpos mr) er (Zpos mb) eb.
Proof.
  intros Hm C Hb He H.
  destruct (canon_facts _ _ C) as (L & U & N).
  destruct (round_spec s m e l Hm) as (e1 & m1 & m2 & e2 & m3 & He1 & Hm1 & Hm2 & Hex & He2 & Hm3 & HR).
  rewrite HR. clear HR.
  assert (Ee1 : e1 = fexp prec emax (Zdigits2 m + e)) by lia.
  assert (Hm1' : 0 <= m1).
  { subst m1. apply Z.div_pos; [lia|]. apply pow2_pos. lia. }
  assert (H2 : vle m2 e1 (Zpos mb) eb).
  { rewrite Ee1. eapply (round_step_upper m e l m1 m2); eauto; rewrite <- Ee1; assumption. }
  assert (H3 : vle m3 e2 (Zpos mb) eb).
  { subst m3. apply trunc_upper; [lia|lia|assumption]. }
  destruct m3 as [|p|p]; cbn [round_result]; [left; reflexivity| |].
  - assert (Hov : e2 <= 971).
    { destruct (Z.le_gt_cases e2 971) as [|Hgt]; [assumption|exfalso].
      assert (Hbig : 2 ^ 52 <= Zpos p).
      { rewrite fexp_unfold in He2.
        destruct (Z.le_gt_cases (Z.max (Zdigits2 m2 + e1 - 53) (-1074)) e1) as [Hc|Hc].
        - replace e2 with e1 in * by lia. rewrite Z.sub_diag, Z.div_1_r in Hm3.
          rewrite fexp_unfold in Ee1.
          assert (Hd : e1 = Zdigits2 m + e - 53) by lia.
          assert (Hm0 : 0 < m).
          { destruct (Z.eq_dec m 0) as [->|]; [|lia]. cbn in Hd. lia. }
          destruct (Zdigits2_bounds m Hm0) as (D1 & D2 & D3).
          assert (2 ^ 52 <= m1).
          { subst m1. apply Z.div_le_lower_bound; [apply pow2_pos; lia|].
            rewrite <- pow2_split by lia. replace (e1 - e + 52) with (Zdigits2 m - 1) by lia.
            exact D2. }
          lia.
        - assert (Hd : e2 = Zdigits2 m2 + e1 - 53) by lia.
          assert (Hm0 : 0 < m2).
          { destruct (Z.eq_dec m2 0) as [E0|]; [|lia]. rewrite E0 in Hd. cbn in Hd. lia. }
          destruct (Zdigits2_bounds m2 Hm0) as (D1 & D2 & D3).
          rewrite Hm3. apply Z.div_le_lower_bound; [apply pow2_pos; lia|].
          rewrite <- pow2_split by lia. replace (e2 - e1 + 52) with (Zdigits2 m2 - 1) by lia.
          exact D2. }
      rewrite (vle_scale eb) in H3 by lia. rewrite Z.sub_diag in H3. cbn [Z.pow] in H3.
      rewrite Z.mul_1_r in H3.
      pose proof (pow2_le 1 (e2 - eb) ltac:(lia)) as Hp. change (2 ^ 1) with 2 in Hp.
      change (2 ^ 52) with 4503599627370496 in *.
      change (2 ^ 53) with 9007199254740992 in *. nia. }
    replace (e2 <=? 971) with true by (symmetry; apply Z.leb_le; exact Hov).
    intros V. right. exists p, e2. cbn in V. unfold bounded in V.
    apply andb_prop in V. destruct V as [V1 V2].
    split; [reflexivity|]. split; [exact V1|]. split; [lia|exact H3].
  - exfalso. assert (0 <= m2 / 2 ^ (e2 - e1)).
    { apply Z.div_pos; [lia|]. apply pow2_pos. lia. }
    lia.
Qed.

Lemma repr_nonneg z : repr z -> 0 <= z.
Proof.
  intros [->|(mb & eb & C & _ & ->)]; [lia|].
  destruct (canon_facts _ _ C) as (L & _).
  pose proof (pow2_pos (eb + 1074) ltac:(lia)). nia.
Qed.

Lemma round_zero s e : binary_round_aux prec emax s 0 e loc_Exact = S754_zero s.
Proof.
  destruct (round_spec s 0 e loc_Exact ltac:(lia)) as (e1 & m1 & m2 & e2 & m3 & He1 & Hm1 & Hm2 & Hex & He2 & Hm3 & HR).
  rewrite HR. rewrite Z.div_0_l in Hm1 by (apply Z.pow_nonzero; lia).
  assert (m2 = m1) by (apply Hex; [reflexivity|apply Z.divide_0_r]).
  subst m2 m1. rewrite Z.div_0_l in Hm3 by (apply Z.pow_nonzero; lia).
  subst m3. reflexivity.
Qed.

Lemma vle_ival m1 e1 m2 e2 : -1074 <= e1 -> -1074 <= e2 ->
  (vle m1 e1 m2 e2 <-> m1 * 2 ^ (e1 + 1074) <= m2 * 2 ^ (e2 + 1074)).
Proof.
  intros. rewrite (vle_scale (-1074)) by lia.
  replace (e1 - -1074) with (e1 + 1074) by lia.
  replace (e2 - -1074) with (e2 + 1074) by lia. reflexivity.
Qed.

Lemma round_mag_bounds s m e l c k V zlo zhi :
  0 <= m -> 0 < c -> k <= e -> k <= -1074 ->
  e <= fexp prec emax (Zdigits2 m + e) ->
  c * m * 2 ^ (e - k) <= V < c * (m + 1) * 2 ^ (e - k) ->
  (l = loc_Exact -> V = c * m * 2 ^ (e - k)) ->
  (l <> loc_Exact -> c * m * 2 ^ (e - k) < V) ->
  repr zlo -> repr zhi ->
  c * zlo * 2 ^ (-1074 - k) <= V <= c * zhi * 2 ^ (-1074 - k) ->
  valid_binary (binary_round_aux prec emax s m e l) = true ->
  (binary_round_aux prec emax s m e l = S754_zero s /\ zlo = 0) \/
  exists mr er, binary_round_aux prec emax s m e l = S754_finite s mr er /\
     canon mr er /\ er <= 971 /\ zlo <= Zpos mr * 2 ^ (er + 1074) <= zhi.
Proof.
  intros Hm Hc Hke Hk Hfe HV Hex Hnex Rlo Rhi Hb Hvalid.
  pose proof (pow2_pos (e - k) ltac:(lia)) as HP.
  pose proof (pow2_pos (-1074 - k) ltac:(lia)) as HQ.
  pose proof (repr_nonneg _ Rlo) as Hlo0.
  assert (Hl : l = loc_Exact \/ l <> loc_Exact).
  { destruct l; [left; reflexivity|right; discriminate]. }
  (* upper side *)
  assert (Hup : (binary_round_aux prec emax s m e l = S754_zero s) \/
     exists mr er, binary_round_aux prec emax s m e l = S754_finite s mr er /\
       canon mr er /\ er <= 971 /\ Zpos mr * 2 ^ (er + 1074) <= zhi).
  { destruct Rhi as [->|(mb & eb & C & Eb & ->)].
    - assert (V = 0) by nia. subst V.
      assert (m = 0) by nia. subst m.
      destruct Hl as [->|Hl]; [|specialize (Hnex Hl); lia].
      left. apply round_zero.
    - destruct (canon_facts _ _ C) as (L & U & N).
      assert (E : Zpos mb * 2 ^ (eb + 1074) * 2 ^ (-1074 - k) = Zpos mb * 2 ^ (eb - k)).
      { rewrite <- Z.mul_assoc, <- pow2_split by lia. do 2 f_equal. lia. }
      assert (Hb2 : V <= c * (Zpos mb * 2 ^ (eb - k))).
      { rewrite <- E. lia. }
      assert (HH : (l = loc_Exact /\ vle m e (Zpos mb) eb) \/ vlt m e (Zpos mb) eb).
      { destruct Hl as [Hl|Hl].
        - left. split; [assumption|]. rewrite (vle_scale k) by lia.
          rewrite (Hex Hl) in Hb2. nia.
        - right. rewrite (vlt_scale k) by lia. specialize (Hnex Hl). nia. }
      destruct (round_upper s m e l mb eb Hm C Eb Hfe HH Hvalid) as [Hz|(mr & er & HR & Cr & Er & Hv)].
      + left; assumption.
      + right. exists mr, er. repeat split; try assumption.
        destruct (canon_facts _ _ Cr) as (Lr & _).
        apply vle_ival in Hv; lia. }
  destruct Rlo as [->|(mb & eb & C & Eb & ->)].
  - destruct Hup as [Hz|(mr & er & HR & Cr & Er & Hv)].
    + left. split; [assumption|reflexivity].
    + right. exists mr, er. repeat split; try assumption.
      destruct (canon_facts _ _ Cr) as (Lr & _).
      pose proof (pow2_pos (er + 1074) ltac:(lia)). nia.
  - destruct (canon_facts _ _ C) as (L & U & N).
    assert (E : Zpos mb * 2 ^ (eb + 1074) * 2 ^ (-1074 - k) = Zpos mb * 2 ^ (eb - k)).
    { rewrite <- Z.mul_assoc, <- pow2_split by lia. do 2 f_equal. lia. }
    assert (Hb2 : c * (Zpos mb * 2 ^ (eb - k)) <= V).
    { rewrite <- E. lia. }
    assert (Hv0 : vle (Zpos mb) eb m e).
    { destruct (Z.le_gt_cases e eb) as [Hc1|Hc1].
      - rewrite (vle_scale e) by lia. rewrite Z.sub_diag. cbn [Z.pow]. rewrite Z.mul_1_r.
        replace (eb - k) with ((eb - e) + (e - k)) in Hb2 by lia.
        rewrite pow2_split in Hb2 by lia.
        pose proof (pow2_pos (eb - e) ltac:(lia)).
        nia.
      - rewrite fexp_unfold in Hfe.
        assert (Hm0 : 0 < m).
        { destruct (Z.eq_dec m 0) as [->|]; [|lia]. cbn in Hfe. lia. }
        destruct (Zdigits2_bounds m Hm0) as (D1 & D2 & D3).
        assert (53 <= Zdigits2 m) by lia.
        pose proof (pow2_le 52 (Zdigits2 m - 1) ltac:(lia)).
        rewrite (vle_scale eb) by lia. rewrite Z.sub_diag. cbn [Z.pow]. rewrite Z.mul_1_r.
        pose proof (pow2_le 1 (e - eb) ltac:(lia)) as Hp. change (2 ^ 1) with 2 in Hp.
        change (2 ^ 52) with 4503599627370496 in *.
        change (2 ^ 53) with 9007199254740992 in *. nia. }
    destruct (round_lower s m e l mb eb Hm C Hv0 Hvalid) as [Hinf|(mr & er & HR & Cr & Er & Hv)].
    + exfalso. destruct Hup as [Hz|(mr & er & HR & _)]; congruence.
    + right. exists mr, er.
      destruct Hup as [Hz|(mr' & er' & HR' & Cr' & Er' & Hv')]; [congruence|].
      rewrite HR in HR'. injection HR' as <- <-.
      repeat split; try assumption.
      destruct (canon_facts _ _ Cr) as (Lr & _).
      apply vle_ival in Hv; lia.
Qed.

Lemma valid_finite s m e : valid_binary (S754_finite s m e) = true ->
  canon m e /\ e <= 971 /\ -1074 <= e /\ 0 < Zpos m * 2 ^ (e + 1074).
Proof.
  intros V. cbn [valid_binary] in V. unfold bounded in V.
  apply andb_prop in V. destruct V as [V1 V2].
  destruct (canon_facts m e V1) as (L & _).
  apply Z.leb_le in V2. change (emax - prec) with 971 in V2.
  pose proof (pow2_pos (e + 1074) ltac:(lia)).
  repeat split; [exact V1|lia|lia|apply Z.mul_pos_pos; lia].
Qed.

Lemma repr_ival x : valid_binary x = true -> sfin x = true -> 0 <= ival x -> repr (ival x).
Proof.
  destruct x as [s|s| |s m e]; cbn [sfin ival]; try discriminate; intros V _ H;
    try (left; reflexivity).
  destruct (valid_finite _ _ _ V) as (C & E & L & P).
  destruct s; cbn [cond_Zopp] in *; [lia|].
  right. exists m, e. auto.
Qed.

Lemma repr_ival_opp x : valid_binary x = true -> sfin x = true -> ival x <= 0 -> repr (- ival x).
Proof.
  destruct x as [s|s| |s m e]; cbn [sfin ival]; try discriminate; intros V _ H;
    try (left; reflexivity).
  destruct (valid_finite _ _ _ V) as (C & E & L & P).
  destruct s; cbn [cond_Zopp] in *; [|lia].
  right. exists m, e. rewrite Z.opp_involutive. auto.
Qed.

Lemma repr_max0 x : valid_binary x = true -> sfin x = true -> repr (Z.max 0 (ival x)).
Proof.
  intros V F. destruct (Z.le_gt_cases (ival x) 0).
  - replace (Z.max 0 (ival x)) with 0 by lia. left; reflexivity.
  - replace (Z.max 0 (ival x)) with (ival x) by lia. apply repr_ival; auto; lia.
Qed.

Lemma repr_max0_opp x : valid_binary x = true -> sfin x = true -> repr (Z.max 0 (- ival x)).
Proof.
  intros V F. destruct (Z.le_gt_cases 0 (ival x)).
  - replace (Z.max 0 (- ival x)) with 0 by lia. left; reflexivity.
  - replace (Z.max 0 (- ival x)) with (- ival x) by lia. apply repr_ival_opp; auto; lia.
Qed.

Lemma round_signed_bounds s m e l c k V lo hi :
  0 <= m -> 0 < c -> k <= e -> k <= -1074 ->
  e <= fexp prec emax (Zdigits2 m + e) ->
  c * m * 2 ^ (e - k) <= V < c * (m + 1) * 2 ^ (e - k) ->
  (l = loc_Exact -> V = c * m * 2 ^ (e - k)) ->
  (l <> loc_Exact -> c * m * 2 ^ (e - k) < V) ->
  valid_binary lo = true -> sfin lo = true ->
  valid_binary hi = true -> sfin hi = true ->
  c * ival lo * 2 ^ (-1074 - k) <= cond_Zopp s V <= c * ival hi * 2 ^ (-1074 - k) ->
  valid_binary (binary_round_aux prec emax s m e l) = true ->
  sfin (binary_round_aux prec emax s m e l) = true /\
  ival lo <= ival (binary_round_aux prec emax s m e l) <= ival hi.
Proof.
  intros Hm Hc Hke Hk Hfe HV Hex Hnex Vlo Flo Vhi Fhi Hb Hvalid.
  pose proof (pow2_pos (e - k) ltac:(lia)) as HP.
  pose proof (pow2_pos (-1074 - k) ltac:(lia)) as HQ.
  assert (HV0 : 0 <= V) by nia.
  assert (Hcq : 0 < c * 2 ^ (-1074 - k)) by (apply Z.mul_pos_pos; lia).
  assert (Emax : forall z, c * Z.max 0 z * 2 ^ (-1074 - k) = Z.max 0 (z * (c * 2 ^ (-1074 - k)))).
  { intros z. destruct (Z.le_gt_cases z 0).
    - assert (z * (c * 2 ^ (-1074 - k)) <= 0) by (apply Z.mul_nonpos_nonneg; lia).
      replace (Z.max 0 z) with 0 by lia. lia.
    - assert (0 <= z * (c * 2 ^ (-1074 - k))) by (apply Z.mul_nonneg_nonneg; lia).
      replace (Z.max 0 z) with z by lia. lia. }
  replace (c * ival lo * 2 ^ (-1074 - k)) with (ival lo * (c * 2 ^ (-1074 - k))) in Hb by lia.
  replace (c * ival hi * 2 ^ (-1074 - k)) with (ival hi * (c * 2 ^ (-1074 - k))) in Hb by lia.
  destruct s; cbn [cond_Zopp] in Hb.
  - assert (Hlo : ival lo <= 0) by nia.
    destruct (round_mag_bounds true m e l c k V (Z.max 0 (- ival hi)) (- ival lo))
      as [[HR Hz]|(mr & er & HR & Cr & Er & Hbd)]; auto.
    + apply repr_max0_opp; auto.
    + apply repr_ival_opp; auto.
    + rewrite Emax. replace (c * - ival lo * 2 ^ (-1074 - k)) with (- (ival lo * (c * 2 ^ (-1074 - k)))) by lia.
      lia.
    + rewrite HR. cbn [sfin ival cond_Zopp]. split; [reflexivity|lia].
    + rewrite HR. cbn [sfin ival cond_Zopp]. split; [reflexivity|lia].
  - assert (Hhi : 0 <= ival hi) by nia.
    destruct (round_mag_bounds false m e l c k V (Z.max 0 (ival lo)) (ival hi))
      as [[HR Hz]|(mr & er & HR & Cr & Er & Hbd)]; auto.
    + apply repr_max0; auto.
    + apply repr_ival; auto.
    + rewrite Emax. replace (c * ival hi * 2 ^ (-1074 - k)) with (ival hi * (c * 2 ^ (-1074 - k))) by lia.
      lia.
    + rewrite HR. cbn [sfin ival cond_Zopp]. split; [reflexivity|lia].
    + rewrite HR. cbn [sfin ival cond_Zopp]. split; [reflexivity|lia].
Qed.

Lemma round_shape s m e l : 0 <= m ->
  match binary_round_aux prec emax s m e l with
  | S754_zero s' | S754_infinity s' | S754_finite s' _ _ => s' = s
  | S754_nan => False
  end.
Proof.
  intros Hm.
  destruct (round_spec s m e l Hm) as (e1 & m1 & m2 & e2 & m3 & He1 & Hm1 & Hm2 & Hex & He2 & Hm3 & HR).
  rewrite HR.
  assert (0 <= m1) by (subst m1; apply Z.div_pos; [lia|apply pow2_pos; lia]).
  assert (0 <= m3) by (subst m3; apply Z.div_pos; [lia|apply pow2_pos; lia]).
  destruct m3 as [|p|p]; cbn; try reflexivity; try lia.
  destruct (e2 <=? 971); reflexivity.
Qed.

Lemma Pos_iter_xO m d : Zpos (Pos.iter xO m d) = Zpos m * 2 ^ Zpos d.
Proof.
  induction d as [|d IH] using Pos.peano_ind.
  - cbn. lia.
  - rewrite Pos.iter_succ, Pos2Z.inj_succ, Z.pow_succ_r by lia.
    rewrite (Pos2Z.inj_xO (Pos.iter xO m d)), IH. lia.
Qed.

Lemma shl_align_spec mx ex ex' :
  snd (shl_align mx ex ex') = Z.min ex ex' /\
  Zpos (fst (shl_align mx ex ex')) = Zpos mx * 2 ^ (ex - Z.min ex ex').
Proof.
  unfold shl_align. destruct (ex' - ex) as [|d|d] eqn:E; cbn [fst snd].
  - replace (Z.min ex ex') with ex by lia. rewrite Z.sub_diag. cbn [Z.pow]. lia.
  - replace (Z.min ex ex') with ex by lia. rewrite Z.sub_diag. cbn [Z.pow]. lia.
  - replace (Z.min ex ex') with ex' by lia. split; [reflexivity|].
    rewrite Pos_iter_xO. do 2 f_equal. lia.
Qed.

Lemma digits_ge m j : 0 <= j -> 2 ^ j <= m -> j + 1 <= Zdigits2 m.
Proof.
  intros Hj H.
  assert (Hm : 0 < m) by (pose proof (pow2_pos j Hj); lia).
  destruct (Zdigits2_bounds m Hm) as (D1 & D2 & D3).
  destruct (Z.le_gt_cases (j + 1) (Zdigits2 m)) as [|Hc]; [assumption|exfalso].
  pose proof (pow2_le (Zdigits2 m) j ltac:(lia)). lia.
Qed.

Lemma fexp_mono a b : a <= b -> fexp prec emax a <= fexp prec emax b.
Proof. rewrite !fexp_unfold. lia. Qed.

Lemma fexp_ge e : -1074 <= fexp prec emax e.
Proof. rewrite fexp_unfold. lia. Qed.

Lemma binary_round_bounds s p ez lo hi :
  -1074 <= ez ->
  valid_binary lo = true -> sfin lo = true ->
  valid_binary hi = true -> sfin hi = true ->
  ival lo <= cond_Zopp s (Zpos p * 2 ^ (ez + 1074)) <= ival hi ->
  valid_binary (binary_round prec emax s p ez) = true ->
  sfin (binary_round prec emax s p ez) = true /\
  ival lo <= ival (binary_round prec emax s p ez) <= ival hi.
Proof.
  intros Hez Vlo Flo Vhi Fhi Hb. unfold binary_round.
  set (fe0 := fexp prec emax (Zpos (digits2_pos p) + ez)).
  destruct (shl_align_spec p ez fe0) as [Hs Hf].
  destruct (shl_align p ez fe0) as [mz e']. cbn [fst snd] in Hs, Hf.
  pose proof (fexp_ge (Zpos (digits2_pos p) + ez)) as Hfe0. fold fe0 in Hfe0.
  assert (He' : -1074 <= e' <= ez) by lia.
  pose proof (pow2_pos (ez - e') ltac:(lia)) as HP.
  assert (EV : Zpos mz * 2 ^ (e' + 1074) = Zpos p * 2 ^ (ez + 1074)).
  { rewrite Hf, <- Hs. rewrite <- Z.mul_assoc, <- pow2_split by lia. do 2 f_equal. lia. }
  intros Hvalid.
  apply (round_signed_bounds s (Zpos mz) e' loc_Exact 1 (-1074) (Zpos mz * 2 ^ (e' + 1074)));
    auto; try lia.
  - apply Z.le_trans with fe0; [lia|]. apply fexp_mono.
    pose proof (digits2_pos_bounds p) as [D1 D2].
    assert (Hge : (Zpos (digits2_pos p) - 1 + (ez - e')) + 1 <= Zdigits2 (Zpos mz)).
    { apply digits_ge; [lia|]. rewrite pow2_split by lia. rewrite Hf, <- Hs.
      apply Z.mul_le_mono_nonneg_r; lia. }
    lia.
  - replace (e' - -1074) with (e' + 1074) by lia.
    pose proof (pow2_pos (e' + 1074) ltac:(lia)) as HQ.
    rewrite !Z.mul_1_l. split; [lia|apply Z.mul_lt_mono_pos_r; lia].
  - intros H; exfalso; apply H; reflexivity.
  - replace (-1074 - -1074) with 0 by lia. cbn [Z.pow]. rewrite EV. lia.
Qed.

Lemma binary_normalize_bounds S ez sz lo hi :
  -1074 <= ez ->
  valid_binary lo = true -> sfin lo = true ->
  valid_binary hi = true -> sfin hi = true ->
  ival lo <= S * 2 ^ (ez + 1074) <= ival hi ->
  valid_binary (binary_normalize prec emax S ez sz) = true ->
  sfin (binary_normalize prec emax S ez sz) = true /\
  ival lo <= ival (binary_normalize prec emax S ez sz) <= ival hi.
Proof.
  intros Hez Vlo Flo Vhi Fhi Hb.
  destruct S as [|p|p]; cbn [binary_normalize].
  - intros _. cbn [sfin ival]. split; [reflexivity|lia].
  - apply binary_round_bounds; auto.
  - apply binary_round_bounds; auto. cbn [cond_Zopp]. lia.
Qed.

Lemma SFadd_bounds x y lo hi :
  valid_binary x = true -> sfin x = true ->
  valid_binary y = true -> sfin y = true ->
  valid_binary lo = true -> sfin lo = true ->
  valid_binary hi = true -> sfin hi = true ->
  ival lo <= ival x + ival y <= ival hi ->
  valid_binary (SFadd prec emax x y) = true ->
  sfin (SFadd prec emax x y) = true /\
  ival lo <= ival (SFadd prec emax x y) <= ival hi.
Proof.
  intros Vx Fx Vy Fy Vlo Flo Vhi Fhi Hb.
  destruct x as [sx|sx| |sx mx ex]; try discriminate;
  destruct y as [sy|sy| |sy my ey]; try discriminate.
  - intros _. cbn [ival] in Hb.
    destruct sx, sy; cbn; (split; [reflexivity|lia]).
  - intros _. cbn [SFadd]. split; [reflexivity|]. cbn [ival] in *. lia.
  - intros _. cbn [SFadd]. split; [reflexivity|]. cbn [ival] in *. lia.
  - cbn [SFadd].
    destruct (valid_finite _ _ _ Vx) as (Cx & Ex & Lx & Px).
    destruct (valid_finite _ _ _ Vy) as (Cy & Ey & Ly & Py).
    assert (Hez : -1074 <= Z.min ex ey /\ Z.min ex ey <= ex /\ Z.min ex ey <= ey) by lia.
    revert Hez. generalize (Z.min ex ey). intros ez (Hz1 & Hz2 & Hz3).
    destruct (shl_align_spec mx ex ez) as [_ Hfx].
    destruct (shl_align_spec my ey ez) as [_ Hfy].
    replace (Z.min ex ez) with ez in Hfx by lia.
    replace (Z.min ey ez) with ez in Hfy by lia.
    apply binary_normalize_bounds; auto.
    rewrite Hfx, Hfy.
    assert (E : forall s m e, ez <= e -> cond_Zopp s (Zpos m * 2 ^ (e - ez)) * 2 ^ (ez + 1074)
                 = cond_Zopp s (Zpos m * 2 ^ (e + 1074))).
    { intros s m e He. replace (e + 1074) with ((e - ez) + (ez + 1074)) by lia.
      rewrite (pow2_split (e - ez) (ez + 1074)) by lia. destruct s; cbn [cond_Zopp]; ring. }
    rewrite Z.mul_add_distr_r, !E by lia.
    cbn [ival] in Hb. exact Hb.
Qed.

Lemma SFsub_add x y : SFsub prec emax x y = SFadd prec emax x (SFopp y).
Proof.
  destruct x as [sx|sx| |sx mx ex]; destruct y as [sy|sy| |sy my ey]; cbn [SFsub SFadd SFopp];
    try reflexivity; destruct sx, sy; reflexivity.
Qed.

Lemma ival_opp x : ival (SFopp x) = - ival x.
Proof.
  destruct x as [s|s| |s m e]; cbn [SFopp ival]; try reflexivity.
  destruct s; cbn [negb cond_Zopp]; lia.
Qed.

Lemma valid_opp x : valid_binary (SFopp x) = valid_binary x.
Proof. destruct x; reflexivity. Qed.

Lemma sfin_opp x : sfin (SFopp x) = sfin x.
Proof. destruct x; reflexivity. Qed.

Lemma SFsub_bounds x y lo hi :
  valid_binary x = true -> sfin x = true ->
  valid_binary y = true -> sfin y = true ->
  valid_binary lo = true -> sfin lo = true ->
  valid_binary hi = true -> sfin hi = true ->
  ival lo <= ival x - ival y <= ival hi ->
  valid_binary (SFsub prec emax x y) = true ->
  sfin (SFsub prec emax x y) = true /\
  ival lo <= ival (SFsub prec emax x y) <= ival hi.
Proof.
  intros. rewrite SFsub_add in *.
  apply SFadd_bounds; auto.
  - rewrite valid_opp; assumption.
  - rewrite sfin_opp; assumption.
  - rewrite ival_opp. lia.
Qed.

Lemma ival_finite s m e :
  ival (S754_finite s m e) = cond_Zopp s (Zpos m * 2 ^ (e + 1074)).
Proof. reflexivity. Qed.

Lemma canon_digits m e : canon m e ->
  1 <= Zpos (digits2_pos m) /\ Z.max (Zpos (digits2_pos m) + e - 53) (-1074) = e.
Proof. intros C. apply canon_iff in C. split; [lia|exact C]. Qed.

Lemma SFmul_bounds x y lo hi :
  valid_binary x = true -> sfin x = true ->
  valid_binary y = true -> sfin y = true ->
  valid_binary lo = true -> sfin lo = true ->
  valid_binary hi = true -> sfin hi = true ->
  ival lo * 2 ^ 1074 <= ival x * ival y <= ival hi * 2 ^ 1074 ->
  valid_binary (SFmul prec emax x y) = true ->
  sfin (SFmul prec emax x y) = true /\
  ival lo <= ival (SFmul prec emax x y) <= ival hi.
Proof.
  intros Vx Fx Vy Fy Vlo Flo Vhi Fhi Hb.
  pose proof (pow2_pos 1074 ltac:(lia)) as HU.
  destruct x as [sx|sx| |sx mx ex]; try discriminate;
  destruct y as [sy|sy| |sy my ey]; try discriminate;
  try (intros _; cbn [SFmul sfin]; split; [reflexivity|];
       change (ival (S754_zero (xorb sx sy))) with 0;
       cbn [ival] in Hb; rewrite ?Z.mul_0_l, ?Z.mul_0_r in Hb;
       revert Hb HU; generalize (2 ^ 1074); intros; nia).
  cbn [SFmul].
  destruct (valid_finite _ _ _ Vx) as (Cx & Ex & Lx & Px).
  destruct (valid_finite _ _ _ Vy) as (Cy & Ey & Ly & Py).
  destruct (canon_digits _ _ Cx) as (Dx1 & Dx2).
  destruct (canon_digits _ _ Cy) as (Dy1 & Dy2).
  pose proof (digits2_pos_bounds mx) as [Bx1 Bx2].
  pose proof (digits2_pos_bounds my) as [By1 By2].
  intros Hvalid.
  apply (round_signed_bounds (xorb sx sy) (Zpos (mx * my)) (ex + ey) loc_Exact 1 (-2148)
           (Zpos (mx * my) * 2 ^ (ex + ey + 2148))); auto; try lia.
  - assert (Hge : (Zpos (digits2_pos mx) - 1 + (Zpos (digits2_pos my) - 1)) + 1
                  <= Zdigits2 (Zpos (mx * my))).
    { apply digits_ge; [lia|]. rewrite pow2_split by lia. rewrite Pos2Z.inj_mul.
      apply Z.mul_le_mono_nonneg; try lia; apply Z.lt_le_incl, pow2_pos; lia. }
    rewrite fexp_unfold. lia.
  - replace (ex + ey - -2148) with (ex + ey + 2148) by lia.
    rewrite !Z.mul_1_l. split; [lia|apply Z.mul_lt_mono_pos_r; [apply pow2_pos|]; lia].
  - intros H; exfalso; apply H; reflexivity.
  - replace (-1074 - -2148) with 1074 by lia. rewrite !Z.mul_1_l.
    assert (E : cond_Zopp (xorb sx sy) (Zpos (mx * my) * 2 ^ (ex + ey + 2148))
                = ival (S754_finite sx mx ex) * ival (S754_finite sy my ey)).
    { rewrite !ival_finite, Pos2Z.inj_mul.
      replace (ex + ey + 2148) with ((ex + 1074) + (ey + 1074)) by lia.
      rewrite pow2_split by lia. destruct sx, sy; cbn [xorb cond_Zopp]; ring. }
    rewrite E. exact Hb.
Qed.

Lemma new_location_exact n r : new_location n r = loc_Exact <-> r = 0.
Proof.
  unfold new_location, new_location_even, new_location_odd.
  destruct (Z.even n); destruct (Z.eqb_spec r 0) as [E|E]; split; intros H;
    try reflexivity; try assumption; try discriminate; try (exfalso; apply E; exact H).
Qed.

Lemma div_core_spec mx ex my ey :
  exists q e' l r,
    SFdiv_core_binary prec emax (Zpos mx) ex (Zpos my) ey = (q, e', l) /\
    e' = Z.min (fexp prec emax (Zpos (digits2_pos mx) + ex - (Zpos (digits2_pos my) + ey))) (ex - ey) /\
    Zpos mx * 2 ^ (ex - ey - e') = q * Zpos my + r /\
    0 <= r < Zpos my /\ 0 <= q /\ (l = loc_Exact <-> r = 0).
Proof.
  unfold SFdiv_core_binary. cbn [Zdigits2].
  set (e' := Z.min _ (ex - ey)).
  assert (Hs : 0 <= ex - ey - e') by (unfold e'; lia).
  assert (Em : match ex - ey - e' with
               | 0 => Zpos mx
               | Zpos _ => Z.shiftl (Zpos mx) (ex - ey - e')
               | Zneg _ => 0
               end = Zpos mx * 2 ^ (ex - ey - e')).
  { destruct (ex - ey - e') as [|p|p] eqn:E.
    - cbn [Z.pow]. lia.
    - apply Z.shiftl_mul_pow2. lia.
    - lia. }
  rewrite Em.
  pose proof (pow2_pos _ Hs) as HP.
  pose proof (Z_div_mod (Zpos mx * 2 ^ (ex - ey - e')) (Zpos my) ltac:(lia)) as Hdm.
  destruct (Z.div_eucl (Zpos mx * 2 ^ (ex - ey - e')) (Zpos my)) as [q r].
  destruct Hdm as [Hd Hr].
  exists q, e', (new_location (Zpos my) r), r.
  split; [reflexivity|]. split; [reflexivity|]. split; [lia|]. split; [lia|].
  split; [|apply new_location_exact].
  assert (0 <= Zpos mx * 2 ^ (ex - ey - e')) by (apply Z.mul_nonneg_nonneg; lia).
  nia.
Qed.

Lemma div_core_fexp mx ex my ey q r e' :
  e' = Z.min (fexp prec emax (Zpos (digits2_pos mx) + ex - (Zpos (digits2_pos my) + ey))) (ex - ey) ->
  Zpos mx * 2 ^ (ex - ey - e') = q * Zpos my + r ->
  0 <= r < Zpos my -> 0 <= q ->
  e' <= fexp prec emax (Zdigits2 q + e').
Proof.
  intros He Hd Hr Hq.
  set (dx := Zpos (digits2_pos mx)) in *. set (dy := Zpos (digits2_pos my)) in *.
  set (s := ex - ey - e') in *.
  assert (Hs : 0 <= s) by (unfold s; lia).
  pose proof (digits2_pos_bounds mx) as [Bx1 Bx2]. fold dx in Bx1, Bx2.
  pose proof (digits2_pos_bounds my) as [By1 By2]. fold dy in By1, By2.
  assert (Hdx : 1 <= dx) by (unfold dx; lia).
  assert (Hdy : 1 <= dy) by (unfold dy; lia).
  assert (Hge : dx + s - dy <= Zdigits2 q).
  { pose proof (Zdigits2_nonneg q).
    destruct (Z.le_gt_cases (dx + s - dy) 0) as [|Hpos]; [lia|].
    assert (2 ^ (dx + s - dy - 1) <= q); [|pose proof (digits_ge q (dx + s - dy - 1)); lia].
    pose proof (pow2_pos s Hs) as HS.
    pose proof (pow2_pos (dx - 1) ltac:(lia)) as HX.
    pose proof (pow2_pos dy ltac:(lia)) as HY.
    pose proof (pow2_pos (dx + s - dy - 1) ltac:(lia)) as HJ.
    assert (E : 2 ^ (dx - 1) * 2 ^ s = 2 ^ (dx + s - dy - 1) * 2 ^ dy).
    { rewrite <- !pow2_split by lia. f_equal. lia. }
    assert (2 ^ (dx - 1) * 2 ^ s <= Zpos mx * 2 ^ s) by (apply Z.mul_le_mono_nonneg_r; lia).
    assert (q * Zpos my + r < (q + 1) * 2 ^ dy) by nia.
    assert (2 ^ (dx + s - dy - 1) * 2 ^ dy < (q + 1) * 2 ^ dy) by lia.
    apply Z.mul_lt_mono_pos_r in H2; lia. }
  apply Z.le_trans with (fexp prec emax (dx + ex - (dy + ey))); [lia|].
  apply fexp_mono. unfold s in Hge. lia.
Qed.

Lemma SFdiv_bounds x y lo hi :
  valid_binary x = true -> sfin x = true ->
  valid_binary y = true -> sfin y = true ->
  valid_binary lo = true -> sfin lo = true ->
  valid_binary hi = true -> sfin hi = true ->
  0 < ival y ->
  ival lo * ival y <= ival x * 2 ^ 1074 <= ival hi * ival y ->
  valid_binary (SFdiv prec emax x y) = true ->
  sfin (SFdiv prec emax x y) = true /\
  ival lo <= ival (SFdiv prec emax x y) <= ival hi.
Proof.
  intros Vx Fx Vy Fy Vlo Flo Vhi Fhi Hy Hb.
  destruct y as [sy|sy| |sy my ey]; try discriminate; cbn [ival] in Hy; try lia.
  destruct (valid_finite _ _ _ Vy) as (Cy & Ey & Ly & Py).
  destruct sy; cbn [cond_Zopp] in Hy; [lia|].
  destruct x as [sx|sx| |sx mx ex]; try discriminate.
  - intros _. cbn [SFdiv sfin]. split; [reflexivity|].
    change (ival (S754_zero (xorb sx false))) with 0.
    cbn [ival cond_Zopp] in Hb. rewrite Z.mul_0_l in Hb.
    revert Hb Hy. generalize (Zpos my * 2 ^ (ey + 1074)). intros; nia.
  - destruct (valid_finite _ _ _ Vx) as (Cx & Ex & Lx & Px).
    cbn [SFdiv].
    destruct (div_core_spec mx ex my ey) as (q & e' & l & r & Hcore & He' & Hd & Hr & Hq & Hl).
    rewrite Hcore. rewrite xorb_false_r.
    pose proof (div_core_fexp mx ex my ey q r e' He' Hd Hr Hq) as Hfe.
    pose proof (fexp_ge (Zpos (digits2_pos mx) + ex - (Zpos (digits2_pos my) + ey))) as Hfg.
    assert (Hs : 0 <= ex - ey - e') by lia.
    set (k := Z.min e' (-1074)).
    assert (Hk : k <= e' /\ k <= -1074 /\ 0 <= ey + k + 2148) by (unfold k; lia).
    clearbody k. destruct Hk as (Hk1 & Hk2 & Hk3).
    pose proof (pow2_pos (e' - k) ltac:(lia)) as HP.
    assert (EV : Zpos mx * 2 ^ (ex - ey - k) = (q * Zpos my + r) * 2 ^ (e' - k)).
    { rewrite <- Hd, <- Z.mul_assoc, <- pow2_split by lia. do 2 f_equal. lia. }
    intros Hvalid.
    apply (round_signed_bounds sx q e' l (Zpos my) k (Zpos mx * 2 ^ (ex - ey - k))); auto; try lia.
    + rewrite EV. revert HP. generalize (2 ^ (e' - k)). intros P HP. nia.
    + intros E. apply Hl in E. subst r. rewrite EV. ring.
    + intros E. assert (r <> 0) by (intros E0; apply E, Hl, E0).
      rewrite EV. revert HP. generalize (2 ^ (e' - k)). intros P HP. nia.
    + pose proof (pow2_pos (ey + k + 2148) Hk3) as HT.
      assert (E1 : forall z, Zpos my * z * 2 ^ (-1074 - k) * 2 ^ (ey + k + 2148)
                    = z * (Zpos my * 2 ^ (ey + 1074))).
      { intros z. replace (ey + 1074) with ((-1074 - k) + (ey + k + 2148)) by lia.
        rewrite (pow2_split (-1074 - k) (ey + k + 2148)) by lia. ring. }
      assert (E2 : cond_Zopp sx (Zpos mx * 2 ^ (ex - ey - k)) * 2 ^ (ey + k + 2148)
                    = ival (S754_finite sx mx ex) * 2 ^ 1074).
      { rewrite ival_finite.
        assert (2 ^ (ex - ey - k) * 2 ^ (ey + k + 2148) = 2 ^ (ex + 1074) * 2 ^ 1074).
        { rewrite <- !pow2_split by lia. f_equal. lia. }
        destruct sx; cbn [cond_Zopp]; nia. }
      cbn [ival cond_Zopp] in Hb. fold (ival (S754_finite sx mx ex)) in Hb.
      split; apply (Z.mul_le_mono_pos_r _ _ (2 ^ (ey + k + 2148)) HT);
        rewrite ?E1, ?E2; lia.
Qed.

Lemma sqrt_core_spec mx ex :
  -1074 <= ex <= 971 -> Zpos mx < 2 ^ 53 ->
  exists q e' l,
    SFsqrt_core_binary prec emax (Zpos mx) ex = (q, e', l) /\
    0 <= q /\ e' <= fexp prec emax (Zdigits2 q + e') /\ e' < 460 /\
    q < 2 ^ (512 - e').
Proof.
  intros Hex Hmx. unfold SFsqrt_core_binary. cbn [Zdigits2].
  set (d := Zpos (digits2_pos mx)).
  rewrite !Z.div2_div.
  set (e' := Z.min (fexp prec emax ((d + ex + 1) / 2)) (ex / 2)).
  pose proof (digits2_pos_bounds mx) as [B1 B2]. fold d in B1, B2.
  assert (Hd : 1 <= d <= 53).
  { split; [unfold d; lia|].
    destruct (Z.le_gt_cases d 53) as [|Hc]; [assumption|exfalso].
    pose proof (pow2_le 53 (d - 1) ltac:(lia)). lia. }
  pose proof (fexp_ge ((d + ex + 1) / 2)) as Hfg.
  assert (Hfe : fexp prec emax ((d + ex + 1) / 2) = Z.max ((d + ex + 1) / 2 - 53) (-1074))
    by apply fexp_unfold.
  assert (He' : e' <= ex / 2 /\ e' <= fexp prec emax ((d + ex + 1) / 2) /\ -1074 <= e' /\ e' < 460).
  { unfold e'. clearbody d. clear B1 B2 Hmx. revert Hfg Hfe.
    generalize (fexp prec emax ((d + ex + 1) / 2)). intros f Hfg Hfe.
    pose proof (Z.div_le_mono (d + ex + 1) 1025 2 ltac:(lia) ltac:(lia)) as H1.
    change (1025 / 2) with 512 in H1.
    pose proof (Z.div_le_mono (-1074) ex 2 ltac:(lia) ltac:(lia)) as H2.
    change (-1074 / 2) with (-537) in H2.
    lia. }
  clearbody e'. destruct He' as (He1 & He2 & He3 & He4).
  set (s := ex - 2 * e').
  assert (Hs : 0 <= s) by (unfold s; pose proof (Z.mul_div_le ex 2 ltac:(lia)); lia).
  assert (Em : match s with
               | 0 => Zpos mx
               | Zpos _ => Z.shiftl (Zpos mx) s
               | Zneg _ => 0
               end = Zpos mx * 2 ^ s).
  { destruct s as [|p|p] eqn:E.
    - cbn [Z.pow]. lia.
    - apply Z.shiftl_mul_pow2. lia.
    - lia. }
  rewrite Em.
  pose proof (pow2_pos s Hs) as HS.
  assert (Hm' : 0 <= Zpos mx * 2 ^ s) by (apply Z.mul_nonneg_nonneg; lia).
  pose proof (Z.sqrtrem_spec (Zpos mx * 2 ^ s) Hm') as Hsq.
  destruct (Z.sqrtrem (Zpos mx * 2 ^ s)) as [q r].
  destruct Hsq as [Hq Hr].
  assert (Hq0 : 0 <= q) by lia.
  eexists q, e', _. split; [reflexivity|]. split; [exact Hq0|].
  split; [|split; [exact He4|]].
  - (* the quotient has enough digits *)
    set (j := (d + s - 1) / 2).
    assert (Hj : 0 <= j) by (unfold j; apply Z.div_pos; lia).
    assert (H2j : 2 * j <= d + s - 1) by (unfold j; pose proof (Z.mul_div_le (d + s - 1) 2); lia).
    assert (Hjq : 2 ^ j <= q).
    { destruct (Z.le_gt_cases (2 ^ j) q) as [|Hc]; [assumption|exfalso].
      pose proof (pow2_pos j Hj) as HJ.
      assert (E : 2 ^ j * 2 ^ j <= 2 ^ (d - 1) * 2 ^ s).
      { rewrite <- !pow2_split by lia. apply pow2_le. lia. }
      assert (2 ^ (d - 1) * 2 ^ s <= Zpos mx * 2 ^ s) by (apply Z.mul_le_mono_nonneg_r; lia).
      assert ((q + 1) * (q + 1) <= 2 ^ j * 2 ^ j) by (apply Z.mul_le_mono_nonneg; lia).
      nia. }
    pose proof (digits_ge q j Hj Hjq) as Hdg.
    apply Z.le_trans with (fexp prec emax ((d + ex + 1) / 2)); [exact He2|].
    apply fexp_mono.
    assert ((d + ex + 1) / 2 = j + 1 + e').
    { unfold j, s. replace (d + ex + 1) with ((d + (ex - 2 * e') - 1) + (1 + e') * 2) by lia.
      rewrite Z.div_add by lia. lia. }
    lia.
  - destruct (Z.lt_ge_cases q (2 ^ (512 - e'))) as [|Hc]; [assumption|exfalso].
    pose proof (pow2_pos (512 - e') ltac:(lia)) as HT.
    assert (E1 : 2 ^ (512 - e') * 2 ^ (512 - e') <= q * q) by (apply Z.mul_le_mono_nonneg; lia).
    assert (E2 : 2 ^ 53 * 2 ^ s <= 2 ^ (512 - e') * 2 ^ (512 - e')).
    { rewrite <- !pow2_split by lia. apply pow2_le. unfold s. lia. }
    assert (Zpos mx * 2 ^ s < 2 ^ 53 * 2 ^ s) by (apply Z.mul_lt_mono_pos_r; lia).
    lia.
Qed.

Lemma canon_2_52_460 : canon 4503599627370496 460.
Proof. reflexivity. Qed.

Lemma SFsqrt_fin x :
  valid_binary x = true -> sfin x = true -> 0 <= ival x ->
  valid_binary (SFsqrt prec emax x) = true ->
  sfin (SFsqrt prec emax x) = true /\ 0 <= ival (SFsqrt prec emax x).
Proof.
  intros Vx Fx Hx.
  destruct x as [sx|sx| |sx mx ex]; try discriminate.
  - intros _. cbn. split; [reflexivity|lia].
  - destruct (valid_finite _ _ _ Vx) as (Cx & Ex & Lx & Px).
    destruct sx; cbn [ival cond_Zopp] in Hx; [lia|].
    destruct (canon_facts _ _ Cx) as (_ & Ux & _).
    cbn [SFsqrt].
    destruct (sqrt_core_spec mx ex ltac:(lia) Ux) as (q & e' & l & Hcore & Hq & Hfe & He' & Hlt).
    rewrite Hcore. intros Hvalid.
    assert (HH : (l = loc_Exact /\ vle q e' (Zpos 4503599627370496) 460)
                 \/ vlt q e' (Zpos 4503599627370496) 460).
    { right. rewrite (vlt_scale e') by lia. rewrite Z.sub_diag. cbn [Z.pow]. rewrite Z.mul_1_r.
      change (Zpos 4503599627370496) with (2 ^ 52). rewrite <- pow2_split by lia.
      replace (52 + (460 - e')) with (512 - e') by lia. exact Hlt. }
    destruct (round_upper false q e' l _ 460 Hq canon_2_52_460 ltac:(lia) Hfe HH Hvalid)
      as [Hz|(mr & er & HR & Cr & Er & Hv)].
    + rewrite Hz. cbn. split; [reflexivity|lia].
    + rewrite HR. cbn [sfin ival cond_Zopp]. split; [reflexivity|].
      destruct (canon_facts _ _ Cr) as (Lr & _).
      apply Z.mul_nonneg_nonneg; [lia|]. apply Z.lt_le_incl, pow2_pos. lia.
Qed.

Lemma binary_normalize_notnan S ez sz :
  snotnan (binary_normalize prec emax S ez sz) = true.
Proof.
  destruct S as [|p|p]; cbn [binary_normalize]; [reflexivity| |];
    unfold binary_round; destruct (shl_align _ _ _) as [mz e'];
    match goal with |- context [binary_round_aux _ _ ?s ?m ?e ?l] =>
      pose proof (round_shape s m e l ltac:(lia)) as H;
      destruct (binary_round_aux prec emax s m e l); [reflexivity|reflexivity|contradiction|reflexivity]
    end.
Qed.

Lemma SFadd_notnan x y :
  snotnan x = true -> sfin y = true -> snotnan (SFadd prec emax x y) = true.
Proof.
  intros Hx Hy.
  destruct x as [sx|sx| |sx mx ex]; try discriminate;
  destruct y as [sy|sy| |sy my ey]; try discriminate; cbn [SFadd]; try reflexivity.
  - destruct sx, sy; reflexivity.
  - apply binary_normalize_notnan.
Qed.

Lemma SFsub_notnan x y :
  snotnan x = true -> sfin y = true -> snotnan (SFsub prec emax x y) = true.
Proof.
  intros Hx Hy. rewrite SFsub_add. apply SFadd_notnan; [assumption|].
  rewrite sfin_opp. assumption.
Qed.

Lemma SFabs_nonneg x : snotnan x = true -> snonneg (SFabs x) = true.
Proof. destruct x; cbn; congruence. Qed.

Lemma SFdiv_nonneg x my ey :
  snonneg x = true -> snonneg (SFdiv prec emax x (S754_finite false my ey)) = true.
Proof.
  intros Hx.
  destruct x as [sx|sx| |sx mx ex]; try discriminate; cbn [SFdiv].
  - reflexivity.
  - destruct sx; [discriminate|reflexivity].
  - destruct sx; [discriminate|]. cbn [xorb].
    destruct (div_core_spec mx ex my ey) as (q & e' & l & r & Hcore & _ & _ & _ & Hq & _).
    rewrite Hcore.
    pose proof (round_shape false q e' l Hq) as H.
    destruct (binary_round_aux prec emax false q e' l) as [s|s| |s m e];
      try contradiction; subst s; reflexivity.
Qed.

Lemma canon_compare m1 e1 m2 e2 : canon m1 e1 -> canon m2 e2 ->
  match e1 ?= e2 with Lt => Lt | Gt => Gt | Eq => Pos.compare_cont Eq m1 m2 end
  = (Zpos m1 * 2 ^ (e1 + 1074) ?= Zpos m2 * 2 ^ (e2 + 1074)).
Proof.
  intros C1 C2.
  destruct (canon_facts _ _ C1) as (L1 & U1 & N1).
  destruct (canon_facts _ _ C2) as (L2 & U2 & N2).
  change (2 ^ 52) with 4503599627370496 in *.
  change (2 ^ 53) with 9007199254740992 in *.
  destruct (Z.compare_spec e1 e2) as [E|E|E].
  - subst e2. rewrite Pos.compare_cont_spec.
    replace (Pos.switch_Eq Eq (m1 ?= m2)%positive) with (m1 ?= m2)%positive
      by (destruct (m1 ?= m2)%positive; reflexivity).
    rewrite Pos2Z.inj_compare.
    rewrite <- Zmult_compare_compat_r by (apply Z.lt_gt, pow2_pos; lia). reflexivity.
  - symmetry. apply Z.compare_lt_iff.
    replace (e2 + 1074) with ((e2 - e1) + (e1 + 1074)) by lia.
    rewrite (pow2_split (e2 - e1) (e1 + 1074)) by lia.
    pose proof (pow2_pos (e1 + 1074) ltac:(lia)) as HQ.
    pose proof (pow2_le 1 (e2 - e1) ltac:(lia)) as Hp. change (2 ^ 1) with 2 in Hp.
    specialize (N2 ltac:(lia)).
    rewrite Z.mul_assoc. apply Z.mul_lt_mono_pos_r; [exact HQ|].
    revert Hp. generalize (2 ^ (e2 - e1)). intros P HP. nia.
  - symmetry. apply Z.compare_gt_iff.
    replace (e1 + 1074) with ((e1 - e2) + (e2 + 1074)) by lia.
    rewrite (pow2_split (e1 - e2) (e2 + 1074)) by lia.
    pose proof (pow2_pos (e2 + 1074) ltac:(lia)) as HQ.
    pose proof (pow2_le 1 (e1 - e2) ltac:(lia)) as Hp. change (2 ^ 1) with 2 in Hp.
    specialize (N1 ltac:(lia)).
    rewrite Z.mul_assoc. apply Z.mul_lt_mono_pos_r; [exact HQ|].
    revert Hp. generalize (2 ^ (e1 - e2)). intros P HP. nia.
Qed.

Lemma SFcompare_ival x y :
  valid_binary x = true -> sfin x = true ->
  valid_binary y = true -> sfin y = true ->
  SFcompare x y = Some (ival x ?= ival y).
Proof.
  intros Vx Fx Vy Fy.
  destruct x as [sx|sx| |sx mx ex]; try discriminate;
  destruct y as [sy|sy| |sy my ey]; try discriminate.
  - reflexivity.
  - destruct (valid_finite _ _ _ Vy) as (Cy & Ey & Ly & Py).
    cbn [SFcompare ival]. f_equal. symmetry.
    destruct sy; cbn [cond_Zopp]; [apply Z.compare_gt_iff|apply Z.compare_lt_iff]; lia.
  - destruct (valid_finite _ _ _ Vx) as (Cx & Ex & Lx & Px).
    cbn [SFcompare ival]. f_equal. symmetry.
    destruct sx; cbn [cond_Zopp]; [apply Z.compare_lt_iff|apply Z.compare_gt_iff]; lia.
  - destruct (valid_finite _ _ _ Vx) as (Cx & Ex & Lx & Px).
    destruct (valid_finite _ _ _ Vy) as (Cy & Ey & Ly & Py).
    pose proof (canon_compare _ _ _ _ Cx Cy) as Hc.
    cbn [SFcompare ival]. f_equal.
    destruct sx, sy; cbn [cond_Zopp].
    + rewrite Z.compare_opp.
      rewrite (Z.compare_antisym (Zpos mx * 2 ^ (ex + 1074)) (Zpos my * 2 ^ (ey + 1074))).
      rewrite <- Hc. destruct (ex ?= ey); reflexivity.
    + symmetry. apply Z.compare_lt_iff. lia.
    + symmetry. apply Z.compare_gt_iff. lia.
    + exact Hc.
Qed.

Lemma fin_valid x : valid_binary (Prim2SF x) = true.
Proof. apply Prim2SF_valid. Qed.

Lemma leb_fval x y : fin x = true -> fin y = true ->
  (x <=? y)%float = (fval x <=? fval y).
Proof.
  intros Fx Fy. rewrite FloatAxioms.leb_spec. unfold SFleb.
  rewrite (SFcompare_ival _ _ (fin_valid x) Fx (fin_valid y) Fy).
  unfold fval, Z.leb. destruct (ival (Prim2SF x) ?= ival (Prim2SF y)); reflexivity.
Qed.

Lemma ltb_fval x y : fin x = true -> fin y = true ->
  (x <? y)%float = (fval x <? fval y).
Proof.
  intros Fx Fy. rewrite FloatAxioms.ltb_spec. unfold SFltb.
  rewrite (SFcompare_ival _ _ (fin_valid x) Fx (fin_valid y) Fy).
  unfold fval, Z.ltb. destruct (ival (Prim2SF x) ?= ival (Prim2SF y)); reflexivity.
Qed.

Lemma eqb_fval x y : fin x = true -> fin y = true ->
  (x =? y)%float = (fval x =? fval y).
Proof.
  intros Fx Fy. rewrite FloatAxioms.eqb_spec. unfold SFeqb.
  rewrite (SFcompare_ival _ _ (fin_valid x) Fx (fin_valid y) Fy).
  unfold fval. rewrite Z.eqb_compare. reflexivity.
Qed.

Lemma add_bounds x y lo hi :
  fin x = true -> fin y = true -> fin lo = true -> fin hi = true ->
  fval lo <= fval x + fval y <= fval hi ->
  fin (x + y) = true /\ fval lo <= fval (x + y) <= fval hi.
Proof.
  intros Fx Fy Flo Fhi Hb. unfold fin, fval in *.
  pose proof (fin_valid (x + y)) as V. rewrite add_spec in *.
  apply SFadd_bounds; auto using fin_valid.
Qed.

Lemma sub_bounds x y lo hi :
  fin x = true -> fin y = true -> fin lo = true -> fin hi = true ->
  fval lo <= fval x - fval y <= fval hi ->
  fin (x - y) = true /\ fval lo <= fval (x - y) <= fval hi.
Proof.
  intros Fx Fy Flo Fhi Hb. unfold fin, fval in *.
  pose proof (fin_valid (x - y)) as V. rewrite sub_spec in *.
  apply SFsub_bounds; auto using fin_valid.
Qed.

Lemma mul_bounds x y lo hi :
  fin x = true -> fin y = true -> fin lo = true -> fin hi = true ->
  fval lo * 2 ^ 1074 <= fval x * fval y <= fval hi * 2 ^ 1074 ->
  fin (x * y) = true /\ fval lo <= fval (x * y) <= fval hi.
Proof.
  intros Fx Fy Flo Fhi Hb. unfold fin, fval in *.
  pose proof (fin_valid (x * y)) as V. rewrite mul_spec in *.
  apply SFmul_bounds; auto using fin_valid.
Qed.

Lemma div_bounds x y lo hi :
  fin x = true -> fin y = true -> fin lo = true -> fin hi = true ->
  0 < fval y ->
  fval lo * fval y <= fval x * 2 ^ 1074 <= fval hi * fval y ->
  fin (x / y) = true /\ fval lo <= fval (x / y) <= fval hi.
Proof.
  intros Fx Fy Flo Fhi Hy Hb. unfold fin, fval in *.
  pose proof (fin_valid (x / y)) as V. rewrite div_spec in *.
  apply SFdiv_bounds; auto using fin_valid.
Qed.

Lemma sqrt_fin x :
  fin x = true -> 0 <= fval x ->
  fin (sqrt x) = true /\ 0 <= fval (sqrt x).
Proof.
  intros Fx Hx. unfold fin, fval in *.
  pose proof (fin_valid (sqrt x)) as V. rewrite sqrt_spec in *.
  apply SFsqrt_fin; auto using fin_valid.
Qed.

Lemma abs_fin x : fin (abs x) = fin x.
Proof. unfold fin. rewrite abs_spec. destruct (Prim2SF x); reflexivity. Qed.

Lemma abs_fval x : fval (abs x) = Z.abs (fval x).
Proof.
  unfold fval. rewrite abs_spec.
  pose proof (fin_valid x) as V.
  destruct (Prim2SF x) as [s|s| |s m e]; cbn [SFabs ival]; try reflexivity.
  destruct (valid_finite _ _ _ V) as (_ & _ & _ & P).
  destruct s; cbn [cond_Zopp]; lia.
Qed.

Lemma is_nan_notnan x : is_nan x = negb (notnan x).
Proof.
  unfold is_nan, notnan. rewrite FloatAxioms.eqb_spec. unfold SFeqb.
  pose proof (fin_valid x) as V.
  destruct (Prim2SF x) as [s|s| |s m e] eqn:E; cbn [snotnan negb SFcompare]; try reflexivity.
  - destruct s; reflexivity.
  - rewrite Z.compare_refl, Pos.compare_cont_refl. destruct s; reflexivity.
Qed.

Lemma fin_notnan x : fin x = true -> notnan x = true.
Proof. unfold fin, notnan. destruct (Prim2SF x); cbn; congruence. Qed.

Lemma nonneg_notnan x : nonneg x = true -> notnan x = true.
Proof. unfold nonneg, notnan. destruct (Prim2SF x); cbn; congruence. Qed.

Lemma fin_nonneg x : fin x = true -> 0 <= fval x -> nonneg x = true.
Proof.
  unfold fin, fval, nonneg. pose proof (fin_valid x) as V.
  destruct (Prim2SF x) as [s|s| |s m e]; cbn [sfin snonneg ival]; try congruence.
  destruct (valid_finite _ _ _ V) as (_ & _ & _ & P).
  destruct s; cbn [cond_Zopp]; intros; [lia|reflexivity].
Qed.

Lemma sub_notnan x y : notnan x = true -> fin y = true -> notnan (x - y) = true.
Proof. unfold notnan, fin. rewrite sub_spec. apply SFsub_notnan. Qed.

Lemma abs_nonneg x : notnan x = true -> nonneg (abs x) = true.
Proof. unfold notnan, nonneg. rewrite abs_spec. apply SFabs_nonneg. Qed.

Lemma div_nonneg x y : nonneg x = true -> fin y = true -> 0 < fval y ->
  nonneg (x / y) = true.
Proof.
  unfold nonneg, fin, fval. rewrite div_spec. pose proof (fin_valid y) as V.
  destruct (Prim2SF y) as [s|s| |s m e]; cbn [sfin ival]; try congruence; try lia.
  destruct (valid_finite _ _ _ V) as (_ & _ & _ & P).
  destruct s; cbn [cond_Zopp]; intros; [lia|].
  apply SFdiv_nonneg; assumption.
Qed.

Lemma nonneg_cases x : nonneg x = true ->
  (fin x = true /\ 0 <= fval x) \/ Prim2SF x = S754_infinity false.
Proof.
  unfold nonneg, fin, fval. pose proof (fin_valid x) as V.
  destruct (Prim2SF x) as [s|s| |s m e]; cbn [sfin snonneg ival]; try congruence.
  - left. split; [reflexivity|lia].
  - destruct s; [congruence|]. right; reflexivity.
  - destruct (valid_finite _ _ _ V) as (_ & _ & _ & P).
    destruct s; [congruence|]. left. cbn [cond_Zopp]. split; [reflexivity|lia].
Qed.

(** ** NaN propagation *)

Lemma add_nan_l x y : notnan x = false -> notnan (x + y) = false.
Proof.
  unfold notnan. rewrite add_spec. destruct (Prim2SF x); cbn; congruence.
Qed.

Lemma add_nan_r x y : notnan y = false -> notnan (x + y) = false.
Proof.
  unfold notnan. rewrite add_spec.
  destruct (Prim2SF x), (Prim2SF y); cbn; congruence.
Qed.

Lemma sub_nan_l x y : notnan x = false -> notnan (x - y) = false.
Proof.
  unfold notnan. rewrite sub_spec. destruct (Prim2SF x); cbn; congruence.
Qed.

Lemma sub_nan_r x y : notnan y = false -> notnan (x - y) = false.
Proof.
  unfold notnan. rewrite sub_spec.
  destruct (Prim2SF x), (Prim2SF y); cbn; congruence.
Qed.

Lemma mul_nan_l x y : notnan x = false -> notnan (x * y) = false.
Proof.
  unfold notnan. rewrite mul_spec. destruct (Prim2SF x); cbn; congruence.
Qed.

Lemma div_nan_l x y : notnan x = false -> notnan (x / y) = false.
Proof.
  unfold notnan. rewrite div_spec. destruct (Prim2SF x); cbn; congruence.
Qed.

Lemma abs_nan x : notnan x = false -> notnan (abs x) = false.
Proof.
  unfold notnan. rewrite abs_spec. destruct (Prim2SF x); cbn; congruence.
Qed.

Lemma ltb_nan_r x y : notnan y = false -> (x <? y)%float = false.
Proof.
  unfold notnan. rewrite FloatAxioms.ltb_spec. unfold SFltb.
  destruct (Prim2SF x), (Prim2SF y); cbn; congruence.
Qed.

Lemma ltb_nan_l x y : notnan x = false -> (x <? y)%float = false.
Proof.
  unfold notnan. rewrite FloatAxioms.ltb_spec. unfold SFltb.
  destruct (Prim2SF x); cbn; congruence.
Qed.

Lemma leb_nan_l x y : notnan x = false -> (x <=? y)%float = false.
Proof.
  unfold notnan. rewrite FloatAxioms.leb_spec. unfold SFleb.
  destruct (Prim2SF x); cbn; congruence.
Qed.

Lemma leb_nan_r x y : notnan y = false -> (x <=? y)%float = false.
Proof.
  unfold notnan. rewrite FloatAxioms.leb_spec. unfold SFleb.
  destruct (Prim2SF x), (Prim2SF y); cbn; congruence.
Qed.

(** ** The constants of the program, in units of [2^-2094] *)

Lemma pow_1074 : 2 ^ 1074 = 18014398509481984 * 2 ^ 1020.
Proof. vm_compute. reflexivity. Qed.
Lemma W_pos : 0 < 2 ^ 1020.
Proof. vm_compute. reflexivity. Qed.

Lemma fin_0 : fin 0 = true. Proof. reflexivity. Qed.
Lemma fin_1 : fin 1 = true. Proof. reflexivity. Qed.
Lemma fin_2 : fin 2 = true. Proof. reflexivity. Qed.
Lemma fin_3 : fin 3 = true. Proof. reflexivity. Qed.
Lemma fin_4 : fin 4 = true. Proof. reflexivity. Qed.
Lemma fin_03 : fin 0.3 = true. Proof. reflexivity. Qed.
Lemma fin_07 : fin 0.7 = true. Proof. reflexivity. Qed.
Lemma fin_G : fin GOLDEN_RATIO = true. Proof. reflexivity. Qed.

Lemma fval_0 : fval 0 = 0. Proof. reflexivity. Qed.
Lemma fval_1 : fval 1 = 18014398509481984 * 2 ^ 1020.
Proof. vm_compute. reflexivity. Qed.
Lemma fval_2 : fval 2 = 36028797018963968 * 2 ^ 1020.
Proof. vm_compute. reflexivity. Qed.
Lemma fval_3 : fval 3 = 54043195528445952 * 2 ^ 1020.
Proof. vm_compute. reflexivity. Qed.
Lemma fval_4 : fval 4 = 72057594037927936 * 2 ^ 1020.
Proof. vm_compute. reflexivity. Qed.
Lemma fval_03 : fval 0.3 = 5404319552844595 * 2 ^ 1020.
Proof. vm_compute. reflexivity. Qed.
Lemma fval_07 : fval 0.7 = 12610078956637388 * 2 ^ 1020.
Proof. vm_compute. reflexivity. Qed.
Lemma fval_G : fval GOLDEN_RATIO = 29147296788341852 * 2 ^ 1020.
Proof. vm_compute. reflexivity. Qed.



(** ** Deviation of one ratio *)

Lemma truediv_G a : Py.truediv a GOLDEN_RATIO = Ok (a / GOLDEN_RATIO)%float.
Proof. reflexivity. Qed.

Lemma deviation_eq r :
  deviation r = Ok (Py.min (abs (r - GOLDEN_RATIO) / GOLDEN_RATIO) 1)%float.
Proof. reflexivity. Qed.

Lemma ltb_1_inf x : Prim2SF x = S754_infinity false -> (1 <? x)%float = true.
Proof. intros E. rewrite FloatAxioms.ltb_spec, E. reflexivity. Qed.

Lemma min_1_range q :
  nonneg q = true ->
  fin (Py.min q 1) = true /\ 0 <= fval (Py.min q 1) <= fval 1.
Proof.
  intros Hq. unfold Py.min.
  destruct (nonneg_cases q Hq) as [[Fq Vq]|Einf].
  - rewrite (ltb_fval 1 q fin_1 Fq).
    destruct (Z.ltb_spec (fval 1) (fval q)) as [H|H].
    + split; [reflexivity|]. rewrite fval_1. pose proof W_pos. lia.
    + split; [assumption|lia].
  - rewrite (ltb_1_inf q Einf). split; [reflexivity|].
    rewrite fval_1. pose proof W_pos. lia.
Qed.

Lemma G_pos : 0 < fval GOLDEN_RATIO.
Proof. rewrite fval_G. pose proof W_pos. lia. Qed.

Lemma deviation_range r :
  notnan r = true ->
  let d := Py.min (abs (r - GOLDEN_RATIO) / GOLDEN_RATIO) 1 in
  fin d = true /\ 0 <= fval d <= fval 1.
Proof.
  intros Hr d. subst d. apply min_1_range.
  apply div_nonneg; [|exact fin_G|exact G_pos].
  apply abs_nonneg. apply sub_notnan; [assumption|exact fin_G].
Qed.

Lemma deviation_nan r :
  notnan r = false ->
  notnan (Py.min (abs (r - GOLDEN_RATIO) / GOLDEN_RATIO) 1) = false.
Proof.
  intros Hr. unfold Py.min.
  assert (H : notnan (abs (r - GOLDEN_RATIO) / GOLDEN_RATIO) = false).
  { apply div_nan_l, abs_nan, sub_nan_l, Hr. }
  rewrite (ltb_nan_r _ _ H). exact H.
Qed.

Lemma symmetry_score_eq r0 r1 r2 r3 :
  symmetry_score [r0; r1; r2; r3] =
  Ok (score_of_deviations
        (Py.min (abs (r0 - GOLDEN_RATIO) / GOLDEN_RATIO) 1)
        (Py.min (abs (r1 - GOLDEN_RATIO) / GOLDEN_RATIO) 1)
        (Py.min (abs (r2 - GOLDEN_RATIO) / GOLDEN_RATIO) 1)
        (Py.min (abs (r3 - GOLDEN_RATIO) / GOLDEN_RATIO) 1))%float.
Proof. reflexivity. Qed.

Lemma sum4_eq d0 d1 d2 d3 :
  Py.sum [d0; d1; d2; d3] = (0 + d0 + d1 + d2 + d3)%float.
Proof. reflexivity. Qed.

Lemma sum4_range d0 d1 d2 d3 :
  unit_dev d0 -> unit_dev d1 -> unit_dev d2 -> unit_dev d3 ->
  fin (Py.sum [d0; d1; d2; d3]) = true /\
  0 <= fval (Py.sum [d0; d1; d2; d3]) <= fval 4.
Proof.
  intros [F0 B0] [F1 B1] [F2 B2] [F3 B3]. rewrite sum4_eq.
  rewrite fval_1 in *. rewrite fval_4. pose proof W_pos as HW.
  destruct (add_bounds 0 d0 0 1 fin_0 F0 fin_0 fin_1) as [G1 H1].
  { rewrite fval_0, fval_1. lia. }
  rewrite fval_0, fval_1 in H1.
  destruct (add_bounds _ d1 0 2 G1 F1 fin_0 fin_2) as [G2 H2].
  { rewrite fval_0, fval_2. lia. }
  rewrite fval_0, fval_2 in H2.
  destruct (add_bounds _ d2 0 3 G2 F2 fin_0 fin_3) as [G3 H3].
  { rewrite fval_0, fval_3. lia. }
  rewrite fval_0, fval_3 in H3.
  destruct (add_bounds _ d3 0 4 G3 F3 fin_0 fin_4) as [G4 H4].
  { rewrite fval_0, fval_4. lia. }
  rewrite fval_0, fval_4 in H4.
  split; assumption.
Qed.

Lemma score_range d0 d1 d2 d3 :
  unit_dev d0 -> unit_dev d1 -> unit_dev d2 -> unit_dev d3 ->
  let s := score_of_deviations d0 d1 d2 d3 in
  fin s = true /\ fval 0.7 <= fval s <= fval 1.
Proof.
  intros U0 U1 U2 U3 s. subst s. unfold score_of_deviations.
  destruct (sum4_range d0 d1 d2 d3 U0 U1 U2 U3) as [Ft Bt].
  set (t := Py.sum [d0; d1; d2; d3]) in *. clearbody t.
  pose proof W_pos as HW.
  (* the average *)
  destruct (div_bounds t 4 0 1 Ft fin_4 fin_0 fin_1) as [Fa Ba].
  { rewrite fval_4. lia. }
  { rewrite fval_0, fval_1, fval_4, pow_1074. rewrite fval_4 in Bt.
    revert HW Bt. generalize (2 ^ 1020), (fval t). intros w T HW Bt.
    split; [nia|].
    replace (18014398509481984 * w * (72057594037927936 * w))
      with (72057594037927936 * w * (18014398509481984 * w)) by ring.
    apply Z.mul_le_mono_nonneg_r; lia. }
  rewrite fval_0, fval_1 in Ba.
  set (a := (t / 4)%float) in *. clearbody a.
  (* the scaled average *)
  destruct (mul_bounds a 0.3 0 0.3 Fa fin_03 fin_0 fin_03) as [Fm Bm].
  { rewrite fval_0, fval_03, pow_1074.
    revert HW Ba. generalize (2 ^ 1020), (fval a). intros w A HW Ba.
    split; [nia|].
    replace (5404319552844595 * w * (18014398509481984 * w))
      with (18014398509481984 * w * (5404319552844595 * w)) by ring.
    apply Z.mul_le_mono_nonneg_r; lia. }
  rewrite fval_0, fval_03 in Bm.
  set (m := (a * 0.3)%float) in *. clearbody m.
  (* one minus it *)
  destruct (sub_bounds 1 m 0.7 1 fin_1 Fm fin_07 fin_1) as [Fy By].
  { rewrite fval_07, fval_1. lia. }
  rewrite fval_07, fval_1 in By.
  set (y := (1 - m)%float) in *. clearbody y.
  unfold Py.max. rewrite (ltb_fval 0 y fin_0 Fy), fval_0.
  replace (0 <? fval y) with true by (symmetry; apply Z.ltb_lt; lia).
  rewrite fval_07, fval_1. split; [assumption|lia].
Qed.

Lemma sum4_nan d0 d1 d2 d3 :
  notnan d0 = false \/ notnan d1 = false \/ notnan d2 = false \/ notnan d3 = false ->
  notnan (Py.sum [d0; d1; d2; d3]) = false.
Proof.
  rewrite sum4_eq. intros [H|[H|[H|H]]].
  - apply add_nan_l, add_nan_l, add_nan_l, add_nan_r, H.
  - apply add_nan_l, add_nan_l, add_nan_r, H.
  - apply add_nan_l, add_nan_r, H.
  - apply add_nan_r, H.
Qed.

Lemma score_nan d0 d1 d2 d3 :
  notnan d0 = false \/ notnan d1 = false \/ notnan d2 = false \/ notnan d3 = false ->
  score_of_deviations d0 d1 d2 d3 = 0%float.
Proof.
  intros H. unfold score_of_deviations, Py.max.
  rewrite ltb_nan_r; [reflexivity|].
  apply sub_nan_r, mul_nan_l, div_nan_l, sum4_nan, H.
Qed.

Lemma rhe_upper a b c : 0 < b -> 0 <= a <= c * b ->
  0 <= Py.round_half_even_div a b <= c.
Proof.
  intros Hb Ha. unfold Py.round_half_even_div.
  pose proof (Z.div_mod a b ltac:(lia)) as Hdm.
  pose proof (Z.mod_pos_bound a b Hb) as Hr.
  assert (Hq0 : 0 <= a / b) by (apply Z.div_pos; lia).
  assert (Hqc : a / b <= c) by (apply Z.div_le_upper_bound; lia).
  revert Hdm Hr Hq0 Hqc. generalize (a / b), (a mod b). intros q r Hdm Hr Hq0 Hqc.
  assert (Hc : q < c \/ r = 0).
  { destruct (Z.eq_dec q c) as [->|]; [right|left]; lia. }
  destruct (Z.compare_spec (2 * r) b) as [E|E|E]; try destruct (Z.even q); lia.
Qed.

Lemma rhe_lower a b c : 0 < b -> 0 <= a -> (2 * c - 1) * b < 2 * a ->
  c <= Py.round_half_even_div a b.
Proof.
  intros Hb Ha Hc. unfold Py.round_half_even_div.
  pose proof (Z.div_mod a b ltac:(lia)) as Hdm.
  pose proof (Z.mod_pos_bound a b Hb) as Hr.
  revert Hdm Hr. generalize (a / b), (a mod b). intros q r Hdm Hr.
  destruct (Z.compare_spec (2 * r) b) as [E|E|E]; try destruct (Z.even q); nia.
Qed.

Lemma forallb_zrange (f : Z -> bool) lo len :
  forallb f (zrange lo len) = true ->
  forall n, lo <= n < lo + Z.of_nat len -> f n = true.
Proof.
  intros H n Hn. rewrite forallb_forall in H. apply H.
  unfold zrange. apply in_map_iff. exists (Z.to_nat (n - lo)).
  split; [lia|]. apply in_seq. lia.
Qed.

Lemma round2_unit s :
  fin s = true -> 0 <= fval s <= fval 1 ->
  (Py.round2 s = s /\ fval s = 0) \/
  exists n, 0 <= n <= 100 /\ Py.round2 s = (Py.float_of_int n / 100)%float /\
            (fval 0.7 <= fval s -> 70 <= n).
Proof.
  intros Fs Bs. pose proof (fin_valid s) as V.
  assert (Hv : fval s = ival (Prim2SF s)) by reflexivity.
  unfold fin in Fs. unfold Py.round2.
  destruct (Prim2SF s) as [sg|sg| |sg m e] eqn:E; try discriminate.
  - left. split; [reflexivity|exact Hv].
  - right. rewrite Hv in *. clear Hv. cbn [ival] in Bs |- *.
    destruct (valid_finite _ _ _ V) as (C & Ee & Le & P).
    destruct (canon_facts _ _ C) as (_ & Um & Nm).
    destruct sg; cbn [cond_Zopp] in Bs; [lia|].
    rewrite fval_1, <- pow_1074 in Bs.
    change (2 ^ 52) with 4503599627370496 in *.
    change (2 ^ 53) with 9007199254740992 in *.
    assert (He : e < 0).
    { destruct (Z.lt_ge_cases e 0) as [|Hc]; [assumption|exfalso].
      specialize (Nm ltac:(lia)).
      pose proof (pow2_le 1074 (e + 1074) ltac:(lia)).
      pose proof (pow2_pos 1074 ltac:(lia)). nia. }
    replace (0 <=? e) with false by (symmetry; apply Z.leb_gt; exact He).
    set (b := 2 ^ (- e)).
    assert (Hb : 0 < b) by (apply pow2_pos; lia).
    assert (Eb : 2 ^ (e + 1074) * b = 2 ^ 1074).
    { unfold b. rewrite <- pow2_split by lia. f_equal. lia. }
    pose proof (pow2_pos (e + 1074) ltac:(lia)) as HQ.
    assert (Hmb : Zpos m <= b).
    { apply (Z.mul_le_mono_pos_r _ _ (2 ^ (e + 1074)) HQ).
      rewrite (Z.mul_comm b). rewrite Eb. lia. }
    pose proof (rhe_upper (Zpos m * 100) b 100 Hb ltac:(lia)) as Hn.
    set (n := Py.round_half_even_div (Zpos m * 100) b) in *.
    exists n. split; [exact Hn|]. split.
    + replace (n <? 9007199254740992) with true by (symmetry; apply Z.ltb_lt; lia).
      reflexivity.
    + rewrite fval_07. cbn [cond_Zopp]. intros H7.
      apply rhe_lower; [exact Hb|lia|].
      assert (H53 : 2 ^ 1074 = 9007199254740992 * 2 * 2 ^ 1020).
      { rewrite pow_1074. lia. }
      (* m * 2^(e+1074) >= c7 * 2^1020, and 2^(e+1074) * b = 2^54 * 2^1020 *)
      pose proof W_pos as HW.
      assert (H1 : 12610078956637388 * 2 ^ 1020 * b <= Zpos m * (2 ^ (e + 1074) * b)).
      { rewrite Z.mul_assoc. apply Z.mul_le_mono_nonneg_r; lia. }
      rewrite Eb, pow_1074 in H1.
      assert (H2 : 12610078956637388 * b * 2 ^ 1020 <= Zpos m * 18014398509481984 * 2 ^ 1020) by lia.
      apply Z.mul_le_mono_pos_r in H2; [|exact HW]. lia.
Qed.

Lemma hundredths_in_unit n : 0 <= n <= 100 ->
  in_unit_interval (Py.float_of_int n / 100)%float = true.
Proof.
  intros Hn.
  apply (forallb_zrange (fun n => in_unit_interval (Py.float_of_int n / 100)%float) 0 101);
    [vm_compute; reflexivity|lia].
Qed.

Lemma is_infinity_fin x : fin x = true -> is_infinity x = false.
Proof.
  unfold fin, is_infinity. rewrite FloatAxioms.eqb_spec, abs_spec.
  destruct (Prim2SF x); cbn; congruence.
Qed.

Lemma is_nan_fin x : fin x = true -> is_nan x = false.
Proof. intros F. rewrite is_nan_notnan, (fin_notnan x F). reflexivity. Qed.

Lemma abs_leb_spec c B : fin B = true -> (abs c <=? B)%float = true ->
  fin c = true /\ - fval B <= fval c <= fval B.
Proof.
  intros FB H.
  assert (F : fin c = true).
  { revert H FB. unfold fin. rewrite FloatAxioms.leb_spec, abs_spec.
    destruct (Prim2SF c) as [s|s| |s m e], (Prim2SF B) as [s'|s'| |s' m' e']; cbn; congruence. }
  split; [exact F|].
  rewrite leb_fval in H by (rewrite ?abs_fin; auto).
  apply Z.leb_le in H. rewrite abs_fval in H. lia.
Qed.

Lemma fin_p500 : fin 0x1p500 = true. Proof. reflexivity. Qed.

Lemma coord_ok_spec c : coord_ok c = true ->
  fin c = true /\ - fval 0x1p500 <= fval c <= fval 0x1p500.
Proof. apply abs_leb_spec. exact fin_p500. Qed.

Lemma fin_p501 : fin 0x1p501 = true. Proof. reflexivity. Qed.
Lemma fin_m501 : fin (-0x1p501) = true. Proof. reflexivity. Qed.
Lemma fin_p1002 : fin 0x1p1002 = true. Proof. reflexivity. Qed.
Lemma fin_p1003 : fin 0x1p1003 = true. Proof. reflexivity. Qed.
Lemma fval_p501 : fval 0x1p501 = 2 * fval 0x1p500. Proof. vm_compute. reflexivity. Qed.
Lemma fval_m501 : fval (-0x1p501) = - (2 * fval 0x1p500). Proof. vm_compute. reflexivity. Qed.
Lemma fval_p1002 : fval 0x1p1002 * 2 ^ 1074 = (2 * fval 0x1p500) * (2 * fval 0x1p500).
Proof. vm_compute. reflexivity. Qed.
Lemma fval_p1003 : fval 0x1p1003 = 2 * fval 0x1p1002. Proof. vm_compute. reflexivity. Qed.
Lemma fval_p500_pos : 0 < fval 0x1p500. Proof. vm_compute. reflexivity. Qed.

(** ** [x ** 2] over the C library's [pow] *)

Lemma SF_0 : Prim2SF 0 = S754_zero false.
Proof. vm_compute. reflexivity. Qed.

Lemma SF_inf : Prim2SF infinity = S754_infinity false.
Proof. vm_compute. reflexivity. Qed.

Lemma eqb_0_szero x : (x =? 0)%float = szero (Prim2SF x).
Proof.
  rewrite FloatAxioms.eqb_spec, SF_0. unfold SFeqb.
  destruct (Prim2SF x) as [s|s| |s m e]; cbn [SFcompare szero]; try reflexivity;
    destruct s; reflexivity.
Qed.

Lemma ltb_0_sign x :
  (x <? 0)%float =
  match Prim2SF x with
  | S754_infinity s | S754_finite s _ _ => s
  | _ => false
  end.
Proof.
  rewrite FloatAxioms.ltb_spec, SF_0. unfold SFltb.
  destruct (Prim2SF x) as [s|s| |s m e]; cbn [SFcompare]; try reflexivity;
    destruct s; reflexivity.
Qed.

(** The base float_pow hands to [pow]: the sign is dropped. *)
Lemma float_pow_base x :
  notnan x = true -> (x =? 0)%float = false ->
  (if (x <? 0)%float then (- x)%float else x) = abs x.
Proof.
  intros N Z. rewrite eqb_0_szero in Z. unfold notnan in N.
  rewrite ltb_0_sign. apply Prim2SF_inj.
  destruct (Prim2SF x) as [s|s| |s m e] eqn:E; try discriminate;
    destruct s; rewrite abs_spec, ?opp_spec, E; reflexivity.
Qed.

Lemma abs_nonzero x :
  fin x = true -> (x =? 0)%float = false ->
  fin (abs x) = true /\ 0 < fval (abs x) /\ fval (abs x) = Z.abs (fval x).
Proof.
  intros F Z. rewrite (eqb_fval x 0 F fin_0), fval_0 in Z. apply Z.eqb_neq in Z.
  rewrite abs_fin, abs_fval. split; [exact F|]. split; lia.
Qed.

Lemma pow2_general pow x :
  fin x = true -> (x =? 0)%float = false ->
  Py.pow2 pow x =
  if (abs x =? 1)%float then Ok 1%float
  else if is_infinity (pow (abs x) 2%float) then Raise (OverflowError "(34, 'Numerical result out of range')")
  else Ok (pow (abs x) 2%float).
Proof.
  intros F Z. unfold Py.pow2.
  rewrite (is_nan_fin x F), (is_infinity_fin x F), Z.
  rewrite (float_pow_base x (fin_notnan x F) Z). reflexivity.
Qed.

Lemma leb_inf_fin r hi :
  Prim2SF r = S754_infinity false -> fin hi = true -> (r <=? hi)%float = false.
Proof.
  unfold fin. intros E. rewrite FloatAxioms.leb_spec, E. unfold SFleb.
  destruct (Prim2SF hi) as [s|s| |s m e]; cbn [sfin SFcompare]; try discriminate;
    reflexivity.
Qed.

Lemma nonneg_below r hi :
  nonneg r = true -> fin hi = true -> (r <=? hi)%float = true ->
  fin r = true /\ 0 <= fval r <= fval hi.
Proof.
  intros N Fhi L. destruct (nonneg_cases r N) as [[F B]|E].
  - rewrite (leb_fval r hi F Fhi) in L. apply Z.leb_le in L. split; [exact F|lia].
  - rewrite (leb_inf_fin r hi E Fhi) in L. discriminate L.
Qed.

Lemma mul_self_nonneg x : fin x = true -> nonneg (x * x) = true.
Proof.
  unfold fin, nonneg. rewrite mul_spec. unfold SF64mul.
  destruct (Prim2SF x) as [s|s| |s m e]; cbn [sfin SFmul]; try discriminate; intros _.
  - reflexivity.
  - replace (xorb s s) with false by (destruct s; reflexivity).
    pose proof (round_shape false (Zpos (m * m)) (e + e) loc_Exact ltac:(lia)) as H.
    destruct (binary_round_aux prec emax false (Zpos (m * m)) (e + e) loc_Exact);
      try contradiction; subst; reflexivity.
Qed.

(** A correctly rounded square has both properties assumed of [pow]. *)
Lemma sample_pow_not_negative : square_not_negative sample_pow.
Proof. intros x F _. apply mul_self_nonneg, F. Qed.

Lemma sample_pow_not_above : square_not_above sample_pow.
Proof.
  intros x hi F _ Fhi H. unfold sample_pow.
  destruct (mul_bounds x x 0 hi F F fin_0 Fhi) as [Fr Br].
  { rewrite fval_0. split; [nia|exact H]. }
  rewrite (leb_fval _ hi Fr Fhi). apply Z.leb_le. lia.
Qed.

Lemma fval_1_p1002 : 0 <= fval 1 <= fval 0x1p1002.
Proof. vm_compute. split; discriminate. Qed.

Lemma pow2_small pow x :
  square_not_negative pow -> square_not_above pow ->
  fin x = true -> - (2 * fval 0x1p500) <= fval x <= 2 * fval 0x1p500 ->
  exists v, Py.pow2 pow x = Ok v /\ fin v = true /\ 0 <= fval v <= fval 0x1p1002.
Proof.
  intros Hn Ha F B.
  destruct (x =? 0)%float eqn:Z.
  - exists 0%float. split.
    + unfold Py.pow2. rewrite (is_nan_fin x F), (is_infinity_fin x F), Z. reflexivity.
    + split; [reflexivity|]. rewrite fval_0. vm_compute. split; discriminate.
  - rewrite (pow2_general pow x F Z).
    destruct (abs_nonzero x F Z) as (Fa & Pa & Ea).
    destruct (abs x =? 1)%float.
    + exists 1%float. split; [reflexivity|]. split; [reflexivity|exact fval_1_p1002].
    + pose proof (Hn (abs x) Fa Pa) as N.
      assert (U : (pow (abs x) 2 <=? 0x1p1002)%float = true).
      { apply (Ha (abs x) 0x1p1002%float Fa Pa fin_p1002).
        rewrite Ea, fval_p1002. pose proof fval_p500_pos.
        apply Z.mul_le_mono_nonneg; lia. }
      destruct (nonneg_below _ _ N fin_p1002 U) as [Fr Br].
      rewrite (is_infinity_fin _ Fr).
      eexists. split; [reflexivity|]. split; assumption.
Qed.

Lemma calculate_distance_ok pow p1 p2 :
  square_not_negative pow -> square_not_above pow ->
  point_ok p1 = true -> point_ok p2 = true ->
  exists d, calculate_distance pow p1 p2 = Ok d /\ fin d = true /\ 0 <= fval d.
Proof.
  unfold point_ok. intros Hn Ha H1 H2.
  apply andb_prop in H1, H2. destruct H1 as [H1x H1y], H2 as [H2x H2y].
  apply coord_ok_spec in H1x, H1y, H2x, H2y.
  destruct H1x as [F1x B1x], H1y as [F1y B1y], H2x as [F2x B2x], H2y as [F2y B2y].
  unfold calculate_distance.
  destruct (sub_bounds (fst p2) (fst p1) (-0x1p501) 0x1p501 F2x F1x fin_m501 fin_p501) as [Fdx Bdx].
  { rewrite fval_m501, fval_p501. lia. }
  destruct (sub_bounds (snd p2) (snd p1) (-0x1p501) 0x1p501 F2y F1y fin_m501 fin_p501) as [Fdy Bdy].
  { rewrite fval_m501, fval_p501. lia. }
  rewrite fval_m501, fval_p501 in Bdx, Bdy.
  destruct (pow2_small pow _ Hn Ha Fdx Bdx) as (vx & Ex & Fvx & Bvx).
  destruct (pow2_small pow _ Hn Ha Fdy Bdy) as (vy & Ey & Fvy & Bvy).
  rewrite Ex, Ey. cbn [result_bind].
  destruct (add_bounds vx vy 0 0x1p1003 Fvx Fvy fin_0 fin_p1003) as [Fs Bs].
  { rewrite fval_0, fval_p1003. lia. }
  rewrite fval_0 in Bs.
  destruct (sqrt_fin (vx + vy) Fs ltac:(lia)) as [Fr Br].
  unfold Py.sqrt. rewrite (is_nan_fin _ Fr). cbn [andb].
  eexists. split; [reflexivity|]. split; assumption.
Qed.

Lemma ratio_ok num den :
  fin num = true -> 0 <= fval num -> fin den = true -> 0 <= fval den ->
  exists r, ratio num den = Ok r /\ nonneg r = true.
Proof.
  intros Fn Bn Fd Bd. unfold ratio, Py.truediv.
  destruct (den =? 0)%float eqn:E; cbn [negb].
  - exists 1%float. split; reflexivity.
  - eexists. split; [reflexivity|].
    rewrite (eqb_fval den 0 Fd fin_0), fval_0 in E. apply Z.eqb_neq in E.
    apply div_nonneg; [apply fin_nonneg; assumption|assumption|lia].
Qed.

Lemma ratio_total num den : exists r, ratio num den = Ok r.
Proof.
  unfold ratio, Py.truediv.
  destruct (den =? 0)%float; cbn [negb]; eexists; reflexivity.
Qed.


(** ** Fully clamped ratios *)


Lemma SF_1 : Prim2SF 1 = S754_finite false 4503599627370496 (-52).
Proof. vm_compute. reflexivity. Qed.





Lemma leb_upper_cases x b : fin b = true -> (x <=? b)%float = true ->
  fin x = true \/ Prim2SF x = S754_infinity true.
Proof.
  unfold fin. rewrite FloatAxioms.leb_spec. unfold SFleb.
  destruct (Prim2SF x) as [s|s| |s m e], (Prim2SF b) as [s'|s'| |s' m' e'];
    cbn [sfin SFcompare]; try discriminate; auto;
    destruct s; intros _ H; try discriminate H; auto.
Qed.

Lemma leb_lower_cases a x : fin a = true -> (a <=? x)%float = true ->
  fin x = true \/ Prim2SF x = S754_infinity false.
Proof.
  unfold fin. rewrite FloatAxioms.leb_spec. unfold SFleb.
  destruct (Prim2SF a) as [s'|s'| |s' m' e'], (Prim2SF x) as [s|s| |s m e];
    cbn [sfin SFcompare]; try discriminate; auto;
    destruct s; intros _ H; try discriminate H; auto.
Qed.

Lemma ltb_upper_cases x b : fin b = true -> (x <? b)%float = true ->
  fin x = true \/ Prim2SF x = S754_infinity true.
Proof.
  unfold fin. rewrite FloatAxioms.ltb_spec. unfold SFltb.
  destruct (Prim2SF x) as [s|s| |s m e], (Prim2SF b) as [s'|s'| |s' m' e'];
    cbn [sfin SFcompare]; try discriminate; auto;
    destruct s; intros _ H; try discriminate H; auto.
Qed.




(** ** From a valid landmark set to the ratios *)

Lemma valid_landmarks_pixel image landmarks i :
  valid_landmarks image landmarks = true -> In i key_indices ->
  exists p, pixel image landmarks i = Ok p /\ point_ok p = true.
Proof.
  unfold valid_landmarks. rewrite forallb_forall. intros H Hi.
  specialize (H i Hi). destruct (pixel image landmarks i) as [p|e]; [|discriminate].
  exists p. split; [reflexivity|exact H].
Qed.

Lemma key_points_ok image landmarks :
  valid_landmarks image landmarks = true ->
  exists p, key_points image landmarks = Ok p /\ points_ok p.
Proof.
  intros V. unfold key_points.
  destruct (valid_landmarks_pixel image landmarks 33 V) as (p33 & E33 & O33); [cbn; tauto|].
  destruct (valid_landmarks_pixel image landmarks 263 V) as (p263 & E263 & O263); [cbn; tauto|].
  destruct (valid_landmarks_pixel image landmarks 1 V) as (p1 & E1 & O1); [cbn; tauto|].
  destruct (valid_landmarks_pixel image landmarks 234 V) as (p234 & E234 & O234); [cbn; tauto|].
  destruct (valid_landmarks_pixel image landmarks 454 V) as (p454 & E454 & O454); [cbn; tauto|].
  destruct (valid_landmarks_pixel image landmarks 61 V) as (p61 & E61 & O61); [cbn; tauto|].
  destruct (valid_landmarks_pixel image landmarks 291 V) as (p291 & E291 & O291); [cbn; tauto|].
  destruct (valid_landmarks_pixel image landmarks 152 V) as (p152 & E152 & O152); [cbn; tauto|].
  destruct (valid_landmarks_pixel image landmarks 10 V) as (p10 & E10 & O10); [cbn; tauto|].
  rewrite E33, E263, E1, E234, E454, E61, E291, E152, E10. cbn [result_bind].
  eexists. split; [reflexivity|].
  unfold points_ok. cbn. tauto.
Qed.

Lemma key_distances_ok pow p :
  square_not_negative pow -> square_not_above pow ->
  points_ok p -> exists d, key_distances pow p = Ok d /\ distances_ok d.
Proof.
  intros Hn Ha (O1 & O2 & O3 & O4 & O5 & O6 & O7 & O8 & O9 & O10 & O11).
  unfold key_distances.
  destruct (calculate_distance_ok pow _ _ Hn Ha O1 O2) as (d1 & E1 & H1). rewrite E1.
  destruct (calculate_distance_ok pow _ _ Hn Ha O4 O5) as (d2 & E2 & H2). rewrite E2.
  destruct (calculate_distance_ok pow _ _ Hn Ha O6 O7) as (d3 & E3 & H3). rewrite E3.
  destruct (calculate_distance_ok pow _ _ Hn Ha O10 O11) as (d4 & E4 & H4). rewrite E4.
  destruct (calculate_distance_ok pow _ _ Hn Ha O9 O1) as (d5 & E5 & H5). rewrite E5.
  destruct (calculate_distance_ok pow _ _ Hn Ha O1 O8) as (d6 & E6 & H6). rewrite E6.
  destruct (calculate_distance_ok pow _ _ Hn Ha O1 O3) as (d7 & E7 & H7). rewrite E7.
  destruct (calculate_distance_ok pow _ _ Hn Ha O3 O8) as (d8 & E8 & H8). rewrite E8.
  cbn [result_bind]. eexists. split; [reflexivity|].
  unfold distances_ok. cbn [eye_distance nose_width mouth_width face_width
    forehead_to_eyes eyes_to_chin eye_to_nose nose_to_chin]. tauto.
Qed.

Lemma ratios_of_ok d :
  distances_ok d ->
  exists r0 r1 r2 r3, ratios_of d = Ok [r0; r1; r2; r3] /\
    nonneg r0 = true /\ nonneg r1 = true /\ nonneg r2 = true /\ nonneg r3 = true.
Proof.
  intros ((F1 & B1) & (F2 & B2) & (F3 & B3) & (F4 & B4) & (F5 & B5) & (F6 & B6) & (F7 & B7) & (F8 & B8)).
  unfold ratios_of.
  destruct (ratio_ok _ _ F4 B4 F1 B1) as (r0 & E0 & N0). rewrite E0.
  destruct (ratio_ok _ _ F5 B5 F6 B6) as (r1 & E1 & N1). rewrite E1.
  destruct (ratio_ok _ _ F2 B2 F3 B3) as (r2 & E2 & N2). rewrite E2.
  destruct (ratio_ok _ _ F7 B7 F8 B8) as (r3 & E3 & N3). rewrite E3.
  cbn [result_bind]. exists r0, r1, r2, r3. tauto.
Qed.

(** Definitions for the claims *)

(** ** compute_symmetry_score on a detected face *)

Lemma compute_symmetry_score_returns pow process f2 image log res landmarks rest p d ratios s :
  process image = Ok res ->
  multi_face_landmarks res = Some (landmarks :: rest) ->
  key_points image landmarks = Ok p ->
  key_distances pow p = Ok d ->
  ratios_of d = Ok ratios ->
  symmetry_score ratios = Ok s ->
  compute_symmetry_score pow process f2 image log =
  (Ok (Py.round2 s),
   log ++ [distances_message f2 d; ratios_message f2 ratios;
           ("Symmetry Score: " ++ f2 s)%string]).
Proof.
  intros E1 E2 E3 E4 E5 E6.
  unfold compute_symmetry_score, bind, lift, logger_info, ret.
  rewrite E1, E2, E3, E4, E5, E6. rewrite <- !app_assoc. reflexivity.
Qed.

Lemma unit_dev_of_nonneg r :
  nonneg r = true -> unit_dev (Py.min (abs (r - GOLDEN_RATIO) / GOLDEN_RATIO) 1).
Proof. intros H. apply deviation_range, nonneg_notnan, H. Qed.

Lemma fval_07_pos : 0 < fval 0.7.
Proof. rewrite fval_07. pose proof W_pos. lia. Qed.

Lemma hundredths_top_three n : 70 <= n <= 100 ->
  top_three (get_symmetry_level (Py.float_of_int n / 100)%float) = true.
Proof.
  intros Hn.
  apply (forallb_zrange
           (fun n => top_three (get_symmetry_level (Py.float_of_int n / 100)%float)) 70 31);
    [vm_compute; reflexivity|lia].
Qed.

Lemma score_bounds_bool s :
  fin s = true -> fval 0.7 <= fval s <= fval 1 ->
  ((0.7 <=? s) && (s <=? 1))%float = true.
Proof.
  intros F B. rewrite (leb_fval 0.7 s fin_07 F), (leb_fval s 1 F fin_1).
  apply andb_true_intro. split; apply Z.leb_le; lia.
Qed.

Lemma rounded_top_three s :
  fin s = true -> fval 0.7 <= fval s <= fval 1 ->
  top_three (get_symmetry_level (Py.round2 s)) = true.
Proof.
  intros F B. pose proof fval_07_pos.
  destruct (round2_unit s F ltac:(lia)) as [[_ Hz]|(n & Hn & E & H7)]; [lia|].
  rewrite E. apply hundredths_top_three. specialize (H7 ltac:(lia)). lia.
Qed.

(** * The claims of the specification *)






(** C9: for every valid landmark set (the nine landmarks exist and their
    pixel coordinates are finite, of magnitude at most 2^500) the
    pipeline returns a score; the unrounded score lies in [[0.7, 1.0]]
    and the label of the returned score is one of "Divine Symmetry",
    "Elegant Harmony" and "Refined Balance", never "Natural Allure" or
    "Authentic Beauty". This holds with every [pow] of the C library
    whose squares are not negative and not above the binary64 numbers
    that bound the exact square; how [pow] rounds is not assumed. *)
Theorem pipeline_score_bounds pow process f2 image log res landmarks rest :
  square_not_negative pow -> square_not_above pow ->
  process image = Ok res ->
  multi_face_landmarks res = Some (landmarks :: rest) ->
  valid_landmarks image landmarks = true ->
  exists p d ratios s,
    key_points image landmarks = Ok p /\ key_distances pow p = Ok d /\
    ratios_of d = Ok ratios /\ symmetry_score ratios = Ok s /\
    fst (compute_symmetry_score pow process f2 image log) = Ok (Py.round2 s) /\
    ((0.7 <=? s) && (s <=? 1))%float = true /\
    top_three (get_symmetry_level (Py.round2 s)) = true.
Proof.
  intros Hn Ha E1 E2 V.
  destruct (key_points_ok image landmarks V) as (p & Ep & Op).
  destruct (key_distances_ok pow p Hn Ha Op) as (d & Ed & Od).
  destruct (ratios_of_ok d Od) as (r0 & r1 & r2 & r3 & Er & N0 & N1 & N2 & N3).
  pose proof (symmetry_score_eq r0 r1 r2 r3) as Es.
  destruct (score_range _ _ _ _ (unit_dev_of_nonneg r0 N0) (unit_dev_of_nonneg r1 N1)
              (unit_dev_of_nonneg r2 N2) (unit_dev_of_nonneg r3 N3)) as [F B].
  exists p, d, [r0; r1; r2; r3]. eexists.
  split; [exact Ep|]. split; [exact Ed|]. split; [exact Er|]. split; [exact Es|].
  split; [|split].
  - rewrite (compute_symmetry_score_returns pow process f2 image log res landmarks rest p d
               _ _ E1 E2 Ep Ed Er Es). reflexivity.
  - apply score_bounds_bool; assumption.
  - apply rounded_top_three; assumption.
Qed.

Lemma pipeline_score_bounds_witness :
  square_not_negative sample_pow /\ square_not_above sample_pow /\
  valid_landmarks sample_image sample_landmarks = true /\
  exists p d ratios s,
    key_points sample_image sample_landmarks = Ok p /\ key_distances sample_pow p = Ok d /\
    ratios_of d = Ok ratios /\ symmetry_score ratios = Ok s /\
    fst (compute_symmetry_score sample_pow sample_process sample_format_2f sample_image []) =
      Ok (Py.round2 s) /\
    ((0.7 <=? s) && (s <=? 1))%float = true /\
    top_three (get_symmetry_level (Py.round2 s)) = true.
Proof.
  split; [exact sample_pow_not_negative|]. split; [exact sample_pow_not_above|].
  split; [vm_compute; reflexivity|].
  apply (pipeline_score_bounds sample_pow sample_process sample_format_2f sample_image []
           {| multi_face_landmarks := Some [sample_landmarks] |} sample_landmarks []
           sample_pow_not_negative sample_pow_not_above);
    [reflexivity|reflexivity|vm_compute; reflexivity].
Defined.

Lemma ratios_of_components d :
  exists r0 r1 r2 r3,
    ratios_of d = Ok [r0; r1; r2; r3] /\
    ratio (face_width d) (eye_distance d) = Ok r0 /\
    ratio (forehead_to_eyes d) (eyes_to_chin d) = Ok r1 /\
    ratio (nose_width d) (mouth_width d) = Ok r2 /\
    ratio (eye_to_nose d) (nose_to_chin d) = Ok r3.
Proof.
  unfold ratios_of.
  destruct (ratio_total (face_width d) (eye_distance d)) as [r0 E0].
  destruct (ratio_total (forehead_to_eyes d) (eyes_to_chin d)) as [r1 E1].
  destruct (ratio_total (nose_width d) (mouth_width d)) as [r2 E2].
  destruct (ratio_total (eye_to_nose d) (nose_to_chin d)) as [r3 E3].
  rewrite E0, E1, E2, E3. cbn [result_bind].
  exists r0, r1, r2, r3. repeat split; reflexivity.
Qed.

Lemma ratio_zero_denominator num den r :
  ratio num den = Ok r -> (den =? 0)%float = true -> r = 1%float.
Proof.
  unfold ratio. intros E H. rewrite H in E. cbn [negb] in E.
  injection E as <-. reflexivity.
Qed.

(** C4: for every set of distances the four ratios are computed without
    an exception (no [ZeroDivisionError] in particular), and a ratio whose
    denominator distance is exactly 0 is 1.0. *)
Theorem ratios_never_divide_by_zero (d : Distances) :
  exists r0 r1 r2 r3,
    ratios_of d = Ok [r0; r1; r2; r3] /\
    ((eye_distance d =? 0)%float = true -> r0 = 1%float) /\
    ((eyes_to_chin d =? 0)%float = true -> r1 = 1%float) /\
    ((mouth_width d =? 0)%float = true -> r2 = 1%float) /\
    ((nose_to_chin d =? 0)%float = true -> r3 = 1%float).
Proof.
  destruct (ratios_of_components d) as (r0 & r1 & r2 & r3 & E & E0 & E1 & E2 & E3).
  exists r0, r1, r2, r3. split; [exact E|].
  repeat split; eauto using ratio_zero_denominator.
Qed.

(** C10: whenever the key points and distances of a landmark set are
    computed, [face_width] equals [nose_width], so the first ratio is
    [nose_width / eye_distance] (with the same zero-denominator
    fallback). *)
Theorem face_width_is_nose_width pow image landmarks p d :
  key_points image landmarks = Ok p ->
  key_distances pow p = Ok d ->
  face_width d = nose_width d /\
  ratio (face_width d) (eye_distance d) = ratio (nose_width d) (eye_distance d) /\
  exists r0 r1 r2 r3, ratios_of d = Ok [r0; r1; r2; r3] /\
                      ratio (nose_width d) (eye_distance d) = Ok r0.
Proof.
  intros Ep Ed.
  assert (Hedge : left_face_edge p = nose_left p /\ right_face_edge p = nose_right p).
  { revert Ep. unfold key_points.
    destruct (pixel image landmarks 33); cbn [result_bind]; [|discriminate].
    destruct (pixel image landmarks 263); cbn [result_bind]; [|discriminate].
    destruct (pixel image landmarks 1); cbn [result_bind]; [|discriminate].
    destruct (pixel image landmarks 234); cbn [result_bind]; [|discriminate].
    destruct (pixel image landmarks 454); cbn [result_bind]; [|discriminate].
    destruct (pixel image landmarks 61); cbn [result_bind]; [|discriminate].
    destruct (pixel image landmarks 291); cbn [result_bind]; [|discriminate].
    destruct (pixel image landmarks 152); cbn [result_bind]; [|discriminate].
    destruct (pixel image landmarks 10); cbn [result_bind]; [|discriminate].
    intros H. injection H as <-. split; reflexivity. }
  destruct Hedge as [Hl Hr].
  assert (Hw : face_width d = nose_width d).
  { revert Ed. unfold key_distances. rewrite Hl, Hr.
    destruct (calculate_distance pow (left_eye p) (right_eye p)); cbn [result_bind]; [|discriminate].
    destruct (calculate_distance pow (nose_left p) (nose_right p)); cbn [result_bind]; [|discriminate].
    destruct (calculate_distance pow (mouth_left p) (mouth_right p)); cbn [result_bind]; [|discriminate].
    destruct (calculate_distance pow (forehead p) (left_eye p)); cbn [result_bind]; [|discriminate].
    destruct (calculate_distance pow (left_eye p) (chin p)); cbn [result_bind]; [|discriminate].
    destruct (calculate_distance pow (left_eye p) (nose_tip p)); cbn [result_bind]; [|discriminate].
    destruct (calculate_distance pow (nose_tip p) (chin p)); cbn [result_bind]; [|discriminate].
    intros H. injection H as <-. reflexivity. }
  split; [exact Hw|]. split; [rewrite Hw; reflexivity|].
  destruct (ratios_of_components d) as (r0 & r1 & r2 & r3 & E & E0 & _).
  exists r0, r1, r2, r3. split; [exact E|]. rewrite <- Hw. exact E0.
Qed.

Lemma face_width_is_nose_width_witness :
  key_points sample_image sample_landmarks = Ok sample_points /\
  key_distances sample_pow sample_points = Ok sample_distances /\
  face_width sample_distances = nose_width sample_distances.
Proof.
  assert (Ep : key_points sample_image sample_landmarks = Ok sample_points)
    by (vm_compute; reflexivity).
  assert (Ed : key_distances sample_pow sample_points = Ok sample_distances)
    by (vm_compute; reflexivity).
  split; [exact Ep|]. split; [exact Ed|].
  exact (proj1 (face_width_is_nose_width sample_pow sample_image sample_landmarks
                  sample_points sample_distances Ep Ed)).
Defined.

Lemma fin_40 : fin 40 = true. Proof. reflexivity. Qed.
Lemma fin_60 : fin 60 = true. Proof. reflexivity. Qed.
Lemma fin_75 : fin 75 = true. Proof. reflexivity. Qed.
Lemma fin_90 : fin 90 = true. Proof. reflexivity. Qed.
Lemma fin_100 : fin 100 = true. Proof. reflexivity. Qed.

Lemma thresholds :
  0 < fval 40 /\ fval 40 < fval 60 /\ fval 60 < fval 75 /\ fval 75 < fval 90 /\
  fval 90 < fval 100.
Proof. vm_compute. repeat split; reflexivity. Qed.

Lemma between_fin a b p :
  fin a = true -> fin b = true ->
  (a <=? p)%float = true -> ((p <? b) || (p <=? b))%float = true -> fin p = true.
Proof.
  intros Fa Fb H1 H2.
  destruct (leb_lower_cases a p Fa H1) as [F|E1]; [exact F|].
  apply orb_prop in H2. destruct H2 as [H2|H2].
  - destruct (ltb_upper_cases p b Fb H2) as [F|E2]; [exact F|congruence].
  - destruct (leb_upper_cases p b Fb H2) as [F|E2]; [exact F|congruence].
Qed.

Ltac band_fin a b :=
  match goal with
  | H : (_ && _)%bool = true |- _ =>
      let H1 := fresh "H1" in let H2 := fresh "H2" in
      apply andb_prop in H; destruct H as [H1 H2];
      assert (Fp : fin _ = true)
        by (apply (between_fin a b _ ltac:(reflexivity) ltac:(reflexivity) H1);
            rewrite H2; auto using orb_true_r);
      rewrite leb_fval in H1 by (assumption || reflexivity);
      rewrite ?ltb_fval, ?leb_fval in H2 by (assumption || reflexivity);
      apply Z.leb_le in H1;
      first [apply Z.ltb_lt in H2 | apply Z.leb_le in H2]
  end.

Ltac decide_bands Fp :=
  rewrite ?(leb_fval 90 _ fin_90 Fp), ?(leb_fval _ 100 Fp fin_100),
          ?(leb_fval 75 _ fin_75 Fp), ?(ltb_fval _ 90 Fp fin_90),
          ?(leb_fval 60 _ fin_60 Fp), ?(ltb_fval _ 75 Fp fin_75),
          ?(leb_fval 40 _ fin_40 Fp), ?(ltb_fval _ 60 Fp fin_60);
  pose proof thresholds;
  repeat match goal with
    | |- context [Z.leb ?a ?b] => destruct (Z.leb_spec a b); try lia
    | |- context [Z.ltb ?a ?b] => destruct (Z.ltb_spec a b); try lia
    end;
  try reflexivity.

(** C3: the level classifier, applied to [score * 100], answers "Divine
    Symmetry" on [[90,100]], "Elegant Harmony" on [[75,90)], "Refined
    Balance" on [[60,75)], "Natural Allure" on [[40,60)] and "Authentic
    Beauty" on [[0,40)], up to the decorative suffix; in particular at
    90.0, 89.999, 40.0 and 39.999. *)
Theorem level_bands (score : float) :
  let p := (score * 100)%float in
  (((90 <=? p) && (p <=? 100))%float = true ->
     has_label "Divine Symmetry" (get_symmetry_level score) = true) /\
  (((75 <=? p) && (p <? 90))%float = true ->
     has_label "Elegant Harmony" (get_symmetry_level score) = true) /\
  (((60 <=? p) && (p <? 75))%float = true ->
     has_label "Refined Balance" (get_symmetry_level score) = true) /\
  (((40 <=? p) && (p <? 60))%float = true ->
     has_label "Natural Allure" (get_symmetry_level score) = true) /\
  (((0 <=? p) && (p <? 40))%float = true ->
     has_label "Authentic Beauty" (get_symmetry_level score) = true) /\
  (p = 90%float -> has_label "Divine Symmetry" (get_symmetry_level score) = true) /\
  (p = 89.999%float -> has_label "Elegant Harmony" (get_symmetry_level score) = true) /\
  (p = 40%float -> has_label "Natural Allure" (get_symmetry_level score) = true) /\
  (p = 39.999%float -> has_label "Authentic Beauty" (get_symmetry_level score) = true).
Proof.
  intros p. unfold get_symmetry_level. cbv zeta. fold p. clearbody p.
  repeat split; intros H.
  - rewrite H. reflexivity.
  - band_fin 75%float 90%float. decide_bands Fp.
  - band_fin 60%float 75%float. decide_bands Fp.
  - band_fin 40%float 60%float. decide_bands Fp.
  - band_fin 0%float 40%float. rewrite fval_0 in *. decide_bands Fp.
  - rewrite H. vm_compute. reflexivity.
  - rewrite H. vm_compute. reflexivity.
  - rewrite H. vm_compute. reflexivity.
  - rewrite H. vm_compute. reflexivity.
Qed.

Lemma level_bands_witness :
  has_label "Divine Symmetry" (get_symmetry_level 0.9) = true /\
  has_label "Elegant Harmony" (get_symmetry_level 0.89999) = true /\
  has_label "Natural Allure" (get_symmetry_level 0.4) = true /\
  has_label "Authentic Beauty" (get_symmetry_level 0.39999) = true.
Proof.
  split; [|split; [|split]].
  - destruct (level_bands 0.9) as (_ & _ & _ & _ & _ & H & _).
    apply H. vm_compute. reflexivity.
  - destruct (level_bands 0.89999) as (_ & _ & _ & _ & _ & _ & H & _).
    apply H. vm_compute. reflexivity.
  - destruct (level_bands 0.4) as (_ & _ & _ & _ & _ & _ & _ & H & _).
    apply H. vm_compute. reflexivity.
  - destruct (level_bands 0.39999) as (_ & _ & _ & _ & _ & _ & _ & _ & H).
    apply H. vm_compute. reflexivity.
Defined.

Lemma key_points_size image1 image2 landmarks :
  width image1 = width image2 -> height image1 = height image2 ->
  key_points image1 landmarks = key_points image2 landmarks.
Proof. intros Hw Hh. unfold key_points, pixel. rewrite Hw, Hh. reflexivity. Qed.

(** C8: the outcome of the score computation (the score or the
    exception) and the records it logs depend only on the landmarks of
    the first face and on the image's width and height: not on the
    pixels, the other faces, the provider or the log so far. Floats are
    compared with Leibniz equality, that is bit for bit. *)
Theorem score_depends_only_on_landmarks pow
    process1 process2 f2 image1 image2 log1 log2 res1 res2 landmarks rest1 rest2 :
  process1 image1 = Ok res1 -> process2 image2 = Ok res2 ->
  multi_face_landmarks res1 = Some (landmarks :: rest1) ->
  multi_face_landmarks res2 = Some (landmarks :: rest2) ->
  width image1 = width image2 -> height image1 = height image2 ->
  exists out entries,
    compute_symmetry_score pow process1 f2 image1 log1 = (out, log1 ++ entries) /\
    compute_symmetry_score pow process2 f2 image2 log2 = (out, log2 ++ entries).
Proof.
  intros E1 E2 M1 M2 Hw Hh.
  unfold compute_symmetry_score, bind, lift, logger_info, ret.
  rewrite E1, E2, M1, M2, (key_points_size image1 image2 landmarks Hw Hh).
  destruct (key_points image2 landmarks) as [p|e];
    [|exists (Raise e), []; rewrite !app_nil_r; split; reflexivity].
  destruct (key_distances pow p) as [d|e];
    [|exists (Raise e), []; rewrite !app_nil_r; split; reflexivity].
  destruct (ratios_of d) as [ratios|e];
    [|exists (Raise e), [distances_message f2 d]; split; reflexivity].
  destruct (symmetry_score ratios) as [s|e].
  - exists (Ok (Py.round2 s)),
      [distances_message f2 d; ratios_message f2 ratios; ("Symmetry Score: " ++ f2 s)%string].
    rewrite <- !app_assoc. split; reflexivity.
  - exists (Raise e), [distances_message f2 d; ratios_message f2 ratios].
    rewrite <- !app_assoc. split; reflexivity.
Qed.

Lemma score_depends_only_on_landmarks_witness :
  width sample_image = width other_image /\
  height sample_image = height other_image /\
  exists out entries,
    compute_symmetry_score sample_pow sample_process sample_format_2f sample_image [] =
      (out, [] ++ entries) /\
    compute_symmetry_score sample_pow other_process sample_format_2f other_image
      ["earlier record"%string] = (out, ["earlier record"%string] ++ entries).
Proof.
  split; [reflexivity|]. split; [reflexivity|].
  apply (score_depends_only_on_landmarks sample_pow sample_process other_process sample_format_2f
           sample_image other_image [] ["earlier record"%string]
           {| multi_face_landmarks := Some [sample_landmarks] |}
           {| multi_face_landmarks := Some [sample_landmarks; []] |}
           sample_landmarks [] [[]]); reflexivity.
Defined.

(** C1 (what the code does): an upload with an image content type in
    which no face is detected is answered with status 500 and the detail
    "Error processing image: ..." wrapping the 400 exception, because the
    handler's [except Exception] catches the [HTTPException] raised by
    [compute_symmetry_score]. *)
Theorem no_face_is_answered_with_500 pow process open f2 str file ct image res log :
  content_type file = Some ct ->
  String.prefix "image/" ct = true ->
  open (contents file) = Ok image ->
  process image = Ok res ->
  multi_face_landmarks res = None \/ multi_face_landmarks res = Some [] ->
  analyze_image pow process open f2 str file log =
  (Raise (HTTPException 500
            ("Error processing image: "
             ++ str (HTTPException 400 "No face detected in the image"))), log).
Proof.
  intros Ec Hp Eo Er Hm.
  unfold analyze_image. rewrite Ec, Hp. cbn [negb].
  unfold try_except_Exception, compute_symmetry_score, bind, lift, raise.
  rewrite Eo, Er. destruct Hm as [-> | ->]; reflexivity.
Qed.

Lemma no_face_is_answered_with_500_witness :
  String.prefix "image/" "image/png" = true /\
  analyze_image sample_pow no_face_process sample_open sample_format_2f sample_str png_upload [] =
  (Raise (HTTPException 500
            "Error processing image: 400: No face detected in the image"), []).
Proof.
  split; [reflexivity|].
  apply (no_face_is_answered_with_500 sample_pow no_face_process sample_open sample_format_2f
           sample_str png_upload "image/png" sample_image
           {| multi_face_landmarks := None |} []);
    [reflexivity|reflexivity|reflexivity|reflexivity|left; reflexivity].
Defined.

(** C7 (what the code does): an upload without a content type does not
    start with "image/" either, and it is not answered with the 400
    "File must be an image": line 125 calls [startswith] on [None],
    which raises [AttributeError] before the test, outside the [try];
    nothing is logged. An upload that has a content type is rejected
    as the claim says. *)
Theorem untyped_upload_raises_attribute_error pow process open f2 str file log :
  content_type file = None ->
  analyze_image pow process open f2 str file log =
  (Raise (AttributeError "'NoneType' object has no attribute 'startswith'"), log).
Proof.
  intros Ec. unfold analyze_image. rewrite Ec. reflexivity.
Qed.

Lemma untyped_upload_raises_attribute_error_witness :
  content_type untyped_upload = None /\
  analyze_image sample_pow sample_process sample_open sample_format_2f sample_str
    untyped_upload [] =
  (Raise (AttributeError "'NoneType' object has no attribute 'startswith'"), []).
Proof.
  split; [reflexivity|].
  apply (untyped_upload_raises_attribute_error sample_pow sample_process sample_open
           sample_format_2f sample_str untyped_upload []). reflexivity.
Defined.

(** * Lemmas for the further properties *)

(** ** Signs: negating the exact result negates the rounded one *)












(** ** [x ** 2] and the distance *)


Lemma szero_fin x : szero (Prim2SF x) = true -> fin x = true.
Proof. unfold fin. destruct (Prim2SF x); cbn; congruence. Qed.

Lemma pow2_of_zero pow x : (x =? 0)%float = true -> Py.pow2 pow x = Ok 0%float.
Proof.
  intros H. pose proof H as Z. rewrite eqb_0_szero in Z. apply szero_fin in Z.
  unfold Py.pow2. rewrite (is_nan_fin x Z), (is_infinity_fin x Z), H. reflexivity.
Qed.


Lemma sub_self_zero x : fin x = true -> (x - x =? 0)%float = true.
Proof.
  intros F.
  destruct (sub_bounds x x 0 0 F F fin_0 fin_0) as [Fd Bd].
  { rewrite fval_0. lia. }
  rewrite fval_0 in Bd.
  rewrite (eqb_fval _ 0 Fd fin_0), fval_0. apply Z.eqb_eq. lia.
Qed.

Lemma sqrt_0_0 : Py.sqrt (0 + 0) = Ok 0%float.
Proof. vm_compute. reflexivity. Qed.

Lemma calculate_distance_self pow p :
  fin (fst p) = true -> fin (snd p) = true -> calculate_distance pow p p = Ok 0%float.
Proof.
  intros Fx Fy. unfold calculate_distance.
  rewrite (pow2_of_zero pow _ (sub_self_zero _ Fx)), (pow2_of_zero pow _ (sub_self_zero _ Fy)).
  cbn [result_bind]. exact sqrt_0_0.
Qed.

(** ** Non-negative numbers *)

Lemma nonneg_leb x : nonneg x = true -> (0 <=? x)%float = true.
Proof.
  intros H. destruct (nonneg_cases x H) as [[F B]|E].
  - rewrite (leb_fval 0 x fin_0 F), fval_0. apply Z.leb_le, B.
  - rewrite FloatAxioms.leb_spec, SF_0, E. reflexivity.
Qed.

Lemma fin_of_flags x : is_nan x = false -> is_infinity x = false -> fin x = true.
Proof.
  rewrite is_nan_notnan. unfold notnan, is_infinity, fin.
  rewrite FloatAxioms.eqb_spec, abs_spec, SF_inf.
  destruct (Prim2SF x) as [s|s| |s m e]; cbn; congruence.
Qed.

Lemma SFadd_nonneg x y :
  snonneg x = true -> snonneg y = true -> snonneg (SFadd prec emax x y) = true.
Proof.
  destruct x as [sx|sx| |sx mx ex], y as [sy|sy| |sy my ey]; cbn [snonneg SFadd];
    try discriminate; try (destruct sx; try discriminate); try (destruct sy; try discriminate);
    try reflexivity; intros _ _.
  cbv zeta. cbn [cond_Zopp]. rewrite <- Pos2Z.inj_add. cbn [binary_normalize].
  unfold binary_round. destruct (shl_align _ _ _) as [mz ez].
  pose proof (round_shape false (Zpos mz) ez loc_Exact ltac:(lia)) as H.
  destruct (binary_round_aux prec emax false (Zpos mz) ez loc_Exact);
    try contradiction; subst; reflexivity.
Qed.

Lemma add_nonneg x y : nonneg x = true -> nonneg y = true -> nonneg (x + y) = true.
Proof. unfold nonneg. rewrite add_spec. apply SFadd_nonneg. Qed.

Lemma sqrt_nonneg x : nonneg x = true -> nonneg (sqrt x) = true.
Proof.
  intros H. destruct (nonneg_cases x H) as [[F B]|E].
  - destruct (sqrt_fin x F B) as [Fr Br]. apply fin_nonneg; assumption.
  - unfold nonneg. rewrite sqrt_spec, E. reflexivity.
Qed.

Lemma sqrt_nan x : notnan x = false -> notnan (sqrt x) = false.
Proof.
  unfold notnan. rewrite sqrt_spec. destruct (Prim2SF x); cbn; congruence.
Qed.

(** ** Outcomes of [x ** 2], [math.sqrt] and the distance *)

Lemma pow2_raises pow x :
  match Py.pow2 pow x with
  | Ok _ => True
  | Raise e => e = OverflowError "(34, 'Numerical result out of range')"
  end.
Proof.
  unfold Py.pow2. cbv zeta.
  destruct (is_nan x); [exact I|]. destruct (is_infinity x); [exact I|].
  destruct (x =? 0)%float; [exact I|].
  destruct (_ =? 1)%float; [exact I|].
  destruct (is_infinity _); [reflexivity|exact I].
Qed.

Lemma pow2_cases pow x :
  square_not_negative pow ->
  Py.pow2 pow x = Raise (OverflowError "(34, 'Numerical result out of range')") \/
  exists v, Py.pow2 pow x = Ok v /\ (notnan v = false \/ nonneg v = true).
Proof.
  intros Hn.
  destruct (is_nan x) eqn:N.
  { right. exists x. split; [unfold Py.pow2; rewrite N; reflexivity|]. left.
    rewrite is_nan_notnan in N. apply negb_true_iff in N. exact N. }
  destruct (is_infinity x) eqn:I.
  { right. exists infinity.
    split; [unfold Py.pow2; rewrite N, I; reflexivity|]. right. reflexivity. }
  pose proof (fin_of_flags x N I) as F.
  destruct (x =? 0)%float eqn:Z.
  { right. exists 0%float.
    split; [unfold Py.pow2; rewrite N, I, Z; reflexivity|]. right. reflexivity. }
  rewrite (pow2_general pow x F Z).
  destruct (abs_nonzero x F Z) as (Fa & Pa & _).
  destruct (abs x =? 1)%float.
  { right. exists 1%float. split; [reflexivity|]. right. reflexivity. }
  destruct (is_infinity (pow (abs x) 2%float)).
  { left. reflexivity. }
  right. eexists. split; [reflexivity|]. right. apply Hn; assumption.
Qed.

Lemma sqrt_of_nonneg x : nonneg x = true ->
  Py.sqrt x = Ok (sqrt x) /\ nonneg (sqrt x) = true.
Proof.
  intros H. pose proof (sqrt_nonneg x H) as Hr.
  split; [|exact Hr]. unfold Py.sqrt.
  rewrite (is_nan_notnan (sqrt x)), (nonneg_notnan _ Hr). reflexivity.
Qed.

Lemma sqrt_of_nan x : notnan x = false ->
  Py.sqrt x = Ok (sqrt x) /\ notnan (sqrt x) = false.
Proof.
  intros H. split; [|apply sqrt_nan, H]. unfold Py.sqrt.
  rewrite (is_nan_notnan x), H. cbn [negb]. rewrite andb_false_r. reflexivity.
Qed.

Lemma calculate_distance_raises pow p1 p2 :
  match calculate_distance pow p1 p2 with
  | Ok _ => True
  | Raise e => e = OverflowError "(34, 'Numerical result out of range')" \/ e = ValueError "math domain error"
  end.
Proof.
  unfold calculate_distance.
  pose proof (pow2_raises pow (fst p2 - fst p1)) as H1.
  destruct (Py.pow2 pow (fst p2 - fst p1)) as [v1|e1]; cbn [result_bind];
    [|left; exact H1].
  pose proof (pow2_raises pow (snd p2 - snd p1)) as H2.
  destruct (Py.pow2 pow (snd p2 - snd p1)) as [v2|e2]; cbn [result_bind];
    [|left; exact H2].
  unfold Py.sqrt. destruct (is_nan _ && negb _); [right; reflexivity|exact I].
Qed.

Lemma calculate_distance_cases pow p1 p2 :
  square_not_negative pow ->
  calculate_distance pow p1 p2 = Raise (OverflowError "(34, 'Numerical result out of range')") \/
  exists d, calculate_distance pow p1 p2 = Ok d /\ (notnan d = false \/ nonneg d = true).
Proof.
  intros Hn. unfold calculate_distance.
  destruct (pow2_cases pow (fst p2 - fst p1) Hn) as [E1|(v1 & E1 & H1)]; rewrite E1;
    cbn [result_bind]; [left; reflexivity|].
  destruct (pow2_cases pow (snd p2 - snd p1) Hn) as [E2|(v2 & E2 & H2)]; rewrite E2;
    cbn [result_bind]; [left; reflexivity|].
  right. exists (sqrt (v1 + v2)).
  destruct H1 as [H1|H1].
  { destruct (sqrt_of_nan (v1 + v2) (add_nan_l v1 v2 H1)) as [E N]. auto. }
  destruct H2 as [H2|H2].
  { destruct (sqrt_of_nan (v1 + v2) (add_nan_r v1 v2 H2)) as [E N]. auto. }
  destruct (sqrt_of_nonneg (v1 + v2) (add_nonneg _ _ H1 H2)) as [E N]. auto.
Qed.

(** ** Levels *)

Lemma hundredths_level n : 0 <= n <= 100 ->
  has_label (level_of_hundredths n)
    (get_symmetry_level (Py.float_of_int n / 100)%float) = true.
Proof.
  intros Hn.
  apply (forallb_zrange
           (fun n => has_label (level_of_hundredths n)
                       (get_symmetry_level (Py.float_of_int n / 100)%float)) 0 101);
    [vm_compute; reflexivity|lia].
Qed.

Lemma ltb_lower_cases a x : fin a = true -> (a <? x)%float = true ->
  fin x = true \/ Prim2SF x = S754_infinity false.
Proof.
  unfold fin. rewrite FloatAxioms.ltb_spec. unfold SFltb.
  destruct (Prim2SF a) as [s'|s'| |s' m' e'], (Prim2SF x) as [s|s| |s m e];
    cbn [sfin SFcompare]; try discriminate; auto;
    destruct s; intros _ H; try discriminate H; auto.
Qed.

Lemma SF_neg_inf : Prim2SF neg_infinity = S754_infinity true.
Proof. vm_compute. reflexivity. Qed.

Lemma level_above_100 score :
  (100 <? score * 100)%float = true ->
  has_label "Authentic Beauty" (get_symmetry_level score) = true.
Proof.
  intros H. unfold get_symmetry_level. cbv zeta.
  set (p := (score * 100)%float) in *.
  destruct (ltb_lower_cases 100 p fin_100 H) as [Fp|E].
  - clearbody p. rewrite (ltb_fval 100 p fin_100 Fp) in H. apply Z.ltb_lt in H.
    decide_bands Fp.
  - assert (Ep : p = infinity) by (apply Prim2SF_inj; rewrite E, SF_inf; reflexivity).
    clearbody p. subst p. vm_compute. reflexivity.
Qed.

Lemma level_below_0 score :
  (score * 100 <? 0)%float = true ->
  has_label "Authentic Beauty" (get_symmetry_level score) = true.
Proof.
  intros H. unfold get_symmetry_level. cbv zeta.
  set (p := (score * 100)%float) in *.
  destruct (ltb_upper_cases p 0 fin_0 H) as [Fp|E].
  - clearbody p. rewrite (ltb_fval p 0 Fp fin_0), fval_0 in H. apply Z.ltb_lt in H.
    decide_bands Fp.
  - assert (Ep : p = neg_infinity) by (apply Prim2SF_inj; rewrite E, SF_neg_inf; reflexivity).
    clearbody p. subst p. vm_compute. reflexivity.
Qed.

Lemma level_of_nan score :
  is_nan (score * 100)%float = true ->
  has_label "Authentic Beauty" (get_symmetry_level score) = true.
Proof.
  intros H. rewrite is_nan_notnan in H. apply negb_true_iff in H.
  unfold get_symmetry_level. cbv zeta.
  set (p := (score * 100)%float) in *. clearbody p.
  rewrite !(leb_nan_r _ p H). cbn [andb]. reflexivity.
Qed.

(** ** The landmarks the code reads *)

Lemma pixel_cases image landmarks i :
  match pixel image landmarks i with
  | Ok _ => (i < length landmarks)%nat
  | Raise e => e = IndexError "list index out of range" /\ (length landmarks <= i)%nat
  end.
Proof.
  unfold pixel, getitem. destruct (nth_error landmarks i) eqn:E; cbn [result_bind].
  - apply nth_error_Some. congruence.
  - split; [reflexivity|apply nth_error_None, E].
Qed.

Lemma key_points_cases image landmarks :
  match key_points image landmarks with
  | Ok _ => (455 <= length landmarks)%nat
  | Raise e => e = IndexError "list index out of range" /\ (length landmarks < 455)%nat
  end.
Proof.
  unfold key_points.
  repeat match goal with
  | |- context [pixel image landmarks ?i] =>
      let H := fresh "H" in
      pose proof (pixel_cases image landmarks i) as H;
      destruct (pixel image landmarks i); cbn [result_bind];
      [|destruct H; split; [assumption|lia]]
  end.
  lia.
Qed.

Lemma pixel_same image1 image2 l1 l2 i :
  width image1 = width image2 -> height image1 = height image2 ->
  option_map xy (nth_error l1 i) = option_map xy (nth_error l2 i) ->
  pixel image1 l1 i = pixel image2 l2 i.
Proof.
  intros Hw Hh H. unfold pixel, getitem. rewrite Hw, Hh.
  destruct (nth_error l1 i) as [a|], (nth_error l2 i) as [b|]; cbn [option_map] in H;
    try discriminate H; [|reflexivity].
  injection H as Hx Hy. cbn [result_bind]. rewrite Hx, Hy. reflexivity.
Qed.

Lemma key_points_same image1 image2 l1 l2 :
  width image1 = width image2 -> height image1 = height image2 ->
  same_key_landmarks l1 l2 ->
  key_points image1 l1 = key_points image2 l2.
Proof.
  intros Hw Hh S. unfold key_points.
  rewrite (pixel_same image1 image2 l1 l2 33 Hw Hh), (pixel_same image1 image2 l1 l2 263 Hw Hh),
    (pixel_same image1 image2 l1 l2 1 Hw Hh), (pixel_same image1 image2 l1 l2 234 Hw Hh),
    (pixel_same image1 image2 l1 l2 454 Hw Hh), (pixel_same image1 image2 l1 l2 61 Hw Hh),
    (pixel_same image1 image2 l1 l2 291 Hw Hh), (pixel_same image1 image2 l1 l2 152 Hw Hh),
    (pixel_same image1 image2 l1 l2 10 Hw Hh);
    try reflexivity; apply S; cbn; tauto.
Qed.

(** ** Scores *)


Lemma hundredths_0 : Py.round2 0 = (Py.float_of_int 0 / 100)%float.
Proof. vm_compute. reflexivity. Qed.

Lemma returned_score_hundredths r0 r1 r2 r3 :
  exists s n, symmetry_score [r0; r1; r2; r3] = Ok s /\ 0 <= n <= 100 /\
              Py.round2 s = (Py.float_of_int n / 100)%float.
Proof.
  set (d0 := Py.min (abs (r0 - GOLDEN_RATIO) / GOLDEN_RATIO) 1).
  set (d1 := Py.min (abs (r1 - GOLDEN_RATIO) / GOLDEN_RATIO) 1).
  set (d2 := Py.min (abs (r2 - GOLDEN_RATIO) / GOLDEN_RATIO) 1).
  set (d3 := Py.min (abs (r3 - GOLDEN_RATIO) / GOLDEN_RATIO) 1).
  exists (score_of_deviations d0 d1 d2 d3).
  assert (Hnan : notnan d0 = false \/ notnan d1 = false \/ notnan d2 = false \/
                 notnan d3 = false ->
                 Py.round2 (score_of_deviations d0 d1 d2 d3) = (Py.float_of_int 0 / 100)%float).
  { intros H. rewrite (score_nan d0 d1 d2 d3 H). exact hundredths_0. }
  destruct (notnan r0) eqn:N0;
    [|exists 0; split; [apply symmetry_score_eq|]; split; [lia|];
      apply Hnan; left; apply deviation_nan, N0].
  destruct (notnan r1) eqn:N1;
    [|exists 0; split; [apply symmetry_score_eq|]; split; [lia|];
      apply Hnan; right; left; apply deviation_nan, N1].
  destruct (notnan r2) eqn:N2;
    [|exists 0; split; [apply symmetry_score_eq|]; split; [lia|];
      apply Hnan; right; right; left; apply deviation_nan, N2].
  destruct (notnan r3) eqn:N3;
    [|exists 0; split; [apply symmetry_score_eq|]; split; [lia|];
      apply Hnan; right; right; right; apply deviation_nan, N3].
  destruct (score_range d0 d1 d2 d3) as [F B]; try (apply deviation_range; assumption).
  pose proof fval_07_pos.
  destruct (round2_unit _ F ltac:(lia)) as [[_ Hz]|(n & Hn & E & _)]; [lia|].
  exists n. split; [apply symmetry_score_eq|]. split; [exact Hn|exact E].
Qed.

(** ** The outcomes of compute_symmetry_score *)

Lemma compute_symmetry_score_cases pow process f2 image log :
  (exists res landmarks rest p d ratios s,
      process image = Ok res /\
      multi_face_landmarks res = Some (landmarks :: rest) /\
      key_points image landmarks = Ok p /\ key_distances pow p = Ok d /\
      ratios_of d = Ok ratios /\ symmetry_score ratios = Ok s /\
      (exists n, 0 <= n <= 100 /\ Py.round2 s = (Py.float_of_int n / 100)%float) /\
      compute_symmetry_score pow process f2 image log =
      (Ok (Py.round2 s),
       log ++ [distances_message f2 d; ratios_message f2 ratios;
               ("Symmetry Score: " ++ f2 s)%string])) \/
  (exists e, compute_symmetry_score pow process f2 image log = (Raise e, log)).
Proof.
  destruct (process image) as [res|e] eqn:E1.
  2:{ right. exists e. unfold compute_symmetry_score, bind, lift. rewrite E1. reflexivity. }
  destruct (multi_face_landmarks res) as [[|landmarks rest]|] eqn:E2.
  1,3: right; eexists; unfold compute_symmetry_score, bind, lift, raise;
       rewrite E1, E2; reflexivity.
  destruct (key_points image landmarks) as [p|e] eqn:E3.
  2:{ right. exists e. unfold compute_symmetry_score, bind, lift.
      rewrite E1, E2, E3. reflexivity. }
  destruct (key_distances pow p) as [d|e] eqn:E4.
  2:{ right. exists e. unfold compute_symmetry_score, bind, lift.
      rewrite E1, E2, E3, E4. reflexivity. }
  destruct (ratios_of_components d) as (r0 & r1 & r2 & r3 & E5 & _).
  destruct (returned_score_hundredths r0 r1 r2 r3) as (s & n & E6 & Hn & En).
  left. exists res, landmarks, rest, p, d, [r0; r1; r2; r3], s.
  split; [reflexivity|]. split; [exact E2|]. split; [exact E3|].
  split; [exact E4|]. split; [exact E5|]. split; [exact E6|].
  split; [exists n; split; assumption|].
  apply (compute_symmetry_score_returns pow process f2 image log res landmarks rest p d
           _ _ E1 E2 E3 E4 E5 E6).
Qed.

(** ** Distances of the key points *)

Lemma key_distances_raises pow p :
  match key_distances pow p with
  | Ok _ => True
  | Raise e => e = OverflowError "(34, 'Numerical result out of range')" \/ e = ValueError "math domain error"
  end.
Proof.
  unfold key_distances.
  repeat match goal with
  | |- context [calculate_distance pow ?a ?b] =>
      let H := fresh "H" in
      pose proof (calculate_distance_raises pow a b) as H;
      destruct (calculate_distance pow a b); cbn [result_bind]; [clear H|exact H]
  end.
  exact I.
Qed.

Lemma key_distances_cases pow p :
  square_not_negative pow ->
  match key_distances pow p with
  | Ok _ => True
  | Raise e => e = OverflowError "(34, 'Numerical result out of range')"
  end.
Proof.
  intros Hn. unfold key_distances.
  repeat match goal with
  | |- context [calculate_distance pow ?a ?b] =>
      let H := fresh "H" in
      destruct (calculate_distance_cases pow a b Hn) as [H|(? & H & _)];
      rewrite H; cbn [result_bind]; [reflexivity|]
  end.
  exact I.
Qed.

Lemma nan_eq d : notnan d = false -> d = nan.
Proof.
  unfold notnan. intros H. apply Prim2SF_inj.
  destruct (Prim2SF d); try discriminate H. vm_compute. reflexivity.
Qed.

Lemma sub_self_nan x : fin x = false -> notnan (x - x) = false.
Proof.
  unfold fin, notnan. rewrite sub_spec. unfold SF64sub.
  destruct (Prim2SF x) as [s|s| |s m e]; cbn [sfin SFsub]; try discriminate; intros _;
    [destruct s|]; reflexivity.
Qed.

Lemma pow2_of_nan pow x : notnan x = false -> Py.pow2 pow x = Ok x.
Proof.
  intros H. unfold Py.pow2. rewrite is_nan_notnan, H. reflexivity.
Qed.

Lemma pow2_sub_self pow x :
  exists v, Py.pow2 pow (x - x) = Ok v /\
            (fin x = true -> v = 0%float) /\ (fin x = false -> notnan v = false).
Proof.
  destruct (fin x) eqn:F.
  - exists 0%float. split; [apply pow2_of_zero, sub_self_zero, F|]. split; congruence.
  - exists (x - x)%float. pose proof (sub_self_nan x F) as N.
    split; [apply pow2_of_nan, N|]. split; congruence.
Qed.

Lemma calculate_distance_self_nan pow p :
  fin (fst p) && fin (snd p) = false -> calculate_distance pow p p = Ok nan.
Proof.
  intros H. unfold calculate_distance.
  destruct (pow2_sub_self pow (fst p)) as (vx & Ex & Zx & Nx).
  destruct (pow2_sub_self pow (snd p)) as (vy & Ey & Zy & Ny).
  rewrite Ex, Ey. cbn [result_bind].
  assert (N : notnan (vx + vy) = false).
  { apply andb_false_iff in H. destruct H as [H|H].
    - apply add_nan_l, Nx, H.
    - apply add_nan_r, Ny, H. }
  destruct (sqrt_of_nan _ N) as [E Nr]. rewrite E. f_equal. apply nan_eq, Nr.
Qed.

Lemma key_distances_collapsed pow q :
  fin (fst q) = true -> fin (snd q) = true ->
  key_distances pow (collapsed q) = Ok zero_distances.
Proof.
  intros Fx Fy. unfold key_distances, collapsed.
  cbn [left_eye right_eye nose_tip nose_left nose_right mouth_left mouth_right chin
       forehead left_face_edge right_face_edge].
  rewrite (calculate_distance_self pow q Fx Fy). reflexivity.
Qed.

Lemma ratios_of_zero_distances : ratios_of zero_distances = Ok [1; 1; 1; 1]%float.
Proof. vm_compute. reflexivity. Qed.

Lemma symmetry_score_fallback : symmetry_score [1; 1; 1; 1]%float = Ok fallback_score.
Proof. vm_compute. reflexivity. Qed.

Lemma round2_fallback : Py.round2 fallback_score = 0.89%float.
Proof. vm_compute. reflexivity. Qed.

(** ** Levels of the two-decimal scores *)

Lemma hundredths_rank n : 0 <= n <= 100 ->
  level_rank (get_symmetry_level (Py.float_of_int n / 100)%float) = band_rank n.
Proof.
  intros Hn.
  assert (H : (level_rank (get_symmetry_level (Py.float_of_int n / 100)%float)
               =? band_rank n) = true).
  { apply (forallb_zrange
             (fun n => level_rank (get_symmetry_level (Py.float_of_int n / 100)%float)
                       =? band_rank n) 0 101); [vm_compute; reflexivity|lia]. }
  apply Z.eqb_eq, H.
Qed.

Lemma band_rank_mono m n : m <= n -> band_rank m <= band_rank n.
Proof.
  intros H. unfold band_rank.
  repeat match goal with
    | |- context [Z.leb ?a ?b] => destruct (Z.leb_spec a b)
    end; lia.
Qed.

(** ** analyze_image on an upload with an image content type *)

Lemma analyze_image_typed pow process open f2 str file ct log :
  content_type file = Some ct -> String.prefix "image/" ct = true ->
  analyze_image pow process open f2 str file log =
  match open (contents file) with
  | Raise e => (Raise (HTTPException 500 ("Error processing image: " ++ str e)), log)
  | Ok image =>
      match compute_symmetry_score pow process f2 image log with
      | (Ok score, log') =>
          (Ok {| symmetry_score_field := score;
                 symmetry_level := get_symmetry_level score;
                 message :=
                   ("Your face has a symmetry score of " ++ f2 score
                    ++ " (closer to 1 is more symmetrical), earning the '"
                    ++ get_symmetry_level score
                    ++ "' level! This is for fun and does not reflect beauty or worth!")%string
              |}, log')
      | (Raise e, log') =>
          (Raise (HTTPException 500 ("Error processing image: " ++ str e)), log')
      end
  end.
Proof.
  intros Ec Hp. unfold analyze_image. rewrite Ec, Hp. cbn [negb].
  unfold try_except_Exception, bind, lift, ret, raise.
  destruct (open (contents file)) as [image|e]; [|reflexivity].
  destruct (compute_symmetry_score pow process f2 image log) as [[score|e] log']; reflexivity.
Qed.

Lemma deviation_cases r :
  exists d, deviation r = Ok d /\
            (if is_nan r then is_nan d = true
             else ((0 <=? d) && (d <=? 1))%float = true).
Proof.
  exists (Py.min (abs (r - GOLDEN_RATIO) / GOLDEN_RATIO) 1).
  split; [apply deviation_eq|].
  rewrite (is_nan_notnan r). destruct (notnan r) eqn:N; cbn [negb].
  - destruct (deviation_range r N) as [F B].
    rewrite (leb_fval 0 _ fin_0 F), (leb_fval _ 1 F fin_1), fval_0.
    apply andb_true_intro. split; apply Z.leb_le; lia.
  - rewrite is_nan_notnan, (deviation_nan r N). reflexivity.
Qed.

(** * Further properties of the code *)


(** X2: when the C library's [pow] returns no negative square,
    [calculate_distance] never raises [ValueError]: the only exception
    is the [OverflowError] of [**], and a returned distance is NaN or
    not negative. *)
Theorem calculate_distance_outcomes pow p1 p2 :
  square_not_negative pow ->
  match calculate_distance pow p1 p2 with
  | Ok d => is_nan d = true \/ (0 <=? d)%float = true
  | Raise e => e = OverflowError "(34, 'Numerical result out of range')"
  end.
Proof.
  intros Hn.
  destruct (calculate_distance_cases pow p1 p2 Hn) as [E|(d & E & [N|N])]; rewrite E.
  - reflexivity.
  - left. rewrite is_nan_notnan, N. reflexivity.
  - right. apply nonneg_leb, N.
Qed.

Lemma calculate_distance_outcomes_witness :
  square_not_negative sample_pow /\
  match calculate_distance sample_pow (1, 2)%float (4, 6)%float with
  | Ok d => is_nan d = true \/ (0 <=? d)%float = true
  | Raise e => e = OverflowError "(34, 'Numerical result out of range')"
  end.
Proof.
  split; [exact sample_pow_not_negative|].
  apply (calculate_distance_outcomes sample_pow (1, 2)%float (4, 6)%float
           sample_pow_not_negative).
Defined.

(** X3: the distance of a point to itself is 0.0 when both coordinates
    are finite and NaN otherwise (an infinite coordinate gives
    [inf - inf]); it never raises. *)
Theorem distance_to_itself pow p :
  calculate_distance pow p p = Ok (if fin (fst p) && fin (snd p) then 0 else nan)%float.
Proof.
  destruct (fin (fst p) && fin (snd p)) eqn:F.
  - apply andb_prop in F. destruct F as [Fx Fy]. apply calculate_distance_self; assumption.
  - apply calculate_distance_self_nan, F.
Qed.

(** X4: for two points whose coordinates are at most 2^500 in
    magnitude, and a [pow] whose squares are not negative and not above
    the binary64 numbers that bound the exact square, the distance is
    computed without an exception and is a finite, non-negative
    number. *)
Theorem distance_of_bounded_points pow p1 p2 :
  square_not_negative pow -> square_not_above pow ->
  point_ok p1 = true -> point_ok p2 = true ->
  exists d, calculate_distance pow p1 p2 = Ok d /\
            is_nan d = false /\ is_infinity d = false /\ (0 <=? d)%float = true.
Proof.
  intros Hn Ha H1 H2.
  destruct (calculate_distance_ok pow p1 p2 Hn Ha H1 H2) as (d & E & F & B).
  exists d. split; [exact E|]. split; [apply is_nan_fin, F|].
  split; [apply is_infinity_fin, F|].
  rewrite (leb_fval 0 d fin_0 F), fval_0. apply Z.leb_le, B.
Qed.

Lemma distance_of_bounded_points_witness :
  square_not_negative sample_pow /\ square_not_above sample_pow /\
  point_ok (0, 0)%float = true /\ point_ok (3, 4)%float = true /\
  exists d, calculate_distance sample_pow (0, 0)%float (3, 4)%float = Ok d /\
            is_nan d = false /\ is_infinity d = false /\ (0 <=? d)%float = true.
Proof.
  split; [exact sample_pow_not_negative|]. split; [exact sample_pow_not_above|].
  split; [reflexivity|]. split; [reflexivity|].
  apply (distance_of_bounded_points sample_pow (0, 0)%float (3, 4)%float
           sample_pow_not_negative sample_pow_not_above); reflexivity.
Defined.

(** X5: once the face-mesh model has answered, and when the C
    library's [pow] returns no negative square, [compute_symmetry_score]
    raises nothing but the 400 "No face detected in the image", the
    [IndexError] of a mesh that is too short and the [OverflowError] of
    a square: no [ZeroDivisionError] and no [ValueError]. *)
Theorem scoring_exceptions pow process f2 image log res :
  square_not_negative pow ->
  process image = Ok res ->
  match fst (compute_symmetry_score pow process f2 image log) with
  | Ok _ => True
  | Raise e =>
      e = HTTPException 400 "No face detected in the image" \/
      e = IndexError "list index out of range" \/
      e = OverflowError "(34, 'Numerical result out of range')"
  end.
Proof.
  intros Hn E1. unfold compute_symmetry_score, bind, lift, raise, logger_info, ret.
  rewrite E1.
  destruct (multi_face_landmarks res) as [[|landmarks rest]|]; cbn [fst]; auto.
  pose proof (key_points_cases image landmarks) as Hk.
  destruct (key_points image landmarks) as [p|e]; cbn [fst];
    [|destruct Hk as [-> _]; auto].
  pose proof (key_distances_cases pow p Hn) as Hd.
  destruct (key_distances pow p) as [d|e]; cbn [fst]; [|subst e; auto].
  destruct (ratios_of_components d) as (r0 & r1 & r2 & r3 & E5 & _).
  rewrite E5, (symmetry_score_eq r0 r1 r2 r3). exact I.
Qed.

Lemma scoring_exceptions_witness :
  square_not_negative sample_pow /\
  short_process sample_image = Ok {| multi_face_landmarks := Some [short_landmarks] |} /\
  match fst (compute_symmetry_score sample_pow short_process sample_format_2f
               sample_image []) with
  | Ok _ => True
  | Raise e =>
      e = HTTPException 400 "No face detected in the image" \/
      e = IndexError "list index out of range" \/
      e = OverflowError "(34, 'Numerical result out of range')"
  end.
Proof.
  split; [exact sample_pow_not_negative|]. split; [reflexivity|].
  apply (scoring_exceptions sample_pow short_process sample_format_2f sample_image []
           {| multi_face_landmarks := Some [short_landmarks] |}
           sample_pow_not_negative); reflexivity.
Defined.

(** X6: the first face's mesh must have at least 455 points:
    [compute_symmetry_score] raises [IndexError], with nothing logged,
    exactly when it has fewer. *)
Theorem mesh_needs_455_points pow process f2 image log res landmarks rest :
  process image = Ok res ->
  multi_face_landmarks res = Some (landmarks :: rest) ->
  compute_symmetry_score pow process f2 image log =
    (Raise (IndexError "list index out of range"), log) <->
  (length landmarks < 455)%nat.
Proof.
  intros E1 E2.
  pose proof (key_points_cases image landmarks) as Hk.
  unfold compute_symmetry_score, bind, lift, raise, logger_info, ret.
  rewrite E1, E2.
  destruct (key_points image landmarks) as [p|e].
  - pose proof (key_distances_raises pow p) as Hd.
    destruct (key_distances pow p) as [d|e].
    + destruct (ratios_of_components d) as (r0 & r1 & r2 & r3 & E5 & _).
      rewrite E5, (symmetry_score_eq r0 r1 r2 r3).
      split; [intros H; discriminate H|lia].
    + destruct Hd as [-> | ->]; (split; [intros H; discriminate H|lia]).
  - destruct Hk as [-> Hl]. split; [intros _; exact Hl|reflexivity].
Qed.

Lemma mesh_needs_455_points_witness :
  (length short_landmarks < 455)%nat /\
  compute_symmetry_score sample_pow short_process sample_format_2f sample_image [] =
    (Raise (IndexError "list index out of range"), []).
Proof.
  assert (H : (length short_landmarks < 455)%nat) by (vm_compute; lia).
  split; [exact H|].
  apply (mesh_needs_455_points sample_pow short_process sample_format_2f sample_image []
           {| multi_face_landmarks := Some [short_landmarks] |} short_landmarks []
           eq_refl eq_refl), H.
Defined.

(** X7: the outcome and the log depend on the mesh only through the x
    and y of the nine landmarks 33, 263, 1, 234, 454, 61, 291, 152 and
    10 of the first face: two meshes that agree there, on images of the
    same size, give the same score or exception and the same records,
    whatever their depth values, their other landmarks and their
    length. *)
Theorem only_key_landmarks_matter pow
    process1 process2 f2 image1 image2 log res1 res2 l1 l2 rest1 rest2 :
  process1 image1 = Ok res1 -> process2 image2 = Ok res2 ->
  multi_face_landmarks res1 = Some (l1 :: rest1) ->
  multi_face_landmarks res2 = Some (l2 :: rest2) ->
  width image1 = width image2 -> height image1 = height image2 ->
  same_key_landmarks l1 l2 ->
  compute_symmetry_score pow process1 f2 image1 log =
  compute_symmetry_score pow process2 f2 image2 log.
Proof.
  intros E1 E2 M1 M2 Hw Hh S.
  unfold compute_symmetry_score, bind, lift.
  rewrite E1, E2, M1, M2, (key_points_same image1 image2 l1 l2 Hw Hh S). reflexivity.
Qed.

Lemma only_key_landmarks_matter_witness :
  same_key_landmarks sample_landmarks padded_landmarks /\
  compute_symmetry_score sample_pow sample_process sample_format_2f sample_image [] =
  compute_symmetry_score sample_pow padded_process sample_format_2f other_image [].
Proof.
  assert (S : same_key_landmarks sample_landmarks padded_landmarks).
  { intros i Hi. unfold key_indices in Hi. cbn [In] in Hi.
    repeat (destruct Hi as [<-|Hi]; [vm_compute; reflexivity|]). contradiction. }
  split; [exact S|].
  apply (only_key_landmarks_matter sample_pow sample_process padded_process sample_format_2f
           sample_image other_image []
           {| multi_face_landmarks := Some [sample_landmarks] |}
           {| multi_face_landmarks := Some [padded_landmarks] |}
           sample_landmarks padded_landmarks [] []
           eq_refl eq_refl eq_refl eq_refl eq_refl eq_refl S).
Defined.

(** X8: [compute_symmetry_score] only appends to the log: when it
    returns a score it has appended exactly the three records
    "Distances", "Ratios" and "Symmetry Score" (the last one with the
    score before rounding), and when it raises it has appended
    nothing. *)
Theorem log_records pow process f2 image log :
  exists entries,
    snd (compute_symmetry_score pow process f2 image log) = log ++ entries /\
    match fst (compute_symmetry_score pow process f2 image log) with
    | Ok score =>
        exists d ratios s,
          entries = [distances_message f2 d; ratios_message f2 ratios;
                     ("Symmetry Score: " ++ f2 s)%string] /\
          score = Py.round2 s
    | Raise _ => entries = []
    end.
Proof.
  destruct (compute_symmetry_score_cases pow process f2 image log)
    as [(res & l & rest & p & d & ratios & s & _ & _ & _ & _ & _ & _ & _ & Hc)|(e & Hc)];
    rewrite Hc; cbn [fst snd].
  - eexists. split; [reflexivity|]. exists d, ratios, s. split; reflexivity.
  - exists []. split; [symmetry; apply app_nil_r|reflexivity].
Qed.

(** X9: a face whose nine landmarks fall on one pixel with finite
    coordinates has all distances 0.0, so every ratio takes the fallback
    1.0; the score is then 0.89, "Elegant Harmony": the fallback ratio
    counts as a deviation of |1 - 1.618| / 1.618 from the golden
    ratio. *)
Theorem collapsed_face_score pow process f2 image log res landmarks rest q :
  process image = Ok res ->
  multi_face_landmarks res = Some (landmarks :: rest) ->
  key_points image landmarks = Ok (collapsed q) ->
  fin (fst q) = true -> fin (snd q) = true ->
  key_distances pow (collapsed q) = Ok zero_distances /\
  ratios_of zero_distances = Ok [1; 1; 1; 1]%float /\
  fst (compute_symmetry_score pow process f2 image log) = Ok 0.89%float /\
  has_label "Elegant Harmony" (get_symmetry_level 0.89) = true.
Proof.
  intros E1 E2 E3 Fx Fy.
  pose proof (key_distances_collapsed pow q Fx Fy) as E4.
  split; [exact E4|]. split; [exact ratios_of_zero_distances|]. split; [|reflexivity].
  rewrite (compute_symmetry_score_returns pow process f2 image log res landmarks rest
             (collapsed q) zero_distances [1; 1; 1; 1]%float fallback_score
             E1 E2 E3 E4 ratios_of_zero_distances symmetry_score_fallback).
  cbn [fst]. rewrite round2_fallback. reflexivity.
Qed.

Lemma collapsed_face_score_witness :
  key_points sample_image collapsed_landmarks = Ok (collapsed (320, 240)%float) /\
  fin 320 = true /\ fin 240 = true /\
  fst (compute_symmetry_score sample_pow collapsed_process sample_format_2f sample_image []) =
    Ok 0.89%float.
Proof.
  assert (E : key_points sample_image collapsed_landmarks = Ok (collapsed (320, 240)%float))
    by (vm_compute; reflexivity).
  split; [exact E|]. split; [reflexivity|]. split; [reflexivity|].
  exact (proj1 (proj2 (proj2
    (collapsed_face_score sample_pow collapsed_process sample_format_2f sample_image []
       {| multi_face_landmarks := Some [collapsed_landmarks] |} collapsed_landmarks []
       (320, 240)%float eq_refl eq_refl E eq_refl eq_refl)))).
Defined.

(** X10: a NaN among the four ratios does not raise: every comparison
    with NaN being false, [min] keeps the NaN deviation and [max] keeps
    its first argument, so the score is 0.0, "Authentic Beauty". *)
Theorem nan_ratio_scores_zero r0 r1 r2 r3 :
  is_nan r0 = true \/ is_nan r1 = true \/ is_nan r2 = true \/ is_nan r3 = true ->
  symmetry_score [r0; r1; r2; r3] = Ok 0%float /\
  Py.round2 0 = 0%float /\
  has_label "Authentic Beauty" (get_symmetry_level (Py.round2 0)) = true.
Proof.
  intros H. split; [|split; reflexivity].
  rewrite symmetry_score_eq. f_equal. apply score_nan.
  rewrite !is_nan_notnan, !negb_true_iff in H.
  destruct H as [H|[H|[H|H]]];
    [left|right; left|right; right; left|right; right; right]; apply deviation_nan, H.
Qed.

Lemma nan_ratio_scores_zero_witness :
  is_nan nan = true /\ symmetry_score [1.6; nan; 2; 0.5]%float = Ok 0%float.
Proof.
  split; [reflexivity|].
  apply (nan_ratio_scores_zero 1.6 nan 2 0.5). right. left. reflexivity.
Defined.



(** X12: on the scores the pipeline can return, the two-decimal values
    n/100 with 0 <= n <= 100, the level is the band of the integer n
    (the product [score * 100] never falls on the wrong side of 40, 60,
    75 or 90), so a higher score never has a lower level. *)
Theorem level_is_monotone m n :
  0 <= m -> m <= n -> n <= 100 ->
  level_rank (get_symmetry_level (Py.float_of_int m / 100)%float) = band_rank m /\
  level_rank (get_symmetry_level (Py.float_of_int n / 100)%float) = band_rank n /\
  level_rank (get_symmetry_level (Py.float_of_int m / 100)%float)
  <= level_rank (get_symmetry_level (Py.float_of_int n / 100)%float).
Proof.
  intros H0 H1 H2.
  rewrite (hundredths_rank m), (hundredths_rank n) by lia.
  split; [reflexivity|]. split; [reflexivity|]. apply band_rank_mono, H1.
Qed.

Lemma level_is_monotone_witness :
  level_rank (get_symmetry_level (Py.float_of_int 57 / 100)%float) = band_rank 57 /\
  level_rank (get_symmetry_level (Py.float_of_int 90 / 100)%float) = band_rank 90 /\
  level_rank (get_symmetry_level (Py.float_of_int 57 / 100)%float)
  <= level_rank (get_symmetry_level (Py.float_of_int 90 / 100)%float).
Proof. apply (level_is_monotone 57 90); lia. Defined.

(** X13: the last branch of [get_symmetry_level] takes more than the
    band [0, 40): a [score * 100] above 100, below 0 or NaN is answered
    with "Authentic Beauty" too. *)
Theorem level_outside_bands score :
  (100 <? score * 100)%float = true \/ (score * 100 <? 0)%float = true \/
  is_nan (score * 100)%float = true ->
  has_label "Authentic Beauty" (get_symmetry_level score) = true.
Proof.
  intros [H|[H|H]].
  - apply level_above_100, H.
  - apply level_below_0, H.
  - apply level_of_nan, H.
Qed.

Lemma level_outside_bands_witness :
  (100 <? 1.01 * 100)%float = true /\
  has_label "Authentic Beauty" (get_symmetry_level 1.01) = true /\
  has_label "Authentic Beauty" (get_symmetry_level (-0.5)) = true /\
  has_label "Authentic Beauty" (get_symmetry_level nan) = true.
Proof.
  split; [reflexivity|]. split; [|split].
  - apply (level_outside_bands 1.01). left. reflexivity.
  - apply (level_outside_bands (-0.5)). right. left. reflexivity.
  - apply (level_outside_bands nan). right. right. reflexivity.
Defined.

(** X14: [analyze_image] raises in three ways only, and has logged
    nothing when it does: the [AttributeError] of a file part without a
    content type, the 400 "File must be an image" of a content type
    that does not start with "image/", and the 500 "Error processing
    image: ..." that wraps whatever was raised inside the [try]. *)
Theorem analyze_image_errors pow process open f2 str file log :
  match analyze_image pow process open f2 str file log with
  | (Ok _, _) =>
      exists ct, content_type file = Some ct /\ String.prefix "image/" ct = true
  | (Raise x, log') =>
      log' = log /\
      ((content_type file = None /\
        x = AttributeError "'NoneType' object has no attribute 'startswith'") \/
       (exists ct, content_type file = Some ct /\ String.prefix "image/" ct = false /\
                   x = HTTPException 400 "File must be an image") \/
       (exists ct e, content_type file = Some ct /\ String.prefix "image/" ct = true /\
                     x = HTTPException 500 ("Error processing image: " ++ str e)))
  end.
Proof.
  destruct (content_type file) as [ct|] eqn:Ec.
  2:{ unfold analyze_image. rewrite Ec. unfold raise.
      split; [reflexivity|]. left. split; reflexivity. }
  destruct (String.prefix "image/" ct) eqn:Hp.
  - rewrite (analyze_image_typed pow process open f2 str file ct log Ec Hp).
    destruct (open (contents file)) as [image|e].
    + destruct (compute_symmetry_score_cases pow process f2 image log)
        as [(res & l & rest & p & d & ratios & s & _ & _ & _ & _ & _ & _ & _ & Hc)|(e & Hc)];
        rewrite Hc.
      * exists ct. split; [reflexivity|exact Hp].
      * split; [reflexivity|]. right. right. exists ct, e. repeat split. exact Hp.
    + split; [reflexivity|]. right. right. exists ct, e. repeat split. exact Hp.
  - unfold analyze_image. rewrite Ec, Hp. cbn [negb]. unfold raise.
    split; [reflexivity|]. right. left. exists ct. repeat split. exact Hp.
Qed.

(** X15: every exception raised inside the [try] block, by the image
    decoder or by [compute_symmetry_score], reaches the caller as
    status 500 with the detail "Error processing image: " followed by
    [str] of that exception. *)
Theorem failures_are_wrapped pow process open f2 str file ct log e :
  content_type file = Some ct -> String.prefix "image/" ct = true ->
  open (contents file) = Raise e \/
  (exists image, open (contents file) = Ok image /\
                 fst (compute_symmetry_score pow process f2 image log) = Raise e) ->
  fst (analyze_image pow process open f2 str file log) =
  Raise (HTTPException 500 ("Error processing image: " ++ str e)).
Proof.
  intros Ec Hp H. rewrite (analyze_image_typed pow process open f2 str file ct log Ec Hp).
  destruct H as [Eo|(image & Eo & Hc)]; rewrite Eo; [reflexivity|].
  destruct (compute_symmetry_score pow process f2 image log) as [[score|e'] log'];
    cbn [fst] in Hc |- *; [discriminate Hc|].
  injection Hc as ->. reflexivity.
Qed.

Lemma failures_are_wrapped_witness :
  String.prefix "image/" "image/png" = true /\
  fst (analyze_image sample_pow sample_process raising_open sample_format_2f sample_str png_upload []) =
  Raise (HTTPException 500 "Error processing image: cannot identify image file").
Proof.
  split; [reflexivity|].
  apply (failures_are_wrapped sample_pow sample_process raising_open sample_format_2f sample_str
           png_upload "image/png" [] (OtherException "cannot identify image file"));
    [reflexivity|reflexivity|left; reflexivity].
Defined.

(** X16: every successful response carries a score n/100 with
    0 <= n <= 100 (so a number in [[0,1]]), the level of that score,
    which is the band of n, and the message built from the two; the
    request has logged exactly three records. *)
Theorem response_of_success pow process open f2 str file log r log' :
  analyze_image pow process open f2 str file log = (Ok r, log') ->
  exists n,
    0 <= n <= 100 /\
    symmetry_score_field r = (Py.float_of_int n / 100)%float /\
    in_unit_interval (symmetry_score_field r) = true /\
    symmetry_level r = get_symmetry_level (symmetry_score_field r) /\
    has_label (level_of_hundredths n) (symmetry_level r) = true /\
    message r =
      ("Your face has a symmetry score of " ++ f2 (symmetry_score_field r)
       ++ " (closer to 1 is more symmetrical), earning the '" ++ symmetry_level r
       ++ "' level! This is for fun and does not reflect beauty or worth!")%string /\
    exists entries, log' = log ++ entries /\ length entries = 3%nat.
Proof.
  intros H.
  destruct (content_type file) as [ct|] eqn:Ec;
    [|unfold analyze_image in H; rewrite Ec in H; discriminate H].
  destruct (String.prefix "image/" ct) eqn:Hp;
    [|unfold analyze_image in H; rewrite Ec, Hp in H; discriminate H].
  rewrite (analyze_image_typed pow process open f2 str file ct log Ec Hp) in H.
  destruct (open (contents file)) as [image|e]; [|discriminate H].
  destruct (compute_symmetry_score_cases pow process f2 image log)
    as [(res & l & rest & p & d & ratios & s & _ & _ & _ & _ & _ & _ & (n & Hn & En) & Hc)
       |(e & Hc)];
    rewrite Hc in H; [|discriminate H].
  injection H as <- <-.
  cbn [symmetry_score_field symmetry_level message].
  exists n. split; [exact Hn|]. split; [exact En|].
  split; [rewrite En; apply hundredths_in_unit, Hn|].
  split; [reflexivity|].
  split; [rewrite En; apply hundredths_level, Hn|].
  split; [reflexivity|].
  eexists. split; reflexivity.
Qed.

Lemma response_of_success_witness :
  exists r log',
    analyze_image sample_pow sample_process sample_open sample_format_2f sample_str png_upload [] =
      (Ok r, log') /\
    exists n,
      0 <= n <= 100 /\
      symmetry_score_field r = (Py.float_of_int n / 100)%float /\
      in_unit_interval (symmetry_score_field r) = true /\
      symmetry_level r = get_symmetry_level (symmetry_score_field r) /\
      has_label (level_of_hundredths n) (symmetry_level r) = true /\
      message r =
        ("Your face has a symmetry score of " ++ sample_format_2f (symmetry_score_field r)
         ++ " (closer to 1 is more symmetrical), earning the '" ++ symmetry_level r
         ++ "' level! This is for fun and does not reflect beauty or worth!")%string /\
      exists entries, log' = [] ++ entries /\ length entries = 3%nat.
Proof.
  eexists. eexists. split; [vm_compute; reflexivity|].
  apply (response_of_success sample_pow sample_process sample_open sample_format_2f sample_str
           png_upload []).
  vm_compute. reflexivity.
Defined.

(** X17: for distances that are finite and not negative (those of a
    valid landmark set), each of the four ratios is a number that is
    not negative, possibly infinite, never NaN. *)
Theorem ratios_are_not_negative d :
  distances_ok d ->
  exists r0 r1 r2 r3,
    ratios_of d = Ok [r0; r1; r2; r3] /\
    (0 <=? r0)%float = true /\ (0 <=? r1)%float = true /\
    (0 <=? r2)%float = true /\ (0 <=? r3)%float = true.
Proof.
  intros H.
  destruct (ratios_of_ok d H) as (r0 & r1 & r2 & r3 & E & N0 & N1 & N2 & N3).
  exists r0, r1, r2, r3. split; [exact E|].
  repeat split; apply nonneg_leb; assumption.
Qed.

Lemma ratios_are_not_negative_witness :
  distances_ok sample_distances /\
  exists r0 r1 r2 r3,
    ratios_of sample_distances = Ok [r0; r1; r2; r3] /\
    (0 <=? r0)%float = true /\ (0 <=? r1)%float = true /\
    (0 <=? r2)%float = true /\ (0 <=? r3)%float = true.
Proof.
  assert (H : distances_ok sample_distances).
  { unfold distances_ok. repeat split; vm_compute; try reflexivity; discriminate. }
  split; [exact H|]. apply (ratios_are_not_negative sample_distances H).
Defined.

(** X18: the list comprehension of line 105 never raises, whatever the
    ratios and however many: it returns one deviation per ratio, in
    order, each in [[0,1]], except that a NaN ratio gives a NaN
    deviation. *)
Theorem ratio_deviations_total ratios :
  exists ds,
    ratio_deviations ratios = Ok ds /\
    Forall2 (fun r d =>
               deviation r = Ok d /\
               (if is_nan r then is_nan d = true
                else ((0 <=? d) && (d <=? 1))%float = true)) ratios ds.
Proof.
  induction ratios as [|r rest IH].
  - exists []. split; [reflexivity|constructor].
  - destruct IH as (ds & E & H).
    destruct (deviation_cases r) as (d & Ed & Hd).
    exists (d :: ds). split.
    + cbn [ratio_deviations]. rewrite Ed, E. reflexivity.
    + constructor; [split; assumption|exact H].
Qed.

(** X19: for an upload with an image content type that decodes to an
    image in which the model finds a face with a valid landmark set,
    and a [pow] whose squares are not negative and not above the
    binary64 numbers that bound the exact square, the request succeeds:
    the response carries a score n/100 with 70 <= n <= 100 and one of
    the three upper levels, and three records have been logged. *)
Theorem valid_face_is_answered pow process open f2 str file ct image res landmarks rest log :
  square_not_negative pow -> square_not_above pow ->
  content_type file = Some ct -> String.prefix "image/" ct = true ->
  open (contents file) = Ok image ->
  process image = Ok res ->
  multi_face_landmarks res = Some (landmarks :: rest) ->
  valid_landmarks image landmarks = true ->
  exists r entries n,
    analyze_image pow process open f2 str file log = (Ok r, log ++ entries) /\
    length entries = 3%nat /\
    70 <= n <= 100 /\
    symmetry_score_field r = (Py.float_of_int n / 100)%float /\
    symmetry_level r = get_symmetry_level (symmetry_score_field r) /\
    top_three (symmetry_level r) = true.
Proof.
  intros Hneg Habove Ec Hp Eo E1 E2 V.
  destruct (key_points_ok image landmarks V) as (p & Ep & Op).
  destruct (key_distances_ok pow p Hneg Habove Op) as (d & Ed & Od).
  destruct (ratios_of_ok d Od) as (r0 & r1 & r2 & r3 & Er & N0 & N1 & N2 & N3).
  pose proof (symmetry_score_eq r0 r1 r2 r3) as Es.
  destruct (score_range _ _ _ _ (unit_dev_of_nonneg r0 N0) (unit_dev_of_nonneg r1 N1)
              (unit_dev_of_nonneg r2 N2) (unit_dev_of_nonneg r3 N3)) as [F B].
  pose proof fval_07_pos.
  destruct (round2_unit _ F ltac:(lia)) as [[_ Hz]|(n & Hn & E & H7)]; [lia|].
  specialize (H7 ltac:(lia)).
  rewrite (analyze_image_typed pow process open f2 str file ct log Ec Hp), Eo.
  rewrite (compute_symmetry_score_returns pow process f2 image log res landmarks rest p d
             _ _ E1 E2 Ep Ed Er Es).
  eexists. eexists. exists n.
  split; [reflexivity|]. split; [reflexivity|]. split; [lia|].
  cbn [symmetry_score_field symmetry_level].
  split; [exact E|]. split; [reflexivity|].
  rewrite E. apply hundredths_top_three. lia.
Qed.

Lemma valid_face_is_answered_witness :
  square_not_negative sample_pow /\ square_not_above sample_pow /\
  String.prefix "image/" "image/png" = true /\
  valid_landmarks sample_image sample_landmarks = true /\
  exists r entries n,
    analyze_image sample_pow sample_process sample_open sample_format_2f sample_str png_upload [] =
      (Ok r, [] ++ entries) /\
    length entries = 3%nat /\
    70 <= n <= 100 /\
    symmetry_score_field r = (Py.float_of_int n / 100)%float /\
    symmetry_level r = get_symmetry_level (symmetry_score_field r) /\
    top_three (symmetry_level r) = true.
Proof.
  split; [exact sample_pow_not_negative|]. split; [exact sample_pow_not_above|].
  split; [reflexivity|]. split; [vm_compute; reflexivity|].
  apply (valid_face_is_answered sample_pow sample_process sample_open sample_format_2f sample_str
           png_upload "image/png" sample_image
           {| multi_face_landmarks := Some [sample_landmarks] |} sample_landmarks [] []
           sample_pow_not_negative sample_pow_not_above);
    [reflexivity|reflexivity|reflexivity|reflexivity|reflexivity|vm_compute; reflexivity].
Defined.

(** X20: an upload that has a content type, one that does not start
    with "image/", is answered with status 400 and the detail "File
    must be an image"; the decoder and the model are not called and
    nothing is logged. *)
Theorem non_image_upload_rejected pow process open f2 str file ct log :
  content_type file = Some ct ->
  String.prefix "image/" ct = false ->
  analyze_image pow process open f2 str file log =
  (Raise (HTTPException 400 "File must be an image"), log).
Proof.
  intros Ec Hp. unfold analyze_image. rewrite Ec, Hp. reflexivity.
Qed.

Lemma non_image_upload_rejected_witness :
  String.prefix "image/" "text/plain" = false /\
  analyze_image sample_pow sample_process sample_open sample_format_2f sample_str text_upload [] =
  (Raise (HTTPException 400 "File must be an image"), []).
Proof.
  split; [reflexivity|].
  apply (non_image_upload_rejected sample_pow sample_process sample_open sample_format_2f
           sample_str text_upload "text/plain" []); reflexivity.
Defined.
